(** * WAGO quote PDF parser: a shallow embedding of both pipelines

    The repository ships two single-pass parsers for vendor quote PDFs:

    - [parse_wago_quote_pdf_v1_original.py]: header driven column inference,
      price and discount extraction with regular expressions and [float];
    - [parse_wago_quote_pdf.py]: the simplified three column parser.

    The PDF library (pdfplumber) and pandas are external: a document is
    modelled by what the library answers for each page, and a data frame by
    its list of records.  Text is modelled as ASCII strings; characters
    above 127 are treated as opaque (neither space, digit nor letter).
    Exceptions are explicit: a call returns a value or raises.  Floats are
    binary64 values computed exactly, so that [float] and the format
    [,.2f] round as Python does. *)

From Stdlib Require Import String Ascii List ZArith NArith Bool Lia.
From Stdlib Require Import DecimalString.
From Stdlib Require DecimalN DecimalPos.
Import ListNotations.
Open Scope list_scope.
Open Scope string_scope.
Open Scope nat_scope.

(* ------------------------------------------------------------------ *)
(** ** Python string primitives *)

Module PyStr.

Definition code (c : ascii) : nat := nat_of_ascii c.

(** [str.isspace] on code points below 128; also what [\s] matches
    there.  On other text [strip], [split] and [\s] of the source take
    more characters as white space. *)
Definition is_space (c : ascii) : bool :=
  let n := code c in
  ((9 <=? n) && (n <=? 13)) || ((28 <=? n) && (n <=? 32)).

(** what [float()] strips around its argument (C locale [isspace]). *)
Definition is_c_space (c : ascii) : bool :=
  let n := code c in
  ((9 <=? n) && (n <=? 13)) || (n =? 32).

Definition is_digit (c : ascii) : bool :=
  let n := code c in (48 <=? n) && (n <=? 57).

Definition is_upper (c : ascii) : bool :=
  let n := code c in (65 <=? n) && (n <=? 90).

Definition is_lower (c : ascii) : bool :=
  let n := code c in (97 <=? n) && (n <=? 122).

Definition is_alpha (c : ascii) : bool := is_upper c || is_lower c.

Definition lower_char (c : ascii) : ascii :=
  if is_upper c then ascii_of_nat (code c + 32) else c.

(** [s.lower()] *)
Fixpoint lower (s : string) : string :=
  match s with
  | EmptyString => EmptyString
  | String c s' => String (lower_char c) (lower s')
  end.

Fixpoint lstrip_by (p : ascii -> bool) (s : string) : string :=
  match s with
  | EmptyString => EmptyString
  | String c s' => if p c then lstrip_by p s' else s
  end.

Fixpoint rstrip_by (p : ascii -> bool) (s : string) : string :=
  match s with
  | EmptyString => EmptyString
  | String c s' =>
      match rstrip_by p s' with
      | EmptyString => if p c then EmptyString else String c EmptyString
      | t => String c t
      end
  end.

(** [s.strip()] *)
Definition strip (s : string) : string := rstrip_by is_space (lstrip_by is_space s).

(** [sub in s] *)
Fixpoint contains (sub s : string) : bool :=
  String.prefix sub s ||
  match s with
  | EmptyString => false
  | String _ s' => contains sub s'
  end.

(** [s.startswith(p)] *)
Definition startswith (p s : string) : bool := String.prefix p s.

(** [s.replace(old, new)] for a non-empty [old]: non-overlapping
    occurrences, leftmost first.  [skip] counts the characters of an
    occurrence that are still to be dropped. *)
Fixpoint replace_from (old new : string) (skip : nat) (s : string) : string :=
  match s with
  | EmptyString => EmptyString
  | String c s' =>
      match skip with
      | S k => replace_from old new k s'
      | O =>
          if String.prefix old s
          then new ++ replace_from old new (String.length old - 1) s'
          else String c (replace_from old new 0 s')
      end
  end.

Definition replace (old new s : string) : string := replace_from old new 0 s.

(** [s.split()]: the maximal runs of non-space characters. *)
Fixpoint split_ws (s : string) : list string :=
  match s with
  | EmptyString => []
  | String c s' =>
      if is_space c then split_ws s'
      else
        match s' with
        | EmptyString => [String c EmptyString]
        | String c' _ =>
            if is_space c' then String c EmptyString :: split_ws s'
            else
              match split_ws s' with
              | w :: ws => String c w :: ws
              | [] => [String c EmptyString]
              end
        end
  end.

(** [sep.join(l)] *)
Definition join (sep : string) (l : list string) : string := String.concat sep l.

(** [s.split(sep)[0]]: the text before the first occurrence of [sep]. *)
Fixpoint before_first (sep s : string) : string :=
  if String.prefix sep s then EmptyString
  else
    match s with
    | EmptyString => EmptyString
    | String c s' => String c (before_first sep s')
    end.

Fixpoint filter_chars (p : ascii -> bool) (s : string) : string :=
  match s with
  | EmptyString => EmptyString
  | String c s' => if p c then String c (filter_chars p s') else filter_chars p s'
  end.

Fixpoint forallb_chars (p : ascii -> bool) (s : string) : bool :=
  match s with
  | EmptyString => true
  | String c s' => p c && forallb_chars p s'
  end.

(** [str(n)] for an [int] that [str] prints: interpreters that limit the
    conversion refuse an [int] of more than 4300 digits with a
    [ValueError], which this function does not model *)
Definition str_of_Z (z : Z) : string := NilEmpty.string_of_int (Z.to_int z).

Definition is_empty (s : string) : bool :=
  match s with EmptyString => true | _ => false end.

End PyStr.

(* ------------------------------------------------------------------ *)
(** ** A backtracking matcher with the priorities of Python's [re] *)

Module Re.
Import PyStr.

Inductive regex : Type :=
| Eps
| Cls (p : ascii -> bool)            (* one character of a class *)
| Seq (r1 r2 : regex)
| Alt (r1 r2 : regex)                (* r1|r2, r1 tried first *)
| Star (greedy : bool) (r : regex)   (* r* and r*? *)
| Group (i : nat) (r : regex)        (* capturing group number i *)
| Bol                                (* ^ *)
| Eol.                               (* $ without MULTILINE *)

Definition caps := list (nat * string).
Definition cont := string -> caps -> option caps.

Definition set_group (i : nat) (v : string) (c : caps) : caps :=
  (i, v) :: filter (fun e => negb (Nat.eqb (fst e) i)) c.

Fixpoint group (c : caps) (i : nat) : option string :=
  match c with
  | [] => None
  | (j, v) :: c' => if Nat.eqb j i then Some v else group c' i
  end.

(** the characters of [s] that were read to reach its suffix [s'] *)
Definition consumed (s s' : string) : string :=
  String.substring 0 (String.length s - String.length s') s.

Fixpoint star_loop (greedy : bool) (step : string -> caps -> cont -> option caps)
         (fuel : nat) (s : string) (c : caps) (k : cont) : option caps :=
  match fuel with
  | O => k s c
  | S fuel' =>
      let again (_ : unit) :=
        step s c (fun s' c' =>
                    if String.length s' <? String.length s
                    then star_loop greedy step fuel' s' c' k
                    else None) in
      if greedy then
        match again tt with
        | Some r => Some r
        | None => k s c
        end
      else
        match k s c with
        | Some r => Some r
        | None => again tt
        end
  end.

(** [total] is the length of the whole subject, for [^]. *)
Fixpoint rmatch (total : nat) (r : regex) (s : string) (c : caps) (k : cont) : option caps :=
  match r with
  | Eps => k s c
  | Cls p =>
      match s with
      | String a s' => if p a then k s' c else None
      | EmptyString => None
      end
  | Seq r1 r2 => rmatch total r1 s c (fun s' c' => rmatch total r2 s' c' k)
  | Alt r1 r2 =>
      match rmatch total r1 s c k with
      | Some res => Some res
      | None => rmatch total r2 s c k
      end
  | Star g r1 => star_loop g (rmatch total r1) (S (String.length s)) s c k
  | Group i r1 => rmatch total r1 s c (fun s' c' => k s' (set_group i (consumed s s') c'))
  | Bol => if String.length s =? total then k s c else None
  | Eol =>
      match s with
      | EmptyString => k s c
      | String a EmptyString => if Ascii.eqb a "010" then k s c else None
      | _ => None
      end
  end.

Definition accept : cont := fun _ c => Some c.

(** [pattern.match(s)]: anchored at position 0 *)
Definition match_ (r : regex) (s : string) : option caps :=
  rmatch (String.length s) r s [] accept.

Fixpoint search_from (total : nat) (r : regex) (s : string) : option caps :=
  match rmatch total r s [] accept with
  | Some c => Some c
  | None =>
      match s with
      | EmptyString => None
      | String _ s' => search_from total r s'
      end
  end.

(** [pattern.search(s)]: the leftmost position with a match *)
Definition search (r : regex) (s : string) : option caps :=
  search_from (String.length s) r s.

(** *** Pattern syntax *)

Definition chr (a : ascii) : regex := Cls (Ascii.eqb a).
Definition chr_i (a : ascii) : regex := Cls (fun x => Ascii.eqb (lower_char x) (lower_char a)).

Fixpoint lit (s : string) : regex :=
  match s with
  | EmptyString => Eps
  | String a EmptyString => chr a
  | String a s' => Seq (chr a) (lit s')
  end.

(** a literal under [re.I] *)
Fixpoint lit_i (s : string) : regex :=
  match s with
  | EmptyString => Eps
  | String a EmptyString => chr_i a
  | String a s' => Seq (chr_i a) (lit_i s')
  end.

Definition opt (r : regex) : regex := Alt r Eps.            (* r? *)
Definition plus (r : regex) : regex := Seq r (Star true r). (* r+ *)
Definition plus_lazy (r : regex) : regex := Seq r (Star false r). (* r+? *)
Definition star (r : regex) : regex := Star true r.

Fixpoint rep (n : nat) (r : regex) : regex :=               (* r{n} *)
  match n with
  | O => Eps
  | S O => r
  | S n' => Seq r (rep n' r)
  end.

Fixpoint upto (n : nat) (r : regex) : regex :=              (* r{0,n} *)
  match n with
  | O => Eps
  | S n' => opt (Seq r (upto n' r))
  end.

Definition rep_range (m n : nat) (r : regex) : regex :=     (* r{m,n} *)
  Seq (rep m r) (upto (n - m) r).

Definition digit : regex := Cls is_digit.                   (* \d *)
Definition space : regex := Cls is_space.                   (* \s *)
Definition any_dotall : regex := Cls (fun _ => true).       (* . under re.DOTALL *)

Fixpoint seqs (l : list regex) : regex :=
  match l with
  | [] => Eps
  | [r] => r
  | r :: l' => Seq r (seqs l')
  end.

(** [re.sub(r"[^\d]", "", s)] *)
Definition sub_non_digits (s : string) : string := filter_chars is_digit s.

End Re.

(* ------------------------------------------------------------------ *)
(** ** Python [float]: binary64 values, [float(str)], [float(int)],
       [format(x, ",.2f")] and [repr(x)]

    A finite float is kept as sign, integer significand and binary
    exponent; parsing and formatting are correctly rounded (round half to
    even) and computed with exact integer arithmetic. *)

Module PyFloat.
Import PyStr.
Local Open Scope Z_scope.

Inductive pyfloat : Type :=
| FNan
| FInf (neg : bool)
| FFin (neg : bool) (m : Z) (e : Z).      (* (-1)^neg * m * 2^e, 0 <= m *)

(** round half to even of [a / b], for [0 <= a] and [0 < b] *)
Definition div_rne (a b : Z) : Z :=
  let q := a / b in
  let r := a mod b in
  if 2 * r <? b then q
  else if b <? 2 * r then q + 1
  else if Z.even q then q else q + 1.

(** [n / (d * 2^e)] rounded half to even *)
Definition scale_rne (n d e : Z) : Z :=
  if 0 <=? e then div_rne n (d * 2 ^ e) else div_rne (n * 2 ^ (- e)) d.

(** [2^k <= n / d], for any integer [k] *)
Definition ge_pow2 (n d k : Z) : bool :=
  if 0 <=? k then d * 2 ^ k <=? n else d <=? n * 2 ^ (- k).

(** the binary exponent of the unit in the last place of [n / d] *)
Definition ulp_exp (n d : Z) : Z :=
  let l := Z.log2 n - Z.log2 d in
  let fl := if ge_pow2 n d l then l else l - 1 in
  Z.max (fl - 52) (-1074).

(** the binary64 value nearest to [n / d], for [0 <= n] and [0 < d] *)
Definition round_b64 (neg : bool) (n d : Z) : pyfloat :=
  if n =? 0 then FFin neg 0 0
  else
    let e := ulp_exp n d in
    let m := scale_rne n d e in
    if (971 <? e) || ((e =? 971) && (m =? 2 ^ 53)) then FInf neg
    else FFin neg m e.

(** *** [float(str)] *)

Definition digit_val (c : ascii) : Z := Z.of_nat (code c) - 48.

Fixpoint digits_val_from (acc : Z) (s : string) : Z :=
  match s with
  | EmptyString => acc
  | String c s' => digits_val_from (10 * acc + digit_val c) s'
  end.

Definition digits_val (s : string) : Z := digits_val_from 0 s.

(** after a digit: [(["_"] digit)*]; the digits read and the rest *)
Fixpoint digitpart_tail (s : string) : string * string :=
  match s with
  | EmptyString => (EmptyString, EmptyString)
  | String c s' =>
      if is_digit c then
        let (d, r) := digitpart_tail s' in (String c d, r)
      else if Ascii.eqb c "_" then
        match s' with
        | String c2 s'' =>
            if is_digit c2 then
              let (d, r) := digitpart_tail s'' in (String c2 d, r)
            else (EmptyString, s)
        | EmptyString => (EmptyString, s)
        end
      else (EmptyString, s)
  end.

(** [digitpart ::= digit (["_"] digit)*] *)
Definition digitpart (s : string) : option (string * string) :=
  match s with
  | String c s' =>
      if is_digit c then
        let (d, r) := digitpart_tail s' in Some (String c d, r)
      else None
  | EmptyString => None
  end.

(** [number ::= [digitpart] "." digitpart | digitpart ["."]]:
    integer digits, fraction digits and the rest *)
Definition number (s : string) : option (string * string * string) :=
  match digitpart s with
  | Some (i, r) =>
      match r with
      | String "." r' =>
          match digitpart r' with
          | Some (f, r'') => Some (i, f, r'')
          | None => Some (i, EmptyString, r')
          end
      | _ => Some (i, EmptyString, r)
      end
  | None =>
      match s with
      | String "." r' =>
          match digitpart r' with
          | Some (f, r'') => Some (EmptyString, f, r'')
          | None => None
          end
      | _ => None
      end
  end.

(** [exponent ::= ("e" | "E") [sign] digitpart], optional *)
Definition exponent (s : string) : option (Z * string) :=
  match s with
  | String c r =>
      if Ascii.eqb (lower_char c) "e" then
        let '(sg, r1) :=
          match r with
          | String "+" r' => (1, r')
          | String "-" r' => (-1, r')
          | _ => (1, r)
          end in
        match digitpart r1 with
        | Some (d, r2) => Some (sg * digits_val d, r2)
        | None => None
        end
      else Some (0, s)
  | EmptyString => Some (0, s)
  end.

Definition sign (s : string) : bool * string :=
  match s with
  | String "-" r => (true, r)
  | String "+" r => (false, r)
  | _ => (false, s)
  end.

(** [float(s)]; [None] stands for [ValueError] *)
Definition float_of_string (s : string) : option pyfloat :=
  let t := rstrip_by is_c_space (lstrip_by is_c_space s) in
  let (neg, body) := sign t in
  let low := lower body in
  if String.eqb low "inf" || String.eqb low "infinity" then Some (FInf neg)
  else if String.eqb low "nan" then Some FNan
  else
    match number body with
    | Some (i, f, r) =>
        match exponent r with
        | Some (x, EmptyString) =>
            let mant := digits_val (i ++ f) in
            let sh := x - Z.of_nat (String.length f) in
            Some (if 0 <=? sh then round_b64 neg (mant * 10 ^ sh) 1
                  else round_b64 neg mant (10 ^ (- sh)))
        | _ => None
        end
    | None => None
    end.

(** [float(z)] for an [int]; [None] stands for [OverflowError] *)
Definition float_of_Z (z : Z) : option pyfloat :=
  match round_b64 (z <? 0) (Z.abs z) 1 with
  | FInf _ => None
  | f => Some f
  end.

Definition is_nan (f : pyfloat) : bool :=
  match f with FNan => true | _ => false end.

(** truth value of a float: false exactly for zero *)
Definition truthy (f : pyfloat) : bool :=
  match f with FFin _ m _ => negb (m =? 0) | _ => true end.

(** *** Formatting *)

Definition str_of_nonneg (z : Z) : string :=
  NilEmpty.string_of_uint (N.to_uint (Z.to_N z)).

(** thousands separators: a comma before every group of three digits *)
Fixpoint group3 (s : string) : string :=
  match s with
  | EmptyString => EmptyString
  | String c s' =>
      String c
        (if (0 <? String.length s')%nat && (String.length s' mod 3 =? 0)%nat
         then String "," (group3 s') else group3 s')
  end.

Definition two_digits (z : Z) : string :=
  if z <? 10 then String "0" (str_of_nonneg z) else str_of_nonneg z.

(** a non-negative number of hundredths as [d,ddd.dd] *)
Definition format_hundredths (h : Z) : string :=
  group3 (str_of_nonneg (h / 100)) ++ "." ++ two_digits (h mod 100).

(** the float's magnitude in hundredths, rounded half to even *)
Definition hundredths (m e : Z) : Z := scale_rne (m * 100) 1 (- e).

(** [format(x, ",.2f")] *)
Definition format_comma_2f (x : pyfloat) : string :=
  match x with
  | FNan => "nan"
  | FInf neg => if neg then "-inf" else "inf"
  | FFin neg m e =>
      (if neg then "-" else "") ++ format_hundredths (hundredths m e)
  end.

(** *** [repr(x)]: the shortest decimal string that reads back as [x] *)

Definition same_value (m1 e1 m2 e2 : Z) : bool :=
  let e := Z.min e1 e2 in
  m1 * 2 ^ (e1 - e) =? m2 * 2 ^ (e2 - e).

Fixpoint neg_dec_exp (fuel : nat) (n d j : Z) : Z :=
  match fuel with
  | O => - j
  | S fuel' => if d <=? n * 10 ^ j then - j else neg_dec_exp fuel' n d (j + 1)
  end.

(** [k] with [10^k <= n / d < 10^(k+1)], for [0 < n] and [0 < d] *)
Definition dec_exp (n d : Z) : Z :=
  if d <=? n then Z.of_nat (String.length (str_of_nonneg (n / d))) - 1
  else neg_dec_exp 400 n d 1.

(** does the decimal [c * 10^x] read back as [m * 2^e]? *)
Definition reads_back (c x m e : Z) : bool :=
  match (if 0 <=? x then round_b64 false (c * 10 ^ x) 1
         else round_b64 false c (10 ^ (- x))) with
  | FFin _ m' e' => same_value m' e' m e
  | _ => false
  end.

(** the [p]-digit decimals just below and above [m * 2^e]: the one that
    reads back (the nearer when both do), with its power of ten *)
Definition candidate (m e k p : Z) : option (Z * Z) :=
  let n := if 0 <=? e then m * 2 ^ e else m in
  let d := if 0 <=? e then 1 else 2 ^ (- e) in
  let x := k - p + 1 in
  let a := if 0 <=? x then n else n * 10 ^ (- x) in
  let b := if 0 <=? x then d * 10 ^ x else d in
  let lo := a / b in
  let hi := lo + 1 in
  let near_lo :=
    if 2 * a <? (2 * lo + 1) * b then true
    else if (2 * lo + 1) * b <? 2 * a then false
    else Z.even lo in
  match reads_back lo x m e, reads_back hi x m e with
  | true, true => Some (if near_lo then lo else hi, x)
  | true, false => Some (lo, x)
  | false, true => Some (hi, x)
  | false, false => None
  end.

Fixpoint shortest (fuel : nat) (m e k p : Z) : Z * Z :=
  match fuel with
  | O => (scale_rne (if 0 <=? e then m * 2 ^ e else m)
                    (if 0 <=? e then 1 else 2 ^ (- e)) 0, 0)
  | S fuel' =>
      match candidate m e k p with
      | Some r => r
      | None => shortest fuel' m e k (p + 1)
      end
  end.

Fixpoint strip_zeros_rev (s : string) : string :=
  match s with
  | String "0" s' => strip_zeros_rev s'
  | _ => s
  end.

Fixpoint rev_string (acc s : string) : string :=
  match s with
  | EmptyString => acc
  | String c s' => rev_string (String c acc) s'
  end.

Definition strip_trailing_zeros (s : string) : string :=
  rev_string EmptyString (strip_zeros_rev (rev_string EmptyString s)).

Fixpoint zeros (n : nat) : string :=
  match n with
  | O => EmptyString
  | S n' => String "0" (zeros n')
  end.

(** digits [ds] with the decimal point after [decpt] of them, laid out
    as [repr] does: exponent notation outside [-4 < decpt <= 16] *)
Definition layout (ds : string) (decpt : Z) : string :=
  let len := Z.of_nat (String.length ds) in
  if (decpt <=? -4) || (16 <? decpt) then
    let x := decpt - 1 in
    let xs := str_of_nonneg (Z.abs x) in
    String.substring 0 1 ds
      ++ (if 1 <? len then "." ++ String.substring 1 (String.length ds - 1) ds else "")
      ++ "e" ++ (if x <? 0 then "-" else "+")
      ++ (if Z.abs x <? 10 then "0" else "") ++ xs
  else if decpt <=? 0 then
    "0." ++ zeros (Z.to_nat (- decpt)) ++ ds
  else if len <=? decpt then
    ds ++ zeros (Z.to_nat (decpt - len)) ++ ".0"
  else
    String.substring 0 (Z.to_nat decpt) ds ++ "."
      ++ String.substring (Z.to_nat decpt) (String.length ds - Z.to_nat decpt) ds.

(** [repr(x)], which is also [str(x)] and [format(x, "")] *)
Definition float_repr (x : pyfloat) : string :=
  match x with
  | FNan => "nan"
  | FInf neg => if neg then "-inf" else "inf"
  | FFin neg m e =>
      (if neg then "-" else "") ++
      (if m =? 0 then "0.0"
       else
         let n := if 0 <=? e then m * 2 ^ e else m in
         let d := if 0 <=? e then 1 else 2 ^ (- e) in
         let k := dec_exp n d in
         let (c, x) := shortest 17 m e k 1 in
         let ds := str_of_nonneg c in
         layout (strip_trailing_zeros ds) (Z.of_nat (String.length ds) + x))
  end.

End PyFloat.

(* ------------------------------------------------------------------ *)
(** ** Exceptions, paths, table grids and the host environment *)

Module Py.
Import PyStr PyFloat.

Inductive exn_class : Type :=
| FileNotFoundError | ValueError | ImportError | OverflowError
| AttributeError | OtherError.

Record exn : Type := mk_exn { exn_cls : exn_class; exn_msg : string }.

(** the outcome of a call: a value, or a raised exception *)
Inductive result (A : Type) : Type :=
| Ok (a : A)
| Raise (e : exn).
Arguments Ok {A} a.
Arguments Raise {A} e.

Definition bind {A B : Type} (c : result A) (k : A -> result B) : result B :=
  match c with
  | Ok a => k a
  | Raise e => Raise e
  end.

(** a [for] loop whose body may raise *)
Fixpoint for_each {S A : Type} (body : S -> A -> result S) (l : list A) (st : S) : result S :=
  match l with
  | [] => Ok st
  | a :: l' => bind (body st a) (for_each body l')
  end.

(** a table cell as the PDF library reports it *)
Inductive cell : Type :=
| CNone
| CStr (s : string)
| CInt (z : Z)
| CFloat (f : pyfloat).

Definition row := list cell.
Definition table := list row.

(** [str(c)] for a cell that is not [None] *)
Definition str (c : cell) : string :=
  match c with
  | CNone => "None"
  | CStr s => s
  | CInt z => str_of_Z z
  | CFloat f => float_repr f
  end.

(** the truth value of a cell, as in [if c] *)
Definition truthy (c : cell) : bool :=
  match c with
  | CNone => false
  | CStr s => negb (is_empty s)
  | CInt z => negb (Z.eqb z 0)
  | CFloat f => PyFloat.truthy f
  end.

(** an optional string is true when present and non-empty *)
Definition truthy_opt (o : option string) : bool :=
  match o with
  | Some s => negb (is_empty s)
  | None => false
  end.

(** what pdfplumber answers for one page; each call may raise *)
Record page : Type := mk_page {
  extract_text : result (option string);
  extract_tables : result (list table);
  extract_table : result (option table)
}.

Definition document := list page.

(** *** [pathlib.Path], POSIX flavour *)

Record path : Type := mk_path { absolute : bool; parts : list string }.

Fixpoint split_slash (cur : string) (s : string) : list string :=
  match s with
  | EmptyString => [cur]
  | String c s' =>
      if Ascii.eqb c "/" then cur :: split_slash EmptyString s'
      else split_slash (cur ++ String c EmptyString) s'
  end.

(** [Path(s)]: empty and ["."] components are dropped *)
Definition Path (s : string) : path :=
  mk_path (String.prefix "/" s)
          (filter (fun p => negb (is_empty p) && negb (String.eqb p "."))
                  (split_slash EmptyString s)).

(** [str(p)] *)
Definition path_str (p : path) : string :=
  match absolute p, parts p with
  | false, [] => "."
  | false, l => join "/" l
  | true, l => "/" ++ join "/" l
  end.

(** [p.parent] *)
Definition parent (p : path) : path := mk_path (absolute p) (removelast (parts p)).

(** [p / name] for a single component [name] *)
Definition joinpath (p : path) (name : string) : path :=
  mk_path (absolute p) (parts p ++ [name]).

(** the index of the last ["."] of [s], if any *)
Fixpoint rfind_dot (s : string) : option nat :=
  match s with
  | EmptyString => None
  | String c s' =>
      match rfind_dot s' with
      | Some i => Some (S i)
      | None => if Ascii.eqb c "." then Some 0 else None
      end
  end.

(** [p.suffix] *)
Definition suffix (p : path) : string :=
  let name := last (parts p) EmptyString in
  match rfind_dot name with
  | Some i =>
      if (0 <? i) && (i <? String.length name - 1)
      then String.substring i (String.length name - i) name
      else EmptyString
  | None => EmptyString
  end.

Definition path_eqb (p q : path) : bool :=
  Bool.eqb (absolute p) (absolute q) &&
  (if list_eq_dec string_dec (parts p) (parts q) then true else false).

(** *** The output record and the data frame *)

Record record : Type := mk_record {
  part_number : string;   (* "Part Number" *)
  series : string;        (* "Series" *)
  description : string;   (* "Description" *)
  price : string;         (* "Price" *)
  discount : string       (* "Discount" *)
}.

(** [pd.DataFrame(records, columns=OUTPUT_COLUMNS)] *)
Definition dataframe := list record.

Definition dquote : string := String "034" EmptyString.

(** one field as [csv.writer] with [QUOTE_MINIMAL] writes it: quoted when
    it holds the delimiter, the quote character or a character of the
    line terminator *)
Definition csv_field (s : string) : string :=
  if contains "," s || contains dquote s || contains (String "010" EmptyString) s
  then dquote ++ replace dquote (dquote ++ dquote) s ++ dquote
  else s.

Definition csv_line (fields : list string) : string :=
  join "," (map csv_field fields) ++ String "010" EmptyString.

Definition OUTPUT_COLUMNS : list string :=
  ["Part Number"; "Series"; "Description"; "Price"; "Discount"].

(** [df.to_csv(index=False, encoding="utf-8")] on a POSIX host *)
Definition to_csv (df : dataframe) : string :=
  String.concat EmptyString
    (csv_line OUTPUT_COLUMNS ::
     map (fun r => csv_line [part_number r; series r; description r; price r; discount r]) df).

(** *** The host: file system and output streams *)

Inductive file : Type :=
| PdfFile (d : document)        (* pdfplumber opens it *)
| BadFile (e : exn)             (* pdfplumber.open raises [e] *)
| TextFile (content : string).  (* a file written by [save_csv] *)

Inductive line : Type :=
| LUsage
| LError (e : exn)              (* print(e, file=sys.stderr) *)
| LParseError (e : exn)         (* print(f"Parse error: {e}", file=sys.stderr) *)
| LRows (n : nat)
| LQuoteNumber (q : option string)
| LMetadata (q d x c : option string)
| LSaved (p : path).

Record world : Type := mk_world {
  has_pdfplumber : bool;
  fs : list (path * file);
  stdout : list line;
  stderr : list line
}.

Fixpoint lookup (p : path) (l : list (path * file)) : option file :=
  match l with
  | [] => None
  | (q, f) :: l' => if path_eqb q p then Some f else lookup p l'
  end.

(** [path.exists()] *)
Definition exists_ (w : world) (p : path) : bool :=
  match lookup p (fs w) with Some _ => true | None => false end.

(** [pdfplumber.open(path)] on an existing path *)
Definition open_pdf (w : world) (p : path) : result document :=
  match lookup p (fs w) with
  | Some (PdfFile d) => Ok d
  | Some (BadFile e) => Raise e
  | Some (TextFile _) => Raise (mk_exn OtherError "No /Root object! - Is this really a PDF?")
  | None => Raise (mk_exn FileNotFoundError (path_str p))
  end.

Definition write_file (w : world) (p : path) (content : string) : world :=
  mk_world (has_pdfplumber w) ((p, TextFile content) :: fs w) (stdout w) (stderr w).

Definition print (w : world) (l : line) : world :=
  mk_world (has_pdfplumber w) (fs w) (stdout w ++ [l]) (stderr w).

Definition eprint (w : world) (l : line) : world :=
  mk_world (has_pdfplumber w) (fs w) (stdout w) (stderr w ++ [l]).

(** [df.to_csv(output_path, ...)]; the write itself is taken to succeed *)
Definition save_csv (w : world) (df : dataframe) (output_path : path) : world :=
  write_file w output_path (to_csv df).

End Py.

Notation "x <- c ;; k" := (Py.bind c (fun x => k))
  (at level 61, c at next level, right associativity).

(* ------------------------------------------------------------------ *)
(** ** [parse_wago_quote_pdf_v1_original.py] *)

Module Original.
Import PyStr Re PyFloat Py.

(** [(?:quote|quotation)\s*#?\s*:?\s*([A-Z0-9\-]+)], [re.I], on ASCII
    text: there the class holds the letters, the digits and the dash
    (on other text, read without regard to case, it also takes a few
    letters outside ASCII) *)
Definition RE_QUOTE_NUMBER : regex :=
  seqs [Alt (lit_i "quote") (lit_i "quotation");
        star space; opt (chr "#"); star space; opt (chr ":"); star space;
        Group 1 (plus (Cls (fun c => is_alpha c || is_digit c || Ascii.eqb c "-")))].

(** [\d{1,2}[/\-]\d{1,2}[/\-]\d{2,4}] *)
Definition date_body : regex :=
  let sep := Cls (fun c => Ascii.eqb c "/" || Ascii.eqb c "-") in
  seqs [rep_range 1 2 digit; sep; rep_range 1 2 digit; sep; rep_range 2 4 digit].

(** [(?:date|issued)\s*:?\s*(\d{1,2}[/\-]\d{1,2}[/\-]\d{2,4})], [re.I] *)
Definition RE_DATE : regex :=
  seqs [Alt (lit_i "date") (lit_i "issued");
        star space; opt (chr ":"); star space; Group 1 date_body].

(** [(?:valid|expir|expires?)\s*:?\s*(\d{1,2}[/\-]\d{1,2}[/\-]\d{2,4})], [re.I] *)
Definition RE_EXPIRATION : regex :=
  seqs [Alt (lit_i "valid") (Alt (lit_i "expir") (Seq (lit_i "expire") (opt (chr_i "s"))));
        star space; opt (chr ":"); star space; Group 1 date_body].

(** [(?:customer|sold\s*to|bill\s*to)\s*:?\s*(.+?)(?:\n|$)], [re.I | re.DOTALL] *)
Definition RE_CUSTOMER : regex :=
  seqs [Alt (lit_i "customer")
            (Alt (seqs [lit_i "sold"; star space; lit_i "to"])
                 (seqs [lit_i "bill"; star space; lit_i "to"]));
        star space; opt (chr ":"); star space;
        Group 1 (plus_lazy any_dotall);
        Alt (chr "010") Eol].

(** [\$\s*([\d,]+(?:\.\d{2})?)] *)
Definition RE_PRICE : regex :=
  seqs [chr "$"; star space;
        Group 1 (Seq (plus (Cls (fun c => is_digit c || Ascii.eqb c ",")))
                     (opt (Seq (chr ".") (rep 2 digit))))].

(** [(\d+(?:\.\d+)?)\s*%] *)
Definition RE_DISCOUNT : regex :=
  seqs [Group 1 (Seq (plus digit) (opt (Seq (chr ".") (plus digit))));
        star space; chr "%"].

(** [^\s*(\d{2,4})\s*$] *)
Definition RE_SERIES_NUM : regex :=
  seqs [Bol; star space; Group 1 (rep_range 2 4 digit); star space; Eol].

(** the text of group 1 of a match *)
Definition group1 (c : caps) : string :=
  match group c 1 with Some s => s | None => "" end.

(** [_clean_text], on a [str] argument *)
Definition _clean_text (s : string) : string :=
  if is_empty s then ""
  else
    let s := replace (String "013" "") " " (replace (String "010" "") "; " s) in
    strip (join " " (split_ws s)).

(** [_clean_part_number], on a [str] argument *)
Definition _clean_part_number (s : string) : string :=
  if is_empty s then ""
  else join " " (split_ws (strip s)).

Definition OVERFLOW : exn := mk_exn OverflowError "int too large to convert to float".

(** [_extract_price_from_cell] *)
Definition _extract_price_from_cell (val : cell) : result (option string) :=
  match val with
  | CNone => Ok None
  | CFloat f =>
      if is_nan f then Ok None else Ok (Some (format_comma_2f f))
  | CInt z =>
      match float_of_Z z with
      | Some f => Ok (Some (format_comma_2f f))
      | None => Raise OVERFLOW
      end
  | CStr s0 =>
      let s := strip s0 in
      match search RE_PRICE s with
      | Some m =>
          match float_of_string (replace "," "" (group1 m)) with
          | Some n => Ok (Some ("$" ++ format_comma_2f n))
          | None => Ok (Some ("$" ++ group1 m))
          end
      | None =>
          match float_of_string (strip (replace "$" "" (replace "," "" s))) with
          | Some n => Ok (Some ("$" ++ format_comma_2f n))
          | None => Ok None
          end
      end
  end.

(** [_extract_discount_from_cell] *)
Definition _extract_discount_from_cell (val : cell) : option string :=
  match val with
  | CNone => None
  | _ =>
      if (match val with CFloat f => is_nan f | _ => false end) then None
      else
        let s := strip (str val) in
        match search RE_DISCOUNT s with
        | Some m => Some (group1 m ++ "%")
        | None =>
            match float_of_string (strip (replace "," "" (replace "%" "" s))) with
            | Some n => Some (float_repr n ++ "%")
            | None => None
            end
        end
  end.

(** [_series_numeric_only], on a [str] argument *)
Definition _series_numeric_only (s0 : string) : string :=
  if is_empty s0 then ""
  else
    let s := strip s0 in
    match match_ RE_SERIES_NUM s with
    | Some m => group1 m
    | None => sub_non_digits s
    end.

(** the dictionary of column roles *)
Record indices : Type := mk_indices {
  i_part : option nat;
  i_series : option nat;
  i_description : option nat;
  i_price : option nat;
  i_discount : option nat
}.

Definition set_part (ix : indices) (v : option nat) : indices :=
  mk_indices v (i_series ix) (i_description ix) (i_price ix) (i_discount ix).
Definition set_series (ix : indices) (v : option nat) : indices :=
  mk_indices (i_part ix) v (i_description ix) (i_price ix) (i_discount ix).
Definition set_description (ix : indices) (v : option nat) : indices :=
  mk_indices (i_part ix) (i_series ix) v (i_price ix) (i_discount ix).
Definition set_price (ix : indices) (v : option nat) : indices :=
  mk_indices (i_part ix) (i_series ix) (i_description ix) v (i_discount ix).
Definition set_discount (ix : indices) (v : option nat) : indices :=
  mk_indices (i_part ix) (i_series ix) (i_description ix) (i_price ix) v.

Definition is_none {A : Type} (o : option A) : bool :=
  match o with None => true | Some _ => false end.

(** [enumerate(l)] *)
Definition enumerate {A : Type} (l : list A) : list (nat * A) :=
  combine (seq 0 (List.length l)) l.

(** the semantic roles, in the order of the [if]/[elif] chain *)
Inductive role : Type := RPart | RSeries | RDescription | RPrice | RDiscount.

(** which branch of the chain a lowered header cell takes; [joined] is
    [" ".join(h)] *)
Definition header_role (joined cell : string) : option role :=
  if contains "part" cell &&
     (contains "number" cell || contains "no" cell || contains "nr" cell)
  then Some RPart
  else if contains "series" cell then Some RSeries
  else if contains "desc" cell || contains "product" cell then Some RDescription
  else if contains "price" cell || (contains "unit" cell && contains "price" joined)
  then Some RPrice
  else if contains "discount" cell || contains "disc" cell then Some RDiscount
  else None.

Definition assign (ix : indices) (r : role) (i : nat) : indices :=
  match r with
  | RPart => set_part ix (Some i)
  | RSeries => set_series ix (Some i)
  | RDescription => set_description ix (Some i)
  | RPrice => set_price ix (Some i)
  | RDiscount => set_discount ix (Some i)
  end.

(** one iteration of [for i, cell in enumerate(h)] *)
Definition header_step (joined : string) (ix : indices) (ic : nat * string) : indices :=
  match header_role joined (snd ic) with
  | Some r => assign ix r (fst ic)
  | None => ix
  end.

Definition no_indices : indices := mk_indices None None None None None.

(** [h = [str(c).lower().strip() if c is not None else "" for c in header_row]] *)
Definition header_cells (header_row : row) : list string :=
  map (fun c => match c with CNone => "" | _ => strip (lower (str c)) end) header_row.

(** the loop [for i, cell in enumerate(h)] of [_infer_column_indices] *)
Definition header_scan (h : list string) : indices :=
  fold_left (header_step (join " " h)) (enumerate h) no_indices.

(** [_infer_column_indices] *)
Definition _infer_column_indices (header_row : row) : indices :=
  let h := header_cells header_row in
  let ix := header_scan h in
  let ix := if is_none (i_price ix) && (4 <=? List.length h)
            then set_price ix (Some (List.length h - 2)) else ix in
  let ix := if is_none (i_discount ix) && (5 <=? List.length h)
            then set_discount ix (Some (List.length h - 1)) else ix in
  ix.

(** [l[i] += 1] *)
Fixpoint incr_at (i : nat) (l : list nat) : list nat :=
  match l, i with
  | [], _ => []
  | x :: l', O => S x :: l'
  | x :: l', S i' => x :: incr_at i' l'
  end.

(** [max(l)] of a list of lengths or counts *)
Definition max_list (l : list nat) : nat := fold_right Nat.max 0 l.

(** the rest of [max(range(n), key=...)]: a later index replaces the
    best one only when its key is strictly larger *)
Fixpoint max_by (key : nat -> nat) (l : list nat) (best : nat) : nat :=
  match l with
  | [] => best
  | i :: l' => max_by key l' (if key best <? key i then i else best)
  end.

(** [max(range(n), key=lambda i: counts[i])], for [0 < n] *)
Definition argmax_range (n : nat) (counts : list nat) : nat :=
  max_by (fun i => nth i counts 0) (seq 1 (n - 1)) 0.

(** is [RE.search(v)] a match on a non-empty [v]? *)
Definition searches (r : regex) (v : string) : bool :=
  negb (is_empty v) && (match search r v with Some _ => true | None => false end).

(** [str(cell).strip() if cell is not None else ""] *)
Definition cell_text (c : cell) : string :=
  match c with CNone => "" | _ => strip (str c) end.

(** one iteration of [for i, cell in enumerate(row)] of the counting loop *)
Definition count_cell (st : list nat * list nat) (ic : nat * cell)
  : result (list nat * list nat) :=
  let '(price_counts, discount_counts) := st in
  let '(i, c) := ic in
  let v := cell_text c in
  p <- _extract_price_from_cell c ;;
  let price_counts :=
    if negb (is_none p) || searches RE_PRICE v then incr_at i price_counts
    else price_counts in
  let discount_counts :=
    if negb (is_none (_extract_discount_from_cell c)) || searches RE_DISCOUNT v
    then incr_at i discount_counts else discount_counts in
  Ok (price_counts, discount_counts).

(** [_infer_column_indices_from_rows] *)
Definition _infer_column_indices_from_rows (rows : list row) : result indices :=
  match rows with
  | [] => Ok (mk_indices (Some 0) (Some 1) (Some 2) (Some 3) (Some 4))
  | _ =>
      let ncols := max_list (map (@List.length cell) rows) in
      if ncols <? 3 then Ok (mk_indices (Some 0) None (Some 1) (Some 2) None)
      else
        (* [if i >= ncols: break] cuts a row after [ncols] cells *)
        counts <- for_each (fun st r => for_each count_cell (enumerate (firstn ncols r)) st)
                           rows (repeat 0 ncols, repeat 0 ncols) ;;
        let '(price_counts, discount_counts) := counts in
        let price_idx :=
          if 0 <? max_list price_counts then argmax_range ncols price_counts
          else ncols - 2 in
        let discount_idx :=
          if 0 <? max_list discount_counts then argmax_range ncols discount_counts
          else ncols - 1 in
        Ok (mk_indices (Some 0)
                       (if 2 <=? ncols then Some 1 else None)
                       (Some (if 3 <=? ncols then 2 else 1))
                       (Some price_idx) (Some discount_idx))
  end.

(** [row[i] if i < len(row) else None] *)
Definition cell_at (r : row) (i : nat) : cell := nth i r CNone.

(** [_row_has_price] *)
Definition _row_has_price (r : row) (price_idx : option nat) : result bool :=
  match price_idx with
  | None => Ok false
  | Some i =>
      if List.length r <=? i then Ok false
      else p <- _extract_price_from_cell (cell_at r i) ;; Ok (negb (is_none p))
  end.

(** [_row_looks_like_series_discount] *)
Definition _row_looks_like_series_discount (r : row) (ix : indices) : result bool :=
  let has_disc :=
    match i_discount ix with
    | None => false
    | Some i => negb (is_none (_extract_discount_from_cell (cell_at r i)))
    end in
  has_price <-
    match i_price ix with
    | None => Ok false
    | Some i => p <- _extract_price_from_cell (cell_at r i) ;; Ok (negb (is_none p))
    end ;;
  Ok (has_disc && negb has_price).

(** the local [get] of [_normalize_row] *)
Definition get (r : row) (i : option nat) : string :=
  match i with
  | None => ""
  | Some i =>
      if List.length r <=? i then ""
      else
        match nth i r CNone with
        | CNone => ""
        | CFloat f => if is_nan f then "" else strip (float_repr f)
        | v => strip (str v)
        end
  end.

(** [a or b] on strings *)
Definition or_str (a b : string) : string := if is_empty a then b else a.

Definition opt_or_empty (o : option string) : string :=
  match o with
  | Some s => s
  | None => ""
  end.

(** [_normalize_row] *)
Definition _normalize_row (r : row) (ix : indices) (is_series_discount : bool)
  : result (option record) :=
  let part := _clean_part_number (get r (i_part ix)) in
  let series := _series_numeric_only (get r (i_series ix)) in
  let desc := _clean_text (get r (i_description ix)) in
  price_str <-
    (if is_series_discount then Ok None
     else _extract_price_from_cell
            (match i_price ix with Some i => cell_at r i | None => CNone end)) ;;
  let discount_str :=
    _extract_discount_from_cell
      (match i_discount ix with Some i => cell_at r i | None => CNone end) in
  if is_series_discount then
    Ok (Some (mk_record ""
                        (or_str series (or_str (_series_numeric_only part)
                                               (_series_numeric_only desc)))
                        desc "" (opt_or_empty discount_str)))
  else if negb (truthy_opt price_str) then Ok None
  else
    Ok (Some (mk_record part series desc (opt_or_empty price_str)
                        (opt_or_empty discount_str))).

(** [_is_header_row] *)
Definition _is_header_row (r : row) : bool :=
  match r with
  | [] => false
  | _ =>
      let combined := join " " (map (fun c => lower (str c)) (filter truthy r)) in
      contains "part" combined &&
      (contains "price" combined || contains "description" combined)
  end.

(** the metadata dictionary *)
Record metadata : Type := mk_metadata {
  quote_number : option string;
  date : option string;
  expiration_date : option string;
  customer : option string
}.

(** the body of the [try] of [_extract_metadata]: collect the text of
    the pages [0] and [len(pdf.pages) - 1]; an exception ends the loop
    and keeps what was collected *)
Fixpoint collect_texts (pdf : document) (idxs : list Z) (texts : list string) : list string :=
  match idxs with
  | [] => texts
  | i :: is' =>
      if (i <? Z.of_nat (List.length pdf))%Z then
        if (i <? 0)%Z then
          (* pdf.pages[-1] of an empty list: IndexError *)
          texts
        else
          match nth_error pdf (Z.to_nat i) with
          | Some p =>
              match extract_text p with
              | Ok (Some t) =>
                  collect_texts pdf is' (if is_empty t then texts else (texts ++ [t])%list)
              | Ok None => collect_texts pdf is' texts
              | Raise _ => texts
              end
          | None => texts
          end
      else collect_texts pdf is' texts
  end.

Definition search1 (r : regex) (s : string) : option string :=
  option_map group1 (search r s).

(** [_extract_metadata], with pdfplumber present *)
Definition _extract_metadata (pdf : document) : metadata :=
  let texts := collect_texts pdf [0%Z; (Z.of_nat (List.length pdf) - 1)%Z] [] in
  let full := join (String "010" "") texts in
  mk_metadata (option_map strip (search1 RE_QUOTE_NUMBER full))
              (option_map strip (search1 RE_DATE full))
              (option_map strip (search1 RE_EXPIRATION full))
              (option_map _clean_text (search1 RE_CUSTOMER full)).

(** [_tables_with_pdfplumber] *)
Fixpoint _tables_with_pdfplumber (pdf : document) (page_indices : list nat) : list table :=
  match page_indices with
  | [] => []
  | i :: is' =>
      match nth_error pdf i with
      | None => _tables_with_pdfplumber pdf is'
      | Some p =>
          match extract_tables p with
          | Ok tables => (tables ++ _tables_with_pdfplumber pdf is')%list
          | Raise _ => _tables_with_pdfplumber pdf is'
          end
      end
  end.

(** the pages scanned first: [1 .. min(9, n) - 1] and the last page *)
Definition page_indices (num_pages : nat) : list nat :=
  let l := if 1 <? num_pages then seq 1 (Nat.min 9 num_pages - 1) else [0] in
  if (1 <? num_pages) && negb (existsb (Nat.eqb (num_pages - 1)) l)
  then (l ++ [num_pages - 1])%list else l.

(** [while len(row) < 5: row.append("")] *)
Definition pad5 (r : row) : row := (r ++ repeat (CStr "") (5 - List.length r))%list.

(** the loop state of [parse_pdf]: the column roles found so far and
    the records appended so far *)
Definition state : Type := option indices * list record.

(** the body of [for r_idx, row in enumerate(table)] *)
Definition process_row (st : state) (row0 : row) : result state :=
  let '(indices, records) := st in
  match row0 with
  | [] => Ok st
  | _ =>
      let r := pad5 row0 in
      if _is_header_row r && is_none indices then
        let ix := _infer_column_indices r in
        let ix := if is_none (i_price ix)
                  then set_price ix (Some (List.length r - 2)) else ix in
        let ix := if is_none (i_discount ix)
                  then set_discount ix (Some (List.length r - 1)) else ix in
        Ok (Some ix, records)
      else
        let ix :=
          match indices with
          | Some ix => ix
          | None =>
              let ix := _infer_column_indices r in
              let ix := if is_none (i_price ix)
                        then set_price ix (Some (Nat.max 0 (List.length r - 2))) else ix in
              if is_none (i_discount ix)
              then set_discount ix (Some (Nat.max 0 (List.length r - 1))) else ix
          end in
        if _is_header_row r then Ok (Some ix, records)
        else
          is_series_discount <- _row_looks_like_series_discount r ix ;;
          priced <- (if is_series_discount then Ok true
                     else _row_has_price r (i_price ix)) ;;
          if negb is_series_discount && negb priced then Ok (Some ix, records)
          else
            rec <- _normalize_row r ix is_series_discount ;;
            match rec with
            | Some rc => Ok (Some ix, (records ++ [rc])%list)
            | None => Ok (Some ix, records)
            end
  end.

(** the body of [for table in tables] *)
Definition process_table (st : state) (t : table) : result state :=
  if List.length t <? 2 then Ok st
  else for_each process_row t st.

Definition extraction_empty (p : path) : exn :=
  mk_exn ValueError
         ("No pricing rows extracted from " ++ path_str p
          ++ ". Check PDF layout or try different pages.").

(** the body of [with pdfplumber.open(path) as pdf] *)
Definition parse_document (pdf : document) : result (metadata * list record) :=
  let metadata := _extract_metadata pdf in
  let num_pages := List.length pdf in
  let tables := _tables_with_pdfplumber pdf (page_indices num_pages) in
  let tables := match tables with
                | [] => _tables_with_pdfplumber pdf (seq 0 num_pages)
                | _ => tables
                end in
  st <- for_each process_table tables (None, []) ;;
  Ok (metadata, snd st).

(** [parse_pdf] *)
Definition parse_pdf (w : world) (p : path) : result (dataframe * metadata) :=
  if negb (exists_ w p) then
    Raise (mk_exn FileNotFoundError ("PDF not found: " ++ path_str p))
  else if negb (String.eqb (lower (suffix p)) ".pdf") then
    Raise (mk_exn ValueError ("Not a PDF file: " ++ path_str p))
  else if negb (has_pdfplumber w) then
    Raise (mk_exn ImportError "pdfplumber is required. Install with: pip install pdfplumber")
  else
    pdf <- open_pdf w p ;;
    mr <- parse_document pdf ;;
    let '(metadata, records) := mr in
    match records with
    | [] => Raise (extraction_empty p)
    | _ => Ok (records, metadata)
    end.

(** the name of the output file *)
Definition out_name (q : option string) : string :=
  let quote_num :=
    replace " " "_" (replace "/" "-" (if truthy_opt q then opt_or_empty q else "unknown")) in
  "quote_" ++ quote_num ++ "_parsed.csv".

(** [main]: the exit code and the host afterwards; [argv] is [sys.argv] *)
Definition main (argv : list string) (w : world) : nat * world :=
  match argv with
  | _ :: arg1 :: rest =>
      let pdf_path := Path arg1 in
      let output_dir := match rest with
                        | arg2 :: _ => Path arg2
                        | [] => parent pdf_path
                        end in
      match parse_pdf w pdf_path with
      | Raise e =>
          match exn_cls e with
          | FileNotFoundError | ValueError => (1, eprint w (LError e))
          | _ => (1, eprint w (LParseError e))
          end
      | Ok (df, meta) =>
          let out_path := joinpath output_dir (out_name (quote_number meta)) in
          let w := save_csv w df out_path in
          let w := print w (LRows (List.length df)) in
          let w := print w (LMetadata (quote_number meta) (date meta)
                                      (expiration_date meta) (customer meta)) in
          let w := print w (LSaved out_path) in
          (0, w)
      end
  | _ => (1, eprint w LUsage)
  end.

End Original.

(* ------------------------------------------------------------------ *)
(** ** [parse_wago_quote_pdf.py], the simplified parser *)

Module Simplified.
Import PyStr Re PyFloat Py.

(** [(?:quote|quotation|Q)\s*#?\s*:?\s*([A-Z0-9\-]+)], [re.I], on
    ASCII text, as for the pattern of the original parser *)
Definition RE_QUOTE_NUMBER : regex :=
  seqs [Alt (lit_i "quote") (Alt (lit_i "quotation") (chr_i "Q"));
        star space; opt (chr "#"); star space; opt (chr ":"); star space;
        Group 1 (plus (Cls (fun c => is_alpha c || is_digit c || Ascii.eqb c "-")))].

(** [(\d{3})\s*Series.*?([\d.]+)%], [re.I | re.DOTALL] *)
Definition RE_SERIES_DISCOUNT : regex :=
  seqs [Group 1 (rep 3 digit); star space; lit_i "Series";
        Star false any_dotall;
        Group 2 (plus (Cls (fun c => is_digit c || Ascii.eqb c ".")));
        chr "%"].

Definition group_text (c : caps) (i : nat) : string :=
  match group c i with Some s => s | None => "" end.

(** [extract_metadata]: the quote number of the first page, if any *)
Definition extract_metadata (pdf : document) : option string :=
  match pdf with
  | [] => None
  | p :: _ =>
      match extract_text p with
      | Ok t =>
          let text := match t with
                      | Some s => s
                      | None => ""
                      end in
          match search RE_QUOTE_NUMBER text with
          | Some m => Some (strip (group_text m 1))
          | None => None
          end
      | Raise _ => None
      end
  end.

(** [c or ""] *)
Definition or_empty (c : cell) : cell := if truthy c then c else CStr "".

(** [c.strip()], a method of [str] only *)
Definition strip_method (c : cell) : result string :=
  match c with
  | CStr s => Ok (strip s)
  | CInt _ => Raise (mk_exn AttributeError "'int' object has no attribute 'strip'")
  | CFloat _ => Raise (mk_exn AttributeError "'float' object has no attribute 'strip'")
  | CNone => Raise (mk_exn AttributeError "'NoneType' object has no attribute 'strip'")
  end.

Definition newline : string := String "010" "".

(** the body of [for row in table[start_idx:]] *)
Definition process_row (all_rows : list record) (r : row) : result (list record) :=
  match r with
  | c0 :: c1 :: c2 :: _ =>
      let part_raw := or_empty c0 in
      let desc_raw := or_empty c1 in
      let price_raw := or_empty c2 in
      price <- strip_method price_raw ;;
      if is_empty price then Ok all_rows
      else
        part0 <- strip_method part_raw ;;
        desc0 <- strip_method desc_raw ;;
        let part := replace newline "/" part0 in
        let desc := replace "<br>" "; " (replace newline "; " desc0) in
        let product :=
          mk_record part "" desc
                    (if startswith "$" price then price else "$" ++ price) "" in
        if contains "discount" (lower desc) && contains "%" desc then
          match search RE_SERIES_DISCOUNT desc with
          | Some m =>
              let series_num := group_text m 1 in
              let discount_pct := group_text m 2 in
              let clean_desc :=
                strip (replace (series_num ++ " Series") ""
                               (before_first "Discount" desc)) in
              Ok (all_rows ++ [mk_record "" series_num clean_desc "" (discount_pct ++ "%")])%list
          | None => Ok (all_rows ++ [product])%list
          end
        else Ok (all_rows ++ [product])%list
  | _ => Ok all_rows
  end.

(** [table[0] and any("part" in str(c).lower() for c in table[0] if c)] *)
Definition has_header (t : table) : bool :=
  match t with
  | r0 :: _ => existsb (fun c => truthy c && contains "part" (lower (str c))) r0
  | [] => false
  end.

(** the body of [for page in pdf.pages] *)
Definition process_page (all_rows : list record) (p : page) : result (list record) :=
  t <- extract_table p ;;
  match t with
  | None | Some [] => Ok all_rows
  | Some tbl =>
      let start_idx := if has_header tbl then 1 else 0 in
      for_each process_row (skipn start_idx tbl) all_rows
  end.

Definition extraction_empty (p : path) : exn :=
  mk_exn ValueError ("No pricing rows extracted from " ++ path_str p).

(** the body of [with pdfplumber.open(path) as pdf] *)
Definition parse_document (pdf : document) : result (option string * list record) :=
  let metadata := extract_metadata pdf in
  all_rows <- for_each process_page pdf [] ;;
  Ok (metadata, all_rows).

(** [parse_pdf]; [main] passes [str(pdf_path)], which [Path] reads back
    as the same path *)
Definition parse_pdf (w : world) (p : path) : result (dataframe * option string) :=
  if negb (exists_ w p) then
    Raise (mk_exn FileNotFoundError ("PDF not found: " ++ path_str p))
  else
    pdf <- open_pdf w p ;;
    mr <- parse_document pdf ;;
    let '(metadata, all_rows) := mr in
    match all_rows with
    | [] => Raise (extraction_empty p)
    | _ => Ok (all_rows, metadata)
    end.

(** [main]: the exit code and the host afterwards; [argv] is [sys.argv] *)
Definition main (argv : list string) (w : world) : nat * world :=
  match argv with
  | _ :: arg1 :: rest =>
      let pdf_path := Path arg1 in
      let output_dir := match rest with
                        | arg2 :: _ => Path arg2
                        | [] => parent pdf_path
                        end in
      match parse_pdf w pdf_path with
      | Raise e =>
          match exn_cls e with
          | FileNotFoundError | ValueError => (1, eprint w (LError e))
          | _ => (1, eprint w (LParseError e))
          end
      | Ok (df, quote_number) =>
          let out_path := joinpath output_dir (Original.out_name quote_number) in
          let w := save_csv w df out_path in
          let w := print w (LRows (List.length df)) in
          let w := print w (LQuoteNumber quote_number) in
          let w := print w (LSaved out_path) in
          (0, w)
      end
  | _ => (1, eprint w LUsage)
  end.

End Simplified.


(* ------------------------------------------------------------------ *)
(** ** Sample documents and specification-side definitions *)

Module Samples.
Import PyStr Re PyFloat Py.

(** a page that holds one table and the given text *)
Definition page_of (text : string) (t : table) : page :=
  mk_page (Ok (Some text)) (Ok [t]) (Ok (Some t)).

Definition text_cells (l : list string) : row := map CStr l.

(** a host with pdfplumber installed and one PDF at [quote.pdf] *)
Definition host (d : document) : world :=
  mk_world true [(Path "quote.pdf", PdfFile d)] [] [].

(** the series discount line of the end-to-end scenario, with nothing in
    the price column *)
Definition series_line : row :=
  text_cells [""; "281 Series Volume Discount 15%"; ""].

(** the same line when the price column holds some text *)
Definition series_line_priced : row :=
  text_cells [""; "281 Series Volume Discount 15%"; "-"].

(** a table of one data row, without a header *)
Definition one_row_table : table :=
  [text_cells ["750-500"; "8-Channel Module"; "125.00"]].

(** a five column table whose data row has both a price and a discount *)
Definition priced_and_discounted : table :=
  [text_cells ["Part Number"; "Series"; "Description"; "Price"; "Discount"];
   text_cells ["750-500"; "750"; "8-Channel Module"; "$10.00"; "5%"]].


(** a header in which two cells name the part column and two the price *)
Definition doubled_header : row :=
  text_cells ["Part No"; "Description"; "Price"; "Part Number"; "Unit Price"].

(** rows without a header in which columns 1 and 2 both hold prices *)
Definition tied_rows : list row :=
  [text_cells ["750-500"; "$5.00"; "$6.00"; "x"];
   text_cells ["750-501"; "$7.00"; "$8.00"; "y"]].

(** a priced quote of one page *)
Definition quote : document :=
  [page_of "Quotation #: Q-12345" priced_and_discounted].

(** another host with the same PDF, an unrelated file and earlier output *)
Definition busy_host (d : document) : world :=
  mk_world true
           [(Path "notes.txt", TextFile "call the customer");
            (Path "quote.pdf", PdfFile d)]
           [LRows 3] [LUsage].

(** a table without a header whose prices stand in column 1 *)
Definition headerless : table :=
  [text_cells ["750-500"; "$5.00"; "8-Channel Module"; "each"; "stock"];
   text_cells ["750-501"; "$7.00"; "16-Channel Module"; "each"; "stock"]].

End Samples.


(** Notions the properties below are stated with. *)

Module Spec.
Import PyStr Re PyFloat Py.

(** the effect of a run: exit code, files written, lines printed *)
Definition effect_of (run : world -> nat * world) (w : world)
           (code : nat) (files : list (path * file)) (out err : list line) : Prop :=
  run w = (code, mk_world (has_pdfplumber w) (files ++ fs w)
                          (stdout w ++ out) (stderr w ++ err)).

(** the column a dictionary of roles gives to a role *)
Definition lookup_role (ix : Original.indices) (r : Original.role) : option nat :=
  match r with
  | Original.RPart => Original.i_part ix
  | Original.RSeries => Original.i_series ix
  | Original.RDescription => Original.i_description ix
  | Original.RPrice => Original.i_price ix
  | Original.RDiscount => Original.i_discount ix
  end.

Definition role_eqb (a b : Original.role) : bool :=
  match a, b with
  | Original.RPart, Original.RPart
  | Original.RSeries, Original.RSeries
  | Original.RDescription, Original.RDescription
  | Original.RPrice, Original.RPrice
  | Original.RDiscount, Original.RDiscount => true
  | _, _ => false
  end.

(** does the lowered header cell [c] take the branch of role [r]? *)
Definition takes_role (joined : string) (r : Original.role) (c : string) : bool :=
  match Original.header_role joined c with
  | Some r' => role_eqb r' r
  | None => false
  end.

(** [i] is the last position of [l] whose element satisfies [p] *)
Definition is_last {A : Type} (p : A -> bool) (d : A) (l : list A) (i : nat) : Prop :=
  i < List.length l /\ p (nth i l d) = true /\
  forall j, i < j < List.length l -> p (nth j l d) = false.

(** [i] is the first position of [l] whose element satisfies [p] *)
Definition is_first {A : Type} (p : A -> bool) (d : A) (l : list A) (i : nat) : Prop :=
  i < List.length l /\ p (nth i l d) = true /\
  forall j, j < i -> p (nth j l d) = false.

(** the positional defaults at the end of [_infer_column_indices] *)
Definition positional_default (r : Original.role) (n : nat) : option nat :=
  match r with
  | Original.RPrice => if 4 <=? n then Some (n - 2) else None
  | Original.RDiscount => if 5 <=? n then Some (n - 1) else None
  | _ => None
  end.

(** the last position of [l] whose element satisfies [p], if any *)
Fixpoint last_index {A : Type} (p : A -> bool) (l : list A) : option nat :=
  match l with
  | [] => None
  | x :: l' =>
      match last_index p l' with
      | Some i => Some (S i)
      | None => if p x then Some 0 else None
      end
  end.

(** does the pattern [r] contain the capturing group [i]? *)
Fixpoint sets_group (r : regex) (i : nat) : bool :=
  match r with
  | Seq r1 r2 | Alt r1 r2 => sets_group r1 i || sets_group r2 i
  | Star _ r1 => sets_group r1 i
  | Group j r1 => Nat.eqb j i || sets_group r1 i
  | _ => false
  end.

(** groups that [r] does not contain are left as they were *)
Definition keeps (r : regex) (c c' : caps) : Prop :=
  forall i, sets_group r i = false -> group c' i = group c i.

(** every result of [step] is a result of its continuation *)
Definition passes (r : regex) (step : string -> caps -> cont -> option caps) : Prop :=
  forall s c k res,
    step s c k = Some res ->
    exists s' c', k s' c' = Some res /\ keeps r c c'.

(** the two shapes of a record of the original pipeline: a series
    discount line, or a priced product line *)
Definition original_record_shape (rc : record) : Prop :=
  (part_number rc = "" /\ price rc = "" /\ discount rc <> "") \/
  price rc <> "".

(** the two shapes of a record of the simplified pipeline *)
Definition simplified_record_shape (rc : record) : Prop :=
  (series rc = "" /\ discount rc = "" /\ price rc <> "") \/
  (part_number rc = "" /\ price rc = "" /\
   String.length (series rc) = 3 /\ discount rc <> "").

(** the test of the counting loop for the price role, on a cell whose
    price extraction returns *)
Definition price_like (c : cell) : bool :=
  match Original._extract_price_from_cell c with
  | Ok p => negb (Original.is_none p)
            || Original.searches Original.RE_PRICE (Original.cell_text c)
  | Raise _ => false
  end.

(** the test of the counting loop for the discount role *)
Definition discount_like (c : cell) : bool :=
  negb (Original.is_none (Original._extract_discount_from_cell c))
  || Original.searches Original.RE_DISCOUNT (Original.cell_text c).

(** price extraction returns on the cell: anything but an [int] too large
    for a float *)
Definition readable (c : cell) : Prop :=
  exists p, Original._extract_price_from_cell c = Ok p.

(** how many rows hold, at column [i], a cell that passes the test [f] *)
Definition column_count (f : cell -> bool) (rows : list row) (i : nat) : nat :=
  List.length (filter (fun r => (i <? List.length r) && f (nth i r CNone)) rows).

(** the widest row *)
Definition ncols (rows : list row) : nat :=
  Original.max_list (map (@List.length cell) rows).

(** [i] is the lowest of the positions below [n] with the largest key *)
Definition is_first_max (key : nat -> nat) (n i : nat) : Prop :=
  i < n /\ (forall j, j < n -> key j <= key i) /\ (forall j, j < i -> key j < key i).

(** the column a role is given from its counts: the first column with the
    largest count, or the fallback when nothing was counted *)
Definition chosen (count : nat -> nat) (n fallback i : nat) : Prop :=
  ((exists j, j < n /\ 0 < count j) -> is_first_max count n i) /\
  ((forall j, j < n -> count j = 0) -> i = fallback).

(** the counters after the cells [cs] of one row, the first at column [k] *)
Fixpoint add_counts (f : cell -> bool) (k : nat) (cs : list cell) (l : list nat) : list nat :=
  match cs with
  | [] => l
  | c :: cs' => add_counts f (S k) cs' (if f c then Original.incr_at k l else l)
  end.

(** the counters after all the rows *)
Fixpoint add_rows (f : cell -> bool) (rows : list row) (l : list nat) : list nat :=
  match rows with
  | [] => l
  | r :: rows' => add_rows f rows' (add_counts f 0 r l)
  end.

(** the characters of the digits of a price: digits and commas *)
Definition is_body_char (c : ascii) : bool := is_digit c || Ascii.eqb c ",".

(** digits with optional commas between them, the first a digit *)
Definition price_body (b : string) : bool :=
  match b with
  | String c _ => is_digit c && forallb_chars is_body_char b
  | EmptyString => false
  end.

(** an optional decimal part of two digits *)
Definition cents_ok (cents : option (ascii * ascii)) : bool :=
  match cents with
  | Some (a, b) => is_digit a && is_digit b
  | None => true
  end.

Definition cents_text (cents : option (ascii * ascii)) : string :=
  match cents with
  | Some (a, b) => String "." (String a (String b ""))
  | None => ""
  end.

(** the price texts of the claim: an optional dollar sign, optional
    white space, the digits, an optional two digit decimal part *)
Definition price_text (dollar : bool) (ws body : string)
           (cents : option (ascii * ascii)) : string :=
  (if dollar then "$" else "") ++ ws ++ body ++ cents_text cents.

(** the integer part of the price *)
Definition int_value (body : string) : Z := digits_val (filter_chars is_digit body).

Definition cents_value (cents : option (ascii * ascii)) : Z :=
  match cents with
  | Some (a, b) => (10 * digit_val a + digit_val b)%Z
  | None => 0%Z
  end.

(** the price in hundredths *)
Definition price_value (body : string) (cents : option (ascii * ascii)) : Z :=
  (100 * int_value body + cents_value cents)%Z.

(** a number of hundredths with exactly two decimal places and no
    thousands separators, as the specification words it *)
Definition format_plain_hundredths (h : Z) : string :=
  str_of_nonneg (h / 100) ++ "." ++ two_digits (h mod 100).

(** the number of rows of a list of tables *)
Definition total_rows (ts : list table) : nat :=
  list_sum (map (@List.length row) ts).

(** the rows of the tables that the pages report to the simplified parser;
    a page whose call raises counts for nothing *)
Definition page_rows (p : page) : nat :=
  match extract_table p with
  | Ok (Some t) => List.length t
  | _ => 0
  end.

(** a character that is no white space *)
Definition not_space (c : ascii) : bool := negb (is_space c).

(** a word: not empty and free of white space *)
Definition is_word (w : string) : Prop :=
  w <> "" /\ forallb_chars not_space w = true.

(** the pattern [r] reads only characters of the class [p]: it is made of
    classes within [p], sequences, alternatives and repetitions *)
Fixpoint class_only (p : ascii -> bool) (r : regex) : Prop :=
  match r with
  | Eps => True
  | Cls q => forall c, q c = true -> p c = true
  | Seq r1 r2 | Alt r1 r2 => class_only p r1 /\ class_only p r2
  | Star _ r1 => class_only p r1
  | _ => False
  end.

(** whatever [step] returns, it has read a run of characters of [p] and
    then called its continuation, with the groups it was given *)
Definition reads_run (p : ascii -> bool)
           (step : string -> caps -> cont -> option caps) : Prop :=
  forall s c k res,
    step s c k = Some res ->
    exists xs rest, s = xs ++ rest /\ forallb_chars p xs = true /\ k rest c = Some res.

(** a run of one or more digits *)
Definition is_digits1 (ds : string) : bool :=
  negb (is_empty ds) && forallb_chars is_digit ds.

(** nothing, or a point and one or more digits *)
Definition is_fraction (frac : string) : bool :=
  match frac with
  | EmptyString => true
  | String c fs => Ascii.eqb "." c && is_digits1 fs
  end.

(** the characters of a quote number: [[A-Z0-9\-]] under [re.I] *)
Definition is_quote_char (c : ascii) : bool :=
  is_alpha c || is_digit c || Ascii.eqb c "-".

(** what the quote number of a document looks like *)
Definition quote_number_ok (q : string) : Prop :=
  q <> "" /\ forallb_chars is_quote_char q = true /\
  Original.out_name (Some q) = "quote_" ++ q ++ "_parsed.csv".

(** a page without text and without tables *)
Definition blank_page : page := mk_page (Ok None) (Ok []) (Ok None).

(** a document of twelve pages with one table, on page 1 *)
Definition twelve_pages : document :=
  blank_page
    :: Samples.page_of "" [Samples.text_cells ["Part"; "Price"];
                           Samples.text_cells ["2002-1201"; "$1.00"]]
    :: repeat blank_page 10.

(** the same document with a second table, on page 9 *)
Definition twelve_pages_more : document :=
  blank_page
    :: Samples.page_of "" [Samples.text_cells ["Part"; "Price"];
                           Samples.text_cells ["2002-1201"; "$1.00"]]
    :: (repeat blank_page 7
        ++ [Samples.page_of "" [Samples.text_cells ["Part"; "Price"];
                                Samples.text_cells ["221-412"; "$9.00"]];
            blank_page; blank_page])%list.

(** a character that is no white space other than the blank *)
Definition is_plain (c : ascii) : bool := not_space c || Ascii.eqb c " ".

(** a text without line breaks and tabs *)
Definition plain (s : string) : bool := forallb_chars is_plain s.

Definition plain_record (r : record) : Prop :=
  plain (part_number r) = true /\ plain (series r) = true /\
  plain (description r) = true /\ plain (price r) = true /\
  plain (discount r) = true.

(** the number of occurrences of a character *)
Fixpoint count_char (x : ascii) (s : string) : nat :=
  match s with
  | EmptyString => 0
  | String c s' => (if Ascii.eqb x c then 1 else 0) + count_char x s'
  end.

(** the characters of a price or of a number, as the formats write them *)
Definition is_number_char (c : ascii) : bool :=
  is_digit c || is_lower c ||
  Ascii.eqb c "," || Ascii.eqb c "." || Ascii.eqb c "-" || Ascii.eqb c "+" ||
  Ascii.eqb c "$" || Ascii.eqb c "%".

(** the page with an error of [extract_tables] replaced by no tables *)
Definition calm (p : page) : page :=
  match extract_tables p with
  | Raise _ => mk_page (extract_text p) (Ok []) (extract_table p)
  | Ok _ => p
  end.

(** a page on which [extract_table] raises *)
Definition bad_page : page :=
  mk_page (Ok None) (Ok []) (Raise (mk_exn OtherError "bad page")).

(** the priced quote followed by such a page *)
Definition quote_with_bad_page : document := (Samples.quote ++ [bad_page])%list.


(** a record of the simplified parser: part number and description hold
    no line feed, and a price starts with the dollar sign *)
Definition simplified_record_text (rc : record) : Prop :=
  count_char "010" (part_number rc) = 0 /\
  count_char "010" (description rc) = 0 /\
  (price rc = "" \/ startswith "$" (price rc) = true).






(** text of 7-bit characters, the texts on which the string functions
    and patterns of this file are those of the source *)
Definition is_ascii (s : string) : bool :=
  forallb_chars (fun c => code c <? 128) s.


(** the text with its commas and dollar signs deleted, stripped *)
Definition bare_text (s : string) : string :=
  strip (replace "$" "" (replace "," "" (strip s))).



(** the rows that the loop of the original parser reads: those of the
    tables of two rows or more, in the order of the document *)
Definition scanned_rows (ts : list table) : list row :=
  concat (filter (fun t => negb (List.length t <? 2)) ts).

(** [ls] lists, row by row and in the order of [rows], the records that
    each row gives when it is read with the roles left by the rows
    before it: none or one.  [o] are the roles before the rows, the last
    argument the roles after them. *)
Inductive row_outputs :
  option Original.indices -> list row -> list (list record)
  -> option Original.indices -> Prop :=
| outputs_nil (o : option Original.indices) : row_outputs o [] [] o
| outputs_cons (o o1 o2 : option Original.indices) (r : row) (l : list record)
               (rows : list row) (ls : list (list record)) :
    Original.process_row (o, []) r = Ok (o1, l) ->
    List.length l <= 1 ->
    row_outputs o1 rows ls o2 ->
    row_outputs o (r :: rows) (l :: ls) o2.

(** the rows that the simplified parser reads on a page *)
Definition page_scanned_rows (p : page) : list row :=
  match extract_table p with
  | Ok (Some t) => skipn (if Simplified.has_header t then 1 else 0) t
  | _ => []
  end.

(** the text is empty or starts with white space *)
Definition starts_blank (s : string) : bool :=
  match s with
  | EmptyString => true
  | String c _ => is_space c
  end.

(** [s] is made of the words [ws], in this order: each word a longest
    run of characters that are no white space, with white space between
    the words and possibly before the first and after the last *)
Inductive spaced_words : string -> list string -> Prop :=
| spaced_end (sp : string) :
    forallb_chars is_space sp = true -> spaced_words sp []
| spaced_word (sp w rest : string) (ws : list string) :
    forallb_chars is_space sp = true ->
    is_word w ->
    starts_blank rest = true ->
    spaced_words rest ws ->
    spaced_words (sp ++ w ++ rest) (w :: ws).

(** the text with each line feed turned into a semicolon and a blank *)
Fixpoint line_feeds_marked (s : string) : string :=
  match s with
  | EmptyString => EmptyString
  | String c s' =>
      if Ascii.eqb c "010" then String ";" (String " " (line_feeds_marked s'))
      else String c (line_feeds_marked s')
  end.

(** every page text of the document is ASCII text *)
Definition ascii_pages (pdf : document) : Prop :=
  forall (p : page) (t : string),
    In p pdf -> extract_text p = Ok (Some t) -> is_ascii t = true.

(** a whole number that [str] prints: interpreters that limit the
    conversion of an [int] to text refuse more than 4300 digits *)
Definition printable_int (c : cell) : bool :=
  match c with
  | CInt z => (Z.abs z <? 10 ^ 4300)%Z
  | _ => true
  end.

(** every whole number in the tables of the document is printed by [str] *)
Definition printable_ints (pdf : document) : Prop :=
  forall (p : page) (ts : list table) (t : table) (r : row) (c : cell),
    In p pdf -> extract_tables p = Ok ts -> In t ts -> In r t -> In c r ->
    printable_int c = true.

(** a table whose price cell holds a whole number of 401 digits *)
Definition huge_price : table :=
  [Samples.text_cells ["Part Number"; "Series"; "Description"; "Price"; "Discount"];
   [CStr "750-500"; CStr "750"; CStr "8-Channel Module"; CInt (10 ^ 400); CStr ""]].

End Spec.


(* ------------------------------------------------------------------ *)
(** ** Properties *)

Import PyStr Re PyFloat Py Spec.

(** *** The command line entry points *)

Lemma main_original_cases (argv : list string) (w : world) :
  (fst (Original.main argv w) = 1 /\
   fs (snd (Original.main argv w)) = fs w /\
   stdout (snd (Original.main argv w)) = stdout w /\
   (List.length argv < 2 \/
    exists a0 a1 rest e, argv = a0 :: a1 :: rest /\ Original.parse_pdf w (Path a1) = Raise e))
  \/
  (fst (Original.main argv w) = 0 /\
   exists a0 a1 rest df meta,
     argv = a0 :: a1 :: rest /\
     Original.parse_pdf w (Path a1) = Ok (df, meta) /\
     fs (snd (Original.main argv w)) =
       (joinpath (match rest with a2 :: _ => Path a2 | [] => parent (Path a1) end)
                 (Original.out_name (Original.quote_number meta)),
        TextFile (to_csv df)) :: fs w).
Proof.
  destruct argv as [|a0 [|a1 rest]]; simpl.
  - left. repeat split; auto.
  - left. repeat split; auto.
  - destruct (Original.parse_pdf w (Path a1)) as [[df meta]|e] eqn:E.
    + right. split; [reflexivity|].
      exists a0, a1, rest, df, meta. repeat split; solve [reflexivity | exact E].
    + left.
      destruct (exn_cls e);
        (split; [reflexivity | split; [reflexivity | split; [reflexivity |]]]);
        right; exists a0, a1, rest, e; split; solve [reflexivity | exact E].
Qed.

Lemma main_simplified_cases (argv : list string) (w : world) :
  (fst (Simplified.main argv w) = 1 /\
   fs (snd (Simplified.main argv w)) = fs w /\
   stdout (snd (Simplified.main argv w)) = stdout w /\
   (List.length argv < 2 \/
    exists a0 a1 rest e, argv = a0 :: a1 :: rest /\ Simplified.parse_pdf w (Path a1) = Raise e))
  \/
  (fst (Simplified.main argv w) = 0 /\
   exists a0 a1 rest df q,
     argv = a0 :: a1 :: rest /\
     Simplified.parse_pdf w (Path a1) = Ok (df, q) /\
     fs (snd (Simplified.main argv w)) =
       (joinpath (match rest with a2 :: _ => Path a2 | [] => parent (Path a1) end)
                 (Original.out_name q),
        TextFile (to_csv df)) :: fs w).
Proof.
  destruct argv as [|a0 [|a1 rest]]; simpl.
  - left. repeat split; auto.
  - left. repeat split; auto.
  - destruct (Simplified.parse_pdf w (Path a1)) as [[df q]|e] eqn:E.
    + right. split; [reflexivity|].
      exists a0, a1, rest, df, q. repeat split; solve [reflexivity | exact E].
    + left.
      destruct (exn_cls e);
        (split; [reflexivity | split; [reflexivity | split; [reflexivity |]]]);
        right; exists a0, a1, rest, e; split; solve [reflexivity | exact E].
Qed.

(** C10: a run of either entry point that exits with code 1 leaves the
    file system as it was (no CSV is created or written) and prints
    nothing on standard output; whenever the file system did change,
    [parse_pdf] had returned a data frame, and the file written holds the
    CSV rendering of that data frame. *)
Theorem exit_1_writes_no_csv (argv : list string) (w : world) :
  (fst (Original.main argv w) = 1 ->
   fs (snd (Original.main argv w)) = fs w /\
   stdout (snd (Original.main argv w)) = stdout w) /\
  (fst (Simplified.main argv w) = 1 ->
   fs (snd (Simplified.main argv w)) = fs w /\
   stdout (snd (Simplified.main argv w)) = stdout w) /\
  (fs (snd (Original.main argv w)) <> fs w ->
   exists a0 a1 rest df meta out,
     argv = a0 :: a1 :: rest /\
     Original.parse_pdf w (Path a1) = Ok (df, meta) /\
     fs (snd (Original.main argv w)) = (out, TextFile (to_csv df)) :: fs w) /\
  (fs (snd (Simplified.main argv w)) <> fs w ->
   exists a0 a1 rest df q out,
     argv = a0 :: a1 :: rest /\
     Simplified.parse_pdf w (Path a1) = Ok (df, q) /\
     fs (snd (Simplified.main argv w)) = (out, TextFile (to_csv df)) :: fs w).
Proof.
  split; [|split; [|split]].
  - intros H.
    destruct (main_original_cases argv w) as [(_ & Hf & Hs & _) | (Ho & _)];
      [auto | congruence].
  - intros H.
    destruct (main_simplified_cases argv w) as [(_ & Hf & Hs & _) | (Ho & _)];
      [auto | congruence].
  - intros H.
    destruct (main_original_cases argv w)
      as [(_ & Hf & _) | (_ & a0 & a1 & rest & df & meta & Ha & Hp & Hf)];
      [congruence |].
    exists a0, a1, rest, df, meta. eexists. repeat split; eassumption.
  - intros H.
    destruct (main_simplified_cases argv w)
      as [(_ & Hf & _) | (_ & a0 & a1 & rest & df & q & Ha & Hp & Hf)];
      [congruence |].
    exists a0, a1, rest, df, q. eexists. repeat split; eassumption.
Qed.

Lemma exit_1_writes_no_csv_witness :
  fst (Original.main ["prog"; "missing.pdf"] (Samples.host [])) = 1 /\
  fs (snd (Original.main ["prog"; "missing.pdf"] (Samples.host []))) = fs (Samples.host []) /\
  stdout (snd (Original.main ["prog"; "missing.pdf"] (Samples.host []))) = stdout (Samples.host []).
Proof.
  split; [reflexivity |].
  apply (proj1 (exit_1_writes_no_csv ["prog"; "missing.pdf"] (Samples.host []))).
  reflexivity.
Defined.

(** *** Zero records *)

(** C7: when a document yields zero records, [parse_pdf] of either
    version raises the extraction-empty [ValueError], the entry point
    exits with code 1 after printing that error, and the file system is
    left untouched: no CSV, in particular no empty CSV, is written. *)
Theorem zero_records_raise_extraction_empty
        (w : world) (a0 a1 : string) (rest : list string) (pdf : document) :
  lookup (Path a1) (fs w) = Some (PdfFile pdf) ->
  (forall meta,
     has_pdfplumber w = true ->
     lower (suffix (Path a1)) = ".pdf" ->
     Original.parse_document pdf = Ok (meta, []) ->
     Original.parse_pdf w (Path a1) = Raise (Original.extraction_empty (Path a1)) /\
     exn_cls (Original.extraction_empty (Path a1)) = ValueError /\
     Original.main (a0 :: a1 :: rest) w
       = (1, eprint w (LError (Original.extraction_empty (Path a1)))) /\
     fs (snd (Original.main (a0 :: a1 :: rest) w)) = fs w) /\
  (forall q,
     Simplified.parse_document pdf = Ok (q, []) ->
     Simplified.parse_pdf w (Path a1) = Raise (Simplified.extraction_empty (Path a1)) /\
     exn_cls (Simplified.extraction_empty (Path a1)) = ValueError /\
     Simplified.main (a0 :: a1 :: rest) w
       = (1, eprint w (LError (Simplified.extraction_empty (Path a1)))) /\
     fs (snd (Simplified.main (a0 :: a1 :: rest) w)) = fs w).
Proof.
  intros Hl. split.
  - intros meta Hp Hs Hd.
    assert (E : Original.parse_pdf w (Path a1) = Raise (Original.extraction_empty (Path a1))).
    { unfold Original.parse_pdf, exists_, open_pdf.
      rewrite Hl, Hs, Hp. simpl. rewrite Hd. reflexivity. }
    repeat split; try exact E; unfold Original.main; rewrite E; reflexivity.
  - intros q Hd.
    assert (E : Simplified.parse_pdf w (Path a1) = Raise (Simplified.extraction_empty (Path a1))).
    { unfold Simplified.parse_pdf, exists_, open_pdf.
      rewrite Hl. simpl. rewrite Hd. reflexivity. }
    repeat split; try exact E; unfold Simplified.main; rewrite E; reflexivity.
Qed.

Lemma zero_records_raise_extraction_empty_witness :
  Original.parse_pdf (Samples.host [Samples.page_of "" [Samples.series_line]]) (Path "quote.pdf")
    = Raise (Original.extraction_empty (Path "quote.pdf")) /\
  Simplified.parse_pdf (Samples.host [Samples.page_of "" [Samples.series_line]]) (Path "quote.pdf")
    = Raise (Simplified.extraction_empty (Path "quote.pdf")).
Proof.
  pose proof (zero_records_raise_extraction_empty
                (Samples.host [Samples.page_of "" [Samples.series_line]])
                "prog" "quote.pdf" [] [Samples.page_of "" [Samples.series_line]] eq_refl)
    as [Ho Hs].
  split.
  - apply (Ho (Original.mk_metadata None None None None)); reflexivity.
  - apply (Hs None); reflexivity.
Defined.

(** *** Loops *)

Lemma for_each_app {S A : Type} (body : S -> A -> result S) (l1 l2 : list A) (st : S) :
  for_each body (l1 ++ l2) st = bind (for_each body l1 st) (for_each body l2).
Proof.
  revert st. induction l1 as [|a l1 IH]; intros st; simpl.
  - reflexivity.
  - destruct (body st a) as [st'|e]; simpl; [apply IH | reflexivity].
Qed.

(** an invariant of the loop state is kept by a loop whose body keeps it *)
Lemma for_each_invariant {S A : Type} (P : S -> Prop) (body : S -> A -> result S) :
  (forall st a st', P st -> body st a = Ok st' -> P st') ->
  forall l st st', P st -> for_each body l st = Ok st' -> P st'.
Proof.
  intros Hb. induction l as [|a l IH]; intros st st' HP H; simpl in H.
  - inversion H; subst; assumption.
  - destruct (body st a) as [st1|e] eqn:E; simpl in H; [|discriminate].
    eapply IH; [eapply Hb; eassumption | eassumption].
Qed.

(** *** Short tables *)

(** C9, as the code has it: the original pipeline skips every table of
    fewer than two rows, leaving both the column roles and the records as
    they were, so that the run goes on as if the table were absent; the
    simplified pipeline skips only an empty table. *)
Theorem short_table_skipped
        (t : table) (ts1 ts2 : list table) (st : Original.state) :
  List.length t < 2 ->
  Original.process_table st t = Ok st /\
  for_each Original.process_table (ts1 ++ t :: ts2) st
    = for_each Original.process_table (ts1 ++ ts2) st /\
  (forall acc tx tbs, Simplified.process_page acc (mk_page tx tbs (Ok (Some []))) = Ok acc) /\
  (forall acc tx tbs, Simplified.process_page acc (mk_page tx tbs (Ok None)) = Ok acc).
Proof.
  intros Hlen.
  assert (E : Original.process_table st t = Ok st).
  { unfold Original.process_table.
    destruct (Nat.ltb_spec (List.length t) 2); [reflexivity | lia]. }
  split; [exact E |]. split; [| split; reflexivity].
  rewrite !for_each_app.
  destruct (for_each Original.process_table ts1 st) as [st1|e]; simpl; [| reflexivity].
  unfold Original.process_table at 1.
  destruct (Nat.ltb_spec (List.length t) 2); [reflexivity | lia].
Qed.

Lemma short_table_skipped_witness :
  for_each Original.process_table
           ([Samples.priced_and_discounted] ++ Samples.one_row_table :: []) (None, [])
  = for_each Original.process_table ([Samples.priced_and_discounted] ++ []) (None, []).
Proof.
  apply (short_table_skipped Samples.one_row_table [Samples.priced_and_discounted] []
                             (None, [])).
  simpl. lia.
Defined.

(** C9 as stated fails for the simplified parser: a table of one row is
    processed, and its row becomes a record. *)
Lemma simplified_one_row_table_contributes :
  List.length Samples.one_row_table < 2 /\
  Simplified.parse_document [Samples.page_of "" Samples.one_row_table]
    = Ok (None, [mk_record "750-500" "" "8-Channel Module" "$125.00" ""]).
Proof.
  split; [simpl; lia | reflexivity].
Qed.

(** *** Series discount lines in the simplified parser *)

(** C1, at the failing input: the description [281 Series Volume
    Discount 15%] with an empty price cell is dropped before the series
    pattern is tried, so the document yields no record and [parse_pdf]
    raises; with any text in the price cell the same description gives
    the series-discount record of the scenario. *)
Theorem simplified_unpriced_series_line_dropped :
  Simplified.process_row [] Samples.series_line = Ok [] /\
  Simplified.parse_pdf (Samples.host [Samples.page_of "" [Samples.series_line]])
                       (Path "quote.pdf")
    = Raise (Simplified.extraction_empty (Path "quote.pdf")) /\
  Simplified.process_row [] Samples.series_line_priced
    = Ok [mk_record "" "281" "Volume" "" "15%"].
Proof.
  repeat split; vm_compute; reflexivity.
Qed.

(** *** Determinism *)

Lemma original_parse_pdf_ext (w1 w2 : world) (p : path) :
  has_pdfplumber w1 = has_pdfplumber w2 ->
  lookup p (fs w1) = lookup p (fs w2) ->
  Original.parse_pdf w1 p = Original.parse_pdf w2 p.
Proof.
  intros Hp Hl. unfold Original.parse_pdf, exists_, open_pdf.
  rewrite Hp, Hl. reflexivity.
Qed.

Lemma simplified_parse_pdf_ext (w1 w2 : world) (p : path) :
  lookup p (fs w1) = lookup p (fs w2) ->
  Simplified.parse_pdf w1 p = Simplified.parse_pdf w2 p.
Proof.
  intros Hl. unfold Simplified.parse_pdf, exists_, open_pdf.
  rewrite Hl. reflexivity.
Qed.

(** C8: the outcome of a run is a function of the arguments and of the
    PDF alone.  Two runs of an entry point on hosts that hold the same
    file at the input path (and agree on whether pdfplumber is installed)
    exit with the same code, write the same CSV bytes to the same output
    path, and print the same lines, whatever else the hosts hold. *)
Theorem same_pdf_same_csv (a0 a1 : string) (rest : list string) (w1 w2 : world) :
  has_pdfplumber w1 = has_pdfplumber w2 ->
  lookup (Path a1) (fs w1) = lookup (Path a1) (fs w2) ->
  (exists code files out err,
     effect_of (Original.main (a0 :: a1 :: rest)) w1 code files out err /\
     effect_of (Original.main (a0 :: a1 :: rest)) w2 code files out err) /\
  (exists code files out err,
     effect_of (Simplified.main (a0 :: a1 :: rest)) w1 code files out err /\
     effect_of (Simplified.main (a0 :: a1 :: rest)) w2 code files out err).
Proof.
  intros Hp Hl. unfold effect_of. split.
  - unfold Original.main.
    rewrite (original_parse_pdf_ext w1 w2 _ Hp Hl).
    destruct (Original.parse_pdf w2 (Path a1)) as [[df meta]|e].
    + eexists 0, [_], [_; _; _], [].
      unfold print, save_csv, write_file; simpl.
      rewrite !app_nil_r, <- !app_assoc. split; reflexivity.
    + destruct (exn_cls e); eexists 1, [], [], [_];
        unfold eprint; simpl; rewrite !app_nil_r; split; reflexivity.
  - unfold Simplified.main.
    rewrite (simplified_parse_pdf_ext w1 w2 _ Hl).
    destruct (Simplified.parse_pdf w2 (Path a1)) as [[df q]|e].
    + eexists 0, [_], [_; _; _], [].
      unfold print, save_csv, write_file; simpl.
      rewrite !app_nil_r, <- !app_assoc. split; reflexivity.
    + destruct (exn_cls e); eexists 1, [], [], [_];
        unfold eprint; simpl; rewrite !app_nil_r; split; reflexivity.
Qed.

Lemma same_pdf_same_csv_witness :
  (exists code files out err,
     effect_of (Original.main ["prog"; "quote.pdf"]) (Samples.host Samples.quote)
               code files out err /\
     effect_of (Original.main ["prog"; "quote.pdf"]) (Samples.busy_host Samples.quote)
               code files out err) /\
  (exists code files out err,
     effect_of (Simplified.main ["prog"; "quote.pdf"]) (Samples.host Samples.quote)
               code files out err /\
     effect_of (Simplified.main ["prog"; "quote.pdf"]) (Samples.busy_host Samples.quote)
               code files out err).
Proof.
  apply (same_pdf_same_csv "prog" "quote.pdf" []
                           (Samples.host Samples.quote) (Samples.busy_host Samples.quote));
    reflexivity.
Defined.

(** *** Header driven column roles *)

Lemma last_index_none {A : Type} (p : A -> bool) (d : A) (l : list A) :
  last_index p l = None <-> forall j, j < List.length l -> p (nth j l d) = false.
Proof.
  induction l as [|x l IH]; simpl.
  - split; [intros _ j Hj; lia | reflexivity].
  - destruct (last_index p l) as [k|].
    + split; [discriminate |].
      intros H. assert (K : Some k = None) by (apply IH; intros j Hj; apply (H (S j)); lia).
      discriminate.
    + destruct (p x) eqn:Ex.
      * split; [discriminate |]. intros H. specialize (H 0). simpl in H.
        rewrite Ex in H. assert (true = false) by (apply H; lia). discriminate.
      * split; [| reflexivity]. intros _ j Hj.
        destruct j as [|j]; [exact Ex |]. apply (proj1 IH eq_refl). lia.
Qed.

Lemma last_index_some {A : Type} (p : A -> bool) (d : A) (l : list A) (i : nat) :
  last_index p l = Some i <-> is_last p d l i.
Proof.
  unfold is_last. revert i. induction l as [|x l IH]; intros i; simpl.
  - split; [discriminate | intros [H _]; lia].
  - destruct (last_index p l) as [k|] eqn:E.
    + destruct (proj1 (IH k) eq_refl) as (K1 & K2 & K3).
      split.
      * intros H. inversion H; subst.
        repeat split; [lia | assumption |].
        intros j Hj. destruct j as [|j]; [lia |]. apply K3. lia.
      * intros (H1 & H2 & H3). destruct i as [|i].
        -- specialize (H3 (S k)). simpl in H3. rewrite H3 in K2; [discriminate | lia].
        -- assert (K : Some k = Some i).
           { apply IH. repeat split; [lia | assumption |].
             intros j Hj. apply (H3 (S j)). lia. }
           inversion K; reflexivity.
    + pose proof (proj1 (last_index_none p d l) E) as N.
      destruct (p x) eqn:Ex.
      * split.
        -- intros H. inversion H; subst. repeat split; [lia | assumption |].
           intros j Hj. destruct j as [|j]; [lia |]. apply N. lia.
        -- intros (H1 & H2 & H3). destruct i as [|i]; [reflexivity |].
           rewrite N in H2; [discriminate | lia].
      * split; [discriminate |].
        intros (H1 & H2 & H3). destruct i as [|i]; [congruence |].
        rewrite N in H2; [discriminate | lia].
Qed.

Lemma lookup_assign (ix : Original.indices) (r' r : Original.role) (i : nat) :
  lookup_role (Original.assign ix r' i) r
  = if role_eqb r' r then Some i else lookup_role ix r.
Proof.
  destruct r', r; reflexivity.
Qed.

Lemma header_fold_role (joined : string) (r : Original.role) (l : list string) :
  forall (k : nat) (ix : Original.indices),
    lookup_role (fold_left (Original.header_step joined)
                           (combine (seq k (List.length l)) l) ix) r
    = match last_index (takes_role joined r) l with
      | Some i => Some (k + i)
      | None => lookup_role ix r
      end.
Proof.
  induction l as [|c l IH]; intros k ix; simpl.
  - reflexivity.
  - rewrite IH. destruct (last_index (takes_role joined r) l) as [i|].
    + f_equal. lia.
    + unfold Original.header_step, takes_role. simpl.
      destruct (Original.header_role joined c) as [r'|].
      * rewrite lookup_assign. destruct (role_eqb r' r); [f_equal; lia | reflexivity].
      * reflexivity.
Qed.

Lemma header_scan_role (h : list string) (r : Original.role) :
  lookup_role (Original.header_scan h) r
  = last_index (takes_role (join " " h) r) h.
Proof.
  unfold Original.header_scan, Original.enumerate.
  rewrite header_fold_role.
  destruct (last_index (takes_role (join " " h) r) h); [reflexivity |].
  destruct r; reflexivity.
Qed.

(** C5, as the code has it: for each role the scan of the header row
    keeps the last cell that takes the role's branch, so a later matching
    cell does override an earlier one; the result of
    [_infer_column_indices] is that column, or the positional default of
    the role when no cell matches. *)
Theorem header_last_match_wins (header_row : row) (r : Original.role) :
  let h := Original.header_cells header_row in
  (forall i, lookup_role (Original.header_scan h) r = Some i
             <-> is_last (takes_role (join " " h) r) "" h i) /\
  (lookup_role (Original.header_scan h) r = None
   <-> forall j, j < List.length h -> takes_role (join " " h) r (nth j h "") = false) /\
  lookup_role (Original._infer_column_indices header_row) r
  = match lookup_role (Original.header_scan h) r with
    | Some i => Some i
    | None => positional_default r (List.length h)
    end.
Proof.
  intros h. split; [| split].
  - intros i. rewrite header_scan_role. apply last_index_some.
  - rewrite header_scan_role. apply last_index_none.
  - unfold Original._infer_column_indices. fold h.
    destruct (Original.header_scan h) as [ip is_ id ipr idi].
    unfold positional_default.
    destruct (4 <=? List.length h); destruct (5 <=? List.length h);
      destruct r, ip, is_, id, ipr, idi; reflexivity.
Qed.

(** C5 as stated fails: in a header with two part cells and two price
    cells the first matching cells are at columns 0 and 2, yet the roles
    go to columns 3 and 4. *)
Lemma header_first_match_overridden :
  let h := Original.header_cells Samples.doubled_header in
  is_first (takes_role (join " " h) Original.RPart) "" h 0 /\
  is_first (takes_role (join " " h) Original.RPrice) "" h 2 /\
  Original.i_part (Original._infer_column_indices Samples.doubled_header) = Some 3 /\
  Original.i_price (Original._infer_column_indices Samples.doubled_header) = Some 4.
Proof.
  unfold is_first. cbv zeta. repeat split.
  all: try (vm_compute; reflexivity).
  all: try (vm_compute; lia).
  intros j Hj. destruct j as [|[|j]]; [reflexivity | reflexivity | lia].
Qed.

(** *** The matcher: every result goes through the continuation *)

Lemma group_set_group_same (i : nat) (v : string) (c : caps) :
  group (set_group i v c) i = Some v.
Proof.
  unfold set_group. simpl. rewrite Nat.eqb_refl. reflexivity.
Qed.

Lemma group_filter_other (i j : nat) (c : caps) :
  i <> j ->
  group (filter (fun e => negb (Nat.eqb (fst e) i)) c) j = group c j.
Proof.
  intros Hij. induction c as [|[k v] c IH]; simpl; [reflexivity |].
  destruct (Nat.eqb_spec k i) as [->|Hk]; simpl.
  - destruct (Nat.eqb_spec i j); [contradiction | exact IH].
  - destruct (Nat.eqb k j); [reflexivity | exact IH].
Qed.

Lemma group_set_group_other (i j : nat) (v : string) (c : caps) :
  i <> j -> group (set_group i v c) j = group c j.
Proof.
  intros Hij. unfold set_group. simpl.
  destruct (Nat.eqb_spec i j); [contradiction |].
  apply group_filter_other; assumption.
Qed.

Lemma star_loop_passes (g : bool) (r : regex) (step : string -> caps -> cont -> option caps) :
  passes r step ->
  forall fuel, passes r (star_loop g step fuel).
Proof.
  intros Hstep. induction fuel as [|fuel IH]; intros s c k res H; simpl in H.
  - exists s, c. split; [assumption | intros i _; reflexivity].
  - assert (Again :
              step s c (fun s' c' =>
                          if String.length s' <? String.length s
                          then star_loop g step fuel s' c' k else None) = Some res ->
              exists s' c', k s' c' = Some res /\ keeps r c c').
    { intros Ha. apply Hstep in Ha as (s1 & c1 & Hk & Hkeep).
      destruct (String.length s1 <? String.length s); [| discriminate].
      apply IH in Hk as (s2 & c2 & Hk2 & Hkeep2).
      exists s2, c2. split; [assumption |].
      intros i Hi. rewrite Hkeep2, Hkeep; auto. }
    assert (Stop : k s c = Some res -> exists s' c', k s' c' = Some res /\ keeps r c c').
    { intros Hk. exists s, c. split; [assumption | intros i _; reflexivity]. }
    destruct g.
    + destruct (step s c _) as [res'|] eqn:E.
      * inversion H; subst. apply Again. reflexivity.
      * apply Stop. assumption.
    + destruct (k s c) as [res'|] eqn:E.
      * inversion H; subst. apply Stop. reflexivity.
      * apply Again. assumption.
Qed.

Lemma rmatch_passes (total : nat) (r : regex) : passes r (rmatch total r).
Proof.
  induction r as [| p | r1 IH1 r2 IH2 | r1 IH1 r2 IH2 | g r1 IH1 | i r1 IH1 | |];
    intros s c k res H; cbn [rmatch] in H.
  - exists s, c. split; [assumption | intros i _; reflexivity].
  - destruct s as [|a s]; [discriminate |].
    destruct (p a); [| discriminate].
    exists s, c. split; [assumption | intros i _; reflexivity].
  - apply IH1 in H as (s1 & c1 & H & K1).
    apply IH2 in H as (s2 & c2 & H & K2).
    exists s2, c2. split; [assumption |].
    intros i Hi. simpl in Hi. apply orb_false_iff in Hi as [Hi1 Hi2].
    rewrite K2, K1; auto.
  - destruct (rmatch total r1 s c k) as [res'|] eqn:E.
    + inversion H; subst. apply IH1 in E as (s1 & c1 & E & K1).
      exists s1, c1. split; [assumption |].
      intros i Hi. simpl in Hi. apply orb_false_iff in Hi as [Hi1 Hi2]. auto.
    + apply IH2 in H as (s1 & c1 & H & K2).
      exists s1, c1. split; [assumption |].
      intros i Hi. simpl in Hi. apply orb_false_iff in Hi as [Hi1 Hi2]. auto.
  - apply (star_loop_passes g r1 _ IH1) in H as (s1 & c1 & H & K1).
    exists s1, c1. split; [assumption | exact K1].
  - apply IH1 in H as (s1 & c1 & H & K1).
    exists s1, (set_group i (consumed s s1) c1). split; [assumption |].
    intros j Hj. simpl in Hj. apply orb_false_iff in Hj as [Hj1 Hj2].
    apply Nat.eqb_neq in Hj1.
    rewrite group_set_group_other by assumption. auto.
  - destruct (String.length s =? total); [| discriminate].
    exists s, c. split; [assumption | intros i _; reflexivity].
  - exists s, c. split; [| intros i _; reflexivity].
    destruct s as [|a [|b s]]; try discriminate; [assumption |].
    destruct (Ascii.eqb a "010"); [assumption | discriminate].
Qed.

Lemma search_from_found (total : nat) (r : regex) (s : string) (m : caps) :
  search_from total r s = Some m ->
  exists s1, rmatch total r s1 [] accept = Some m.
Proof.
  induction s as [|a s IH]; simpl; intros H.
  - destruct (rmatch total r "" [] accept) eqn:E; [| discriminate].
    inversion H; subst. exists "". assumption.
  - destruct (rmatch total r (String a s) [] accept) eqn:E.
    + inversion H; subst. exists (String a s). assumption.
    + apply IH. assumption.
Qed.

Lemma three_digit_group (total : nat) (rest : regex) (s : string) (m : caps) :
  sets_group rest 1 = false ->
  rmatch total (Seq (Group 1 (rep 3 digit)) rest) s [] accept = Some m ->
  exists a b d, group m 1 = Some (String a (String b (String d ""))).
Proof.
  intros Hrest H. simpl in H.
  destruct s as [|a [|b [|d s3]]]; try discriminate;
    try (destruct (is_digit a); discriminate);
    try (destruct (is_digit a); [destruct (is_digit b) |]; discriminate).
  destruct (is_digit a); [| discriminate].
  destruct (is_digit b); [| discriminate].
  destruct (is_digit d); [| discriminate].
  apply (rmatch_passes total rest) in H as (s' & c' & Hacc & Hkeep).
  unfold accept in Hacc. injection Hacc as ->.
  exists a, b, d.
  rewrite Hkeep by assumption.
  rewrite group_set_group_same.
  unfold consumed.
  replace (String.length (String a (String b (String d s3))) - String.length s3) with 3
    by (change (String.length (String a (String b (String d s3))))
          with (3 + String.length s3); lia).
  simpl. destruct s3; reflexivity.
Qed.

(** group 1 of a match of the series pattern is three characters long *)
Lemma series_discount_group1 (s : string) (m : caps) :
  search Simplified.RE_SERIES_DISCOUNT s = Some m ->
  String.length (Simplified.group_text m 1) = 3.
Proof.
  unfold search. intros H. apply search_from_found in H as (s1 & H).
  apply three_digit_group in H as (a & b & d & H); [| reflexivity].
  unfold Simplified.group_text. rewrite H. reflexivity.
Qed.

(** *** The shape of emitted records *)

Lemma append_percent_nonempty (x : string) : x ++ "%" <> "".
Proof.
  destruct x; discriminate.
Qed.

Lemma is_empty_false (s : string) : is_empty s = false -> s <> "".
Proof.
  destruct s; [discriminate | intros _; discriminate].
Qed.

Lemma discount_text_nonempty (c : cell) (d : string) :
  Original._extract_discount_from_cell c = Some d -> d <> "".
Proof.
  unfold Original._extract_discount_from_cell.
  destruct c as [| s | z | f]; [discriminate | | |].
  - destruct (search Original.RE_DISCOUNT (strip (str (CStr s)))).
    + intros H; inversion H. apply append_percent_nonempty.
    + destruct (float_of_string _); [| discriminate].
      intros H; inversion H. apply append_percent_nonempty.
  - destruct (search Original.RE_DISCOUNT (strip (str (CInt z)))).
    + intros H; inversion H. apply append_percent_nonempty.
    + destruct (float_of_string _); [| discriminate].
      intros H; inversion H. apply append_percent_nonempty.
  - destruct (is_nan f); [discriminate |].
    destruct (search Original.RE_DISCOUNT (strip (str (CFloat f)))).
    + intros H; inversion H. apply append_percent_nonempty.
    + destruct (float_of_string _); [| discriminate].
      intros H; inversion H. apply append_percent_nonempty.
Qed.

Lemma series_discount_has_discount (r : row) (ix : Original.indices) :
  Original._row_looks_like_series_discount r ix = Ok true ->
  exists i d, Original.i_discount ix = Some i /\
              Original._extract_discount_from_cell (Original.cell_at r i) = Some d.
Proof.
  unfold Original._row_looks_like_series_discount.
  destruct (Original.i_discount ix) as [i|].
  - destruct (Original._extract_discount_from_cell (Original.cell_at r i)) as [d|] eqn:E.
    + intros _. exists i, d. split; [reflexivity | exact E].
    + simpl. destruct (match Original.i_price ix with Some _ => _ | None => _ end);
        simpl; discriminate.
  - simpl. destruct (match Original.i_price ix with Some _ => _ | None => _ end);
      simpl; discriminate.
Qed.

Lemma normalize_row_shape (r : row) (ix : Original.indices) (b : bool) (rc : record) :
  (b = true -> Original._row_looks_like_series_discount r ix = Ok true) ->
  Original._normalize_row r ix b = Ok (Some rc) ->
  original_record_shape rc.
Proof.
  intros Hb. unfold Original._normalize_row, original_record_shape.
  destruct b.
  - destruct (series_discount_has_discount r ix (Hb eq_refl)) as (i & d & Hi & Hd).
    rewrite Hi, Hd. simpl. intros H; inversion H; subst; simpl.
    left. repeat split. eapply discount_text_nonempty; eassumption.
  - destruct (Original._extract_price_from_cell _) as [p|e]; simpl; [| discriminate].
    destruct p as [p|]; simpl; [| discriminate].
    destruct (is_empty p) eqn:Ep; simpl; [discriminate |].
    intros H; inversion H; subst; simpl.
    right. apply is_empty_false; assumption.
Qed.

Lemma original_process_row_shape (st st' : Original.state) (r : row) :
  Forall original_record_shape (snd st) ->
  Original.process_row st r = Ok st' ->
  Forall original_record_shape (snd st').
Proof.
  destruct st as [indices records]. simpl. intros HF.
  unfold Original.process_row.
  destruct r as [|c r]; [intros H; inversion H; subst; assumption |].
  set (row := Original.pad5 (c :: r)).
  destruct (Original._is_header_row row && Original.is_none indices);
    [intros H; inversion H; subst; assumption |].
  set (ix := match indices with Some ix => ix | None => _ end).
  destruct (Original._is_header_row row);
    [intros H; inversion H; subst; assumption |].
  destruct (Original._row_looks_like_series_discount row ix) as [sd|e] eqn:Esd;
    cbn [bind]; [| discriminate].
  destruct sd; cbn [bind negb andb].
  - destruct (Original._normalize_row row ix true) as [[rc|]|e] eqn:En; cbn [bind].
    + intros H; inversion H; subst; simpl.
      apply Forall_app. split; [assumption |].
      constructor; [| constructor].
      eapply normalize_row_shape; [| eassumption]. intros _. assumption.
    + intros H; inversion H; subst; assumption.
    + discriminate.
  - destruct (Original._row_has_price row (Original.i_price ix)) as [hp|e]; cbn [bind];
      [| discriminate].
    destruct hp; cbn [bind negb andb]; [| intros H; inversion H; subst; assumption].
    destruct (Original._normalize_row row ix false) as [[rc|]|e] eqn:En; cbn [bind].
    + intros H; inversion H; subst; simpl.
      apply Forall_app. split; [assumption |].
      constructor; [| constructor].
      eapply normalize_row_shape; [| eassumption]. discriminate.
    + intros H; inversion H; subst; assumption.
    + discriminate.
Qed.

Lemma original_process_table_shape (st st' : Original.state) (t : table) :
  Forall original_record_shape (snd st) ->
  Original.process_table st t = Ok st' ->
  Forall original_record_shape (snd st').
Proof.
  unfold Original.process_table. intros HF.
  destruct (List.length t <? 2); [intros H; inversion H; subst; assumption |].
  apply (for_each_invariant (fun st => Forall original_record_shape (snd st))
                            Original.process_row); [| assumption].
  intros s a s'. apply original_process_row_shape.
Qed.

Lemma simplified_process_row_shape (acc acc' : list record) (r : row) :
  Forall simplified_record_shape acc ->
  Simplified.process_row acc r = Ok acc' ->
  Forall simplified_record_shape acc'.
Proof.
  intros HF. unfold Simplified.process_row.
  destruct r as [|c0 [|c1 [|c2 rest]]];
    try (intros H; inversion H; subst; assumption).
  destruct (Simplified.strip_method (Simplified.or_empty c2)) as [price|e]; simpl;
    [| discriminate].
  destruct (is_empty price) eqn:Ep; [intros H; inversion H; subst; assumption |].
  destruct (Simplified.strip_method (Simplified.or_empty c0)) as [part0|e]; simpl;
    [| discriminate].
  destruct (Simplified.strip_method (Simplified.or_empty c1)) as [desc0|e]; simpl;
    [| discriminate].
  assert (Product :
            forall part desc,
              simplified_record_shape
                (mk_record part "" desc
                           (if startswith "$" price then price else "$" ++ price) "")).
  { intros part desc. left. simpl. repeat split.
    destruct (startswith "$" price); [apply is_empty_false; assumption | discriminate]. }
  match goal with
  | |- (if ?c then _ else _) = _ -> _ => destruct c
  end.
  - destruct (search Simplified.RE_SERIES_DISCOUNT _) as [m|] eqn:Em;
      intros H; inversion H; subst; apply Forall_app; (split; [assumption |]);
        (constructor; [| constructor]); [| apply Product].
    right. simpl. repeat split.
    + eapply series_discount_group1; eassumption.
    + apply append_percent_nonempty.
  - intros H; inversion H; subst. apply Forall_app. split; [assumption |].
    constructor; [apply Product | constructor].
Qed.

Lemma simplified_process_page_shape (acc acc' : list record) (p : page) :
  Forall simplified_record_shape acc ->
  Simplified.process_page acc p = Ok acc' ->
  Forall simplified_record_shape acc'.
Proof.
  intros HF. unfold Simplified.process_page.
  destruct (extract_table p) as [[t|]|e]; simpl;
    [| intros H; inversion H; subst; assumption | discriminate].
  destruct t as [|r0 t]; [intros H; inversion H; subst; assumption |].
  apply (for_each_invariant (Forall simplified_record_shape) Simplified.process_row);
    [| assumption].
  intros s a s'. apply simplified_process_row_shape.
Qed.

(** C2, as the code has it.  Every record of the original pipeline is a
    series-discount record (Part Number and Price empty, Discount filled)
    or a product record (Price filled), and a product record may carry a
    Discount as well.  Every record of the simplified pipeline is a
    product record (Price filled, Series and Discount empty) or a
    series-discount record (Part Number and Price empty, a three character
    Series, Discount filled), so there no record has both a Price and a
    Discount. *)
Theorem emitted_record_shapes (pdf : document) :
  (forall meta recs,
     Original.parse_document pdf = Ok (meta, recs) ->
     Forall original_record_shape recs) /\
  (forall q recs,
     Simplified.parse_document pdf = Ok (q, recs) ->
     Forall simplified_record_shape recs /\
     Forall (fun rc => price rc = "" \/ discount rc = "") recs).
Proof.
  split.
  - intros meta recs. unfold Original.parse_document.
    match goal with
    | |- bind (for_each _ ?ts _) _ = _ -> _ =>
        destruct (for_each Original.process_table ts (None, [])) as [st|e] eqn:E
    end; simpl; [| discriminate].
    intros H; inversion H; subst.
    apply (for_each_invariant (fun st => Forall original_record_shape (snd st))
                              Original.process_table) in E; [assumption | | constructor].
    intros s a s'. apply original_process_table_shape.
  - intros q recs. unfold Simplified.parse_document.
    destruct (for_each Simplified.process_page pdf []) as [rs|e] eqn:E; simpl;
      [| discriminate].
    intros H; inversion H; subst.
    assert (S : Forall simplified_record_shape recs).
    { apply (for_each_invariant (Forall simplified_record_shape)
                                Simplified.process_page) in E; [assumption | | constructor].
      intros s a s'. apply simplified_process_page_shape. }
    split; [assumption |].
    eapply Forall_impl; [| exact S].
    intros rc [(_ & Hd & _) | (_ & Hp & _)]; [right | left]; assumption.
Qed.

Lemma emitted_record_shapes_witness :
  Forall original_record_shape
         [mk_record "750-500" "750" "8-Channel Module" "$10.00" "5%"] /\
  Forall simplified_record_shape
         [mk_record "750-500" "" "8-Channel Module" "$125.00" ""].
Proof.
  split.
  - apply (proj1 (emitted_record_shapes [Samples.page_of "" Samples.priced_and_discounted])
                 (Original.mk_metadata None None None None)).
    reflexivity.
  - apply (proj2 (emitted_record_shapes [Samples.page_of "" Samples.one_row_table]) None).
    reflexivity.
Defined.

(** C2 as stated fails for the original pipeline: a data row with a
    price and a discount becomes one record that holds both. *)
Lemma original_record_with_price_and_discount :
  exists meta rc,
    Original.parse_document [Samples.page_of "" Samples.priced_and_discounted]
      = Ok (meta, [rc]) /\
    rc = mk_record "750-500" "750" "8-Channel Module" "$10.00" "5%" /\
    price rc <> "" /\ discount rc <> "" /\ part_number rc <> "" /\ series rc <> "".
Proof.
  eexists _, _. split; [vm_compute; reflexivity |].
  repeat split; discriminate.
Qed.

(** *** Text that is no price *)


Lemma no_price_of_text (s : string) :
  search Original.RE_PRICE (strip s) = None ->
  float_of_string (strip (replace "$" "" (replace "," "" (strip s)))) = None ->
  Original._extract_price_from_cell (CStr s) = Ok None.
Proof.
  intros H1 H2. unfold Original._extract_price_from_cell. rewrite H1, H2. reflexivity.
Qed.

(** *** Content driven column roles *)

Lemma length_incr_at (i : nat) (l : list nat) :
  List.length (Original.incr_at i l) = List.length l.
Proof.
  revert i. induction l as [|x l IH]; intros [|i]; simpl; auto.
Qed.

Lemma nth_incr_at (i j : nat) (l : list nat) :
  nth j (Original.incr_at i l) 0
  = if (j =? i) && (i <? List.length l) then S (nth j l 0) else nth j l 0.
Proof.
  revert i j. induction l as [|x l IH]; intros i j.
  - simpl. rewrite andb_false_r. destruct i; reflexivity.
  - destruct i as [|i], j as [|j]; simpl; try reflexivity.
    rewrite IH. reflexivity.
Qed.

Lemma length_add_counts (f : cell -> bool) (cs : list cell) :
  forall k l, List.length (add_counts f k cs l) = List.length l.
Proof.
  induction cs as [|c cs IH]; intros k l; simpl; [reflexivity |].
  rewrite IH. destruct (f c); [apply length_incr_at | reflexivity].
Qed.

Lemma nth_add_counts (f : cell -> bool) (cs : list cell) :
  forall k l i,
    k + List.length cs <= List.length l ->
    nth i (add_counts f k cs l) 0
    = nth i l 0 +
      (if (k <=? i) && (i <? k + List.length cs)
       then Nat.b2n (f (nth (i - k) cs CNone)) else 0).
Proof.
  induction cs as [|c cs IH]; intros k l i Hlen; simpl in *.
  - replace (i <? k + 0) with (i <? k) by (f_equal; lia).
    destruct (Nat.leb_spec k i), (Nat.ltb_spec i k); simpl; lia.
  - rewrite IH by (destruct (f c); rewrite ?length_incr_at; lia).
    assert (E : nth i (if f c then Original.incr_at k l else l) 0
                = nth i l 0 + (if i =? k then Nat.b2n (f c) else 0)).
    { destruct (f c); simpl.
      - rewrite nth_incr_at.
        destruct (Nat.eqb_spec i k), (Nat.ltb_spec k (List.length l)); simpl; lia.
      - destruct (i =? k); lia. }
    rewrite E.
    destruct (Nat.eqb_spec i k) as [->|Hik].
    + replace (k - k) with 0 by lia.
      destruct (Nat.leb_spec (S k) k), (Nat.leb_spec k k), (Nat.ltb_spec k (k + S (List.length cs)));
        simpl; lia.
    + destruct (Nat.leb_spec (S k) i), (Nat.leb_spec k i); simpl; try lia.
      * replace (i - k) with (S (i - S k)) by lia.
        replace (i <? S (k + List.length cs)) with (i <? k + S (List.length cs))
          by (f_equal; lia).
        destruct (i <? k + S (List.length cs)); simpl; lia.
Qed.

Lemma length_add_rows (f : cell -> bool) (rows : list row) :
  forall l, List.length (add_rows f rows l) = List.length l.
Proof.
  induction rows as [|r rows IH]; intros l; simpl; [reflexivity |].
  rewrite IH. apply length_add_counts.
Qed.

Lemma nth_add_rows (f : cell -> bool) (rows : list row) :
  forall l i,
    Forall (fun r => List.length r <= List.length l) rows ->
    nth i (add_rows f rows l) 0 = nth i l 0 + column_count f rows i.
Proof.
  unfold column_count.
  induction rows as [|r rows IH]; intros l i HF; simpl.
  - lia.
  - inversion HF as [|r' rows' Hr Hrows]; subst.
    rewrite IH by (rewrite length_add_counts; assumption).
    rewrite nth_add_counts by (simpl; lia).
    simpl. rewrite Nat.sub_0_r.
    destruct (i <? List.length r); simpl; [| lia].
    destruct (f (nth i r CNone)); simpl; lia.
Qed.

Lemma count_cell_readable (pc dc : list nat) (i : nat) (c : cell) :
  readable c ->
  Original.count_cell (pc, dc) (i, c)
  = Ok (if price_like c then Original.incr_at i pc else pc,
        if discount_like c then Original.incr_at i dc else dc).
Proof.
  intros [p Hp]. unfold Original.count_cell, price_like, discount_like.
  rewrite Hp. reflexivity.
Qed.

Lemma count_row_loop (cs : list cell) :
  forall k pc dc,
    Forall readable cs ->
    for_each Original.count_cell (combine (seq k (List.length cs)) cs) (pc, dc)
    = Ok (add_counts price_like k cs pc, add_counts discount_like k cs dc).
Proof.
  induction cs as [|c cs IH]; intros k pc dc HF;
    cbn [for_each combine seq Datatypes.length add_counts]; [reflexivity |].
  inversion HF; subst.
  rewrite count_cell_readable by assumption. cbn [bind].
  apply IH. assumption.
Qed.

Lemma count_rows_loop (n : nat) (rows : list row) :
  forall pc dc,
    Forall (Forall readable) rows ->
    Forall (fun r => List.length r <= n) rows ->
    for_each (fun st r => for_each Original.count_cell
                                   (Original.enumerate (firstn n r)) st)
             rows (pc, dc)
    = Ok (add_rows price_like rows pc, add_rows discount_like rows dc).
Proof.
  induction rows as [|r rows IH]; intros pc dc HR HL;
    cbn [for_each add_rows]; [reflexivity |].
  inversion HR; subst. inversion HL; subst.
  unfold Original.enumerate at 1.
  rewrite firstn_all2 by assumption.
  rewrite count_row_loop by assumption. cbn [bind].
  apply IH; assumption.
Qed.

Lemma max_list_ge (l : list nat) (x : nat) : In x l -> x <= Original.max_list l.
Proof.
  induction l as [|y l IH]; simpl; [contradiction |].
  intros [-> | H]; [lia | specialize (IH H); lia].
Qed.

Lemma max_list_pos (l : list nat) :
  0 < Original.max_list l <-> exists i, i < List.length l /\ 0 < nth i l 0.
Proof.
  induction l as [|y l IH]; simpl.
  - split; [lia | intros (i & H & _); lia].
  - split.
    + intros H. destruct y as [|y].
      * simpl in H. apply IH in H as (i & Hi & Hp). exists (S i). split; [lia | assumption].
      * exists 0. split; lia.
    + intros (i & Hi & Hp). destruct i as [|i]; [lia |].
      assert (0 < Original.max_list l) by (apply IH; exists i; split; [lia | assumption]).
      lia.
Qed.

Lemma max_by_first_max (key : nat -> nat) (m : nat) :
  forall a best,
    is_first_max key a best ->
    is_first_max key (a + m) (Original.max_by key (seq a m) best).
Proof.
  unfold is_first_max.
  induction m as [|m IH]; intros a best (H1 & H2 & H3); simpl.
  - rewrite Nat.add_0_r. auto.
  - replace (a + S m) with (S a + m) by lia.
    apply IH.
    destruct (Nat.ltb_spec (key best) (key a)) as [Hlt | Hge].
    + repeat split; [lia | |].
      * intros j Hj. destruct (Nat.eq_dec j a) as [-> | Hne]; [lia |].
        specialize (H2 j). lia.
      * intros j Hj. specialize (H2 j). lia.
    + repeat split; [lia | | assumption].
      intros j Hj. destruct (Nat.eq_dec j a) as [-> | Hne]; [lia |].
      apply H2. lia.
Qed.

Lemma argmax_range_first_max (n : nat) (counts : list nat) :
  0 < n ->
  is_first_max (fun i => nth i counts 0) n (Original.argmax_range n counts).
Proof.
  intros Hn. unfold Original.argmax_range.
  replace n with (1 + (n - 1)) at 1 by lia.
  apply max_by_first_max.
  unfold is_first_max. repeat split; [lia | | intros j Hj; lia].
  intros j Hj. replace j with 0 by lia. lia.
Qed.

Lemma first_max_ext (f g : nat -> nat) (n i : nat) :
  (forall j, f j = g j) -> is_first_max f n i -> is_first_max g n i.
Proof.
  unfold is_first_max. intros E (H1 & H2 & H3).
  repeat split; [assumption | |]; intros j Hj; rewrite <- !E; auto.
Qed.

(** the column picked from the counters of a role *)
Lemma picked_column (f : cell -> bool) (rows : list row) (n fallback : nat) :
  0 < n ->
  Forall (fun r => List.length r <= n) rows ->
  chosen (column_count f rows) n fallback
         (if 0 <? Original.max_list (add_rows f rows (repeat 0 n))
          then Original.argmax_range n (add_rows f rows (repeat 0 n))
          else fallback).
Proof.
  intros Hn HL.
  assert (Hnth : forall i, nth i (add_rows f rows (repeat 0 n)) 0 = column_count f rows i).
  { intros i. rewrite nth_add_rows by (rewrite repeat_length; assumption).
    rewrite nth_repeat. reflexivity. }
  assert (Hlen : List.length (add_rows f rows (repeat 0 n)) = n)
    by (rewrite length_add_rows; apply repeat_length).
  unfold chosen.
  destruct (Nat.ltb_spec 0 (Original.max_list (add_rows f rows (repeat 0 n)))) as [Hpos | Hzero].
  - split.
    + intros _. eapply first_max_ext; [exact Hnth |].
      apply argmax_range_first_max. assumption.
    + intros Hall. apply max_list_pos in Hpos as (i & Hi & Hp).
      rewrite Hlen in Hi. rewrite Hnth, (Hall i Hi) in Hp. lia.
  - split; [| reflexivity].
    intros (j & Hj & Hp). exfalso.
    assert (0 < Original.max_list (add_rows f rows (repeat 0 n))).
    { apply max_list_pos. exists j. rewrite Hlen, Hnth. split; assumption. }
    lia.
Qed.

Lemma rows_within_ncols (rows : list row) :
  Forall (fun r => List.length r <= ncols rows) rows.
Proof.
  apply Forall_forall. intros r Hr. apply max_list_ge.
  apply in_map. assumption.
Qed.

(** The row scan, taken by itself.  [_infer_column_indices_from_rows]
    gives an empty table the roles 0 to 4 and a table narrower than three columns
    the fixed roles part 0, description 1, price 2.  For a wider table it
    scans every cell of every row, counts per column the cells that pass
    the price test and those that pass the discount test, and gives each
    role to the first column with the largest count; only when no cell
    was counted at all does the role fall back to the second-to-last
    (price) or the last (discount) column. *)
Theorem content_driven_roles (rows : list row) :
  (rows = [] ->
   Original._infer_column_indices_from_rows rows
   = Ok (Original.mk_indices (Some 0) (Some 1) (Some 2) (Some 3) (Some 4))) /\
  (rows <> [] -> ncols rows < 3 ->
   Original._infer_column_indices_from_rows rows
   = Ok (Original.mk_indices (Some 0) None (Some 1) (Some 2) None)) /\
  (rows <> [] -> 3 <= ncols rows -> Forall (Forall readable) rows ->
   exists pi di,
     Original._infer_column_indices_from_rows rows
     = Ok (Original.mk_indices (Some 0) (Some 1) (Some 2) (Some pi) (Some di)) /\
     chosen (column_count price_like rows) (ncols rows) (ncols rows - 2) pi /\
     chosen (column_count discount_like rows) (ncols rows) (ncols rows - 1) di).
Proof.
  split; [intros ->; reflexivity |]. split.
  - intros Hne Hn. unfold Original._infer_column_indices_from_rows.
    destruct rows as [|r rows]; [congruence |].
    fold (ncols (r :: rows)).
    destruct (Nat.ltb_spec (ncols (r :: rows)) 3); [reflexivity | lia].
  - intros Hne Hn HR. unfold Original._infer_column_indices_from_rows.
    destruct rows as [|r rows]; [congruence |].
    fold (ncols (r :: rows)).
    set (n := ncols (r :: rows)) in *.
    destruct (Nat.ltb_spec n 3); [lia |].
    rewrite (count_rows_loop n (r :: rows)) by (assumption || apply rows_within_ncols).
    cbn [bind].
    destruct (Nat.leb_spec 2 n); [| lia].
    destruct (Nat.leb_spec 3 n); [| lia].
    eexists _, _. split; [reflexivity |].
    split; apply picked_column; try lia; apply rows_within_ncols.
Qed.

Lemma content_driven_roles_witness :
  exists pi di,
    Original._infer_column_indices_from_rows Samples.tied_rows
    = Ok (Original.mk_indices (Some 0) (Some 1) (Some 2) (Some pi) (Some di)) /\
    chosen (column_count price_like Samples.tied_rows) 4 2 pi /\
    chosen (column_count discount_like Samples.tied_rows) 4 3 di.
Proof.
  apply (proj2 (proj2 (content_driven_roles Samples.tied_rows))).
  - discriminate.
  - vm_compute. lia.
  - repeat constructor; eexists; vm_compute; reflexivity.
Defined.

(** On a tie the row scan does not fall back to a position: columns 1
    and 2 both hold two prices, and the price role goes to column 1, the
    first of them, not to the second-to-last column 2. *)
Lemma tie_goes_to_first_column :
  column_count price_like Samples.tied_rows 1 = 2 /\
  column_count price_like Samples.tied_rows 2 = 2 /\
  ncols Samples.tied_rows - 2 = 2 /\
  Original._infer_column_indices_from_rows Samples.tied_rows
  = Ok (Original.mk_indices (Some 0) (Some 1) (Some 2) (Some 1) (Some 3)).
Proof.
  repeat split; vm_compute; reflexivity.
Qed.

(** C4, at the failing input: a table without a header row whose prices
    stand in column 1.  The row scan for tables without a header,
    [_infer_column_indices_from_rows], counts two prices in column 1 and
    gives it the price role; read with these roles the table yields its
    two priced records.  The loop of [parse_pdf] never calls the scan:
    without a header it takes the roles from [_infer_column_indices] on
    the first data row, here the positions 3 and 4 whatever the cells
    hold, so both rows are dropped as unpriced, no record is left and
    [parse_pdf] raises. *)
Theorem headerless_table_roles_are_positional :
  column_count price_like Samples.headerless 1 = 2 /\
  column_count price_like Samples.headerless 3 = 0 /\
  Original._infer_column_indices_from_rows Samples.headerless
  = Ok (Original.mk_indices (Some 0) (Some 1) (Some 2) (Some 1) (Some 4)) /\
  for_each Original.process_table [Samples.headerless]
           (Some (Original.mk_indices (Some 0) (Some 1) (Some 2) (Some 1) (Some 4)), [])
  = Ok (Some (Original.mk_indices (Some 0) (Some 1) (Some 2) (Some 1) (Some 4)),
        [mk_record "750-500" "500" "8-Channel Module" "$5.00" "";
         mk_record "750-501" "700" "16-Channel Module" "$7.00" ""]) /\
  for_each Original.process_table [Samples.headerless] (None, [])
  = Ok (Some (Original.mk_indices None None None (Some 3) (Some 4)), []) /\
  Original.parse_pdf (Samples.host [Samples.page_of "" Samples.headerless])
                     (Path "quote.pdf")
  = Raise (Original.extraction_empty (Path "quote.pdf")).
Proof.
  repeat split; vm_compute; reflexivity.
Qed.

(** *** Strings *)

Lemma forallb_chars_app (p : ascii -> bool) (s t : string) :
  forallb_chars p (s ++ t) = forallb_chars p s && forallb_chars p t.
Proof.
  induction s as [|c s IH]; simpl; [reflexivity |].
  rewrite IH, andb_assoc. reflexivity.
Qed.

Lemma forallb_chars_impl (p q : ascii -> bool) (s : string) :
  (forall c, p c = true -> q c = true) ->
  forallb_chars p s = true -> forallb_chars q s = true.
Proof.
  intros Hpq. induction s as [|c s IH]; simpl; [reflexivity |].
  intros H. apply andb_true_iff in H as [H1 H2].
  rewrite (Hpq c H1), (IH H2). reflexivity.
Qed.

Lemma filter_chars_all (p : ascii -> bool) (s : string) :
  forallb_chars p s = true -> filter_chars p s = s.
Proof.
  induction s as [|c s IH]; simpl; [reflexivity |].
  intros H. apply andb_true_iff in H as [H1 H2].
  rewrite H1, (IH H2). reflexivity.
Qed.

Lemma filter_chars_app (p : ascii -> bool) (s t : string) :
  filter_chars p (s ++ t) = filter_chars p s ++ filter_chars p t.
Proof.
  induction s as [|c s IH]; simpl; [reflexivity |].
  rewrite IH. destruct (p c); reflexivity.
Qed.

Lemma filter_chars_ext (p q : ascii -> bool) (r : ascii -> bool) (s : string) :
  (forall c, r c = true -> p c = q c) ->
  forallb_chars r s = true -> filter_chars p s = filter_chars q s.
Proof.
  intros E. induction s as [|c s IH]; simpl; [reflexivity |].
  intros H. apply andb_true_iff in H as [H1 H2].
  rewrite (E c H1), (IH H2). reflexivity.
Qed.

Lemma forallb_filter_chars (p : ascii -> bool) (s : string) :
  forallb_chars p (filter_chars p s) = true.
Proof.
  induction s as [|c s IH]; simpl; [reflexivity |].
  destruct (p c) eqn:E; simpl; [rewrite E |]; assumption.
Qed.

(** removing a one character needle is filtering it out *)
Lemma replace_char (x : ascii) (s : string) :
  replace (String x "") "" s = filter_chars (fun c => negb (Ascii.eqb x c)) s.
Proof.
  unfold replace. induction s as [|c s IH]; simpl; [reflexivity |].
  destruct (ascii_dec x c) as [-> | Hne].
  - rewrite Ascii.eqb_refl. simpl. destruct s; exact IH.
  - apply Ascii.eqb_neq in Hne. rewrite Hne. simpl. rewrite IH. reflexivity.
Qed.

Lemma rstrip_by_none (p : ascii -> bool) (s : string) :
  forallb_chars (fun c => negb (p c)) s = true -> rstrip_by p s = s.
Proof.
  induction s as [|c s IH]; simpl; [reflexivity |].
  intros H. apply andb_true_iff in H as [H1 H2].
  rewrite (IH H2). apply negb_true_iff in H1. rewrite H1.
  destruct s; reflexivity.
Qed.

Lemma rstrip_by_app (p : ascii -> bool) (u v : string) :
  v <> "" ->
  forallb_chars (fun c => negb (p c)) v = true ->
  rstrip_by p (u ++ v) = u ++ v.
Proof.
  intros Hne Hv. induction u as [|c u IH]; simpl.
  - apply rstrip_by_none. assumption.
  - rewrite IH. destruct (u ++ v) eqn:E; [| reflexivity].
    destruct u; simpl in E; [contradiction | discriminate].
Qed.

Lemma lstrip_by_app (p : ascii -> bool) (ws : string) (c : ascii) (t : string) :
  forallb_chars p ws = true -> p c = false ->
  lstrip_by p (ws ++ String c t) = String c t.
Proof.
  intros Hws Hc. induction ws as [|x ws IH]; simpl.
  - rewrite Hc. reflexivity.
  - simpl in Hws. apply andb_true_iff in Hws as [H1 H2].
    rewrite H1. apply IH. assumption.
Qed.

Lemma substring_full (s : string) : substring 0 (String.length s) s = s.
Proof.
  induction s as [|c s IH]; simpl; [reflexivity | rewrite IH; reflexivity].
Qed.

Lemma consumed_all (s : string) : consumed s "" = s.
Proof.
  unfold consumed. simpl. rewrite Nat.sub_0_r. apply substring_full.
Qed.

Lemma string_app_nil_r (a : string) : a ++ "" = a.
Proof.
  induction a as [|x a IH]; simpl; [reflexivity | rewrite IH; reflexivity].
Qed.

Lemma string_length_app (a b : string) :
  String.length (a ++ b) = String.length a + String.length b.
Proof.
  induction a as [|x a IH]; simpl; [reflexivity | rewrite IH; reflexivity].
Qed.

(** *** Characters *)

Lemma digit_code (c : ascii) : is_digit c = true -> 48 <= code c <= 57.
Proof.
  unfold is_digit. intros H. apply andb_true_iff in H as [H1 H2].
  apply Nat.leb_le in H1, H2. lia.
Qed.

Lemma digit_not_space (c : ascii) : is_digit c = true -> is_space c = false.
Proof.
  intros H. apply digit_code in H. unfold is_space.
  destruct (Nat.leb_spec 9 (code c)), (Nat.leb_spec (code c) 13),
    (Nat.leb_spec 28 (code c)), (Nat.leb_spec (code c) 32); simpl; try reflexivity; lia.
Qed.

Lemma digit_not_c_space (c : ascii) : is_digit c = true -> is_c_space c = false.
Proof.
  intros H. apply digit_code in H. unfold is_c_space.
  destruct (Nat.leb_spec 9 (code c)), (Nat.leb_spec (code c) 13),
    (Nat.eqb_spec (code c) 32); simpl; try reflexivity; lia.
Qed.

Lemma digit_not_upper (c : ascii) : is_digit c = true -> is_upper c = false.
Proof.
  intros H. apply digit_code in H. unfold is_upper.
  destruct (Nat.leb_spec 65 (code c)), (Nat.leb_spec (code c) 90); simpl;
    try reflexivity; lia.
Qed.

Lemma digit_neq (c x : ascii) :
  is_digit c = true -> is_digit x = false -> Ascii.eqb c x = false.
Proof.
  intros Hc Hx. apply Ascii.eqb_neq. intros ->. congruence.
Qed.

Lemma body_char_cases (c : ascii) :
  is_body_char c = true -> is_digit c = true \/ c = ","%char.
Proof.
  unfold is_body_char. intros H. apply orb_true_iff in H as [H | H]; [left; assumption |].
  right. apply Ascii.eqb_eq. assumption.
Qed.

(** *** The matcher on a run of characters of one class *)

Lemma star_greedy_class (total : nat) (p : ascii -> bool) (rest : string)
      (k : cont) (res : caps) :
  match rest with
  | EmptyString => true
  | String a _ => negb (p a)
  end = true ->
  forall (xs : string) (fuel : nat) (c : caps),
    forallb_chars p xs = true ->
    String.length xs <= fuel ->
    k rest c = Some res ->
    star_loop true (rmatch total (Cls p)) fuel (xs ++ rest) c k = Some res.
Proof.
  intros Hrest. induction xs as [|x xs IH]; intros fuel c Hxs Hfuel Hk.
  - simpl. destruct fuel as [|fuel]; simpl; [assumption |].
    destruct rest as [|a rest]; simpl; [assumption |].
    apply negb_true_iff in Hrest. rewrite Hrest. assumption.
  - destruct fuel as [|fuel]; [simpl in Hfuel; lia |].
    simpl in Hxs. apply andb_true_iff in Hxs as [Hx Hxs].
    cbn [append star_loop rmatch]. rewrite Hx.
    replace (String.length (xs ++ rest) <? String.length (String x (xs ++ rest)))
      with true by (symmetry; apply Nat.ltb_lt; simpl; lia).
    assert (IH' := IH fuel c Hxs).
    cbn [rmatch] in IH'. rewrite IH'; [reflexivity | simpl in Hfuel; lia | assumption].
Qed.

Lemma rmatch_star_class (total : nat) (p : ascii -> bool) (xs rest : string)
      (c : caps) (k : cont) (res : caps) :
  match rest with
  | EmptyString => true
  | String a _ => negb (p a)
  end = true ->
  forallb_chars p xs = true ->
  k rest c = Some res ->
  rmatch total (Star true (Cls p)) (xs ++ rest) c k = Some res.
Proof.
  intros Hrest Hxs Hk.
  change (star_loop true (rmatch total (Cls p)) (S (String.length (xs ++ rest)))
                    (xs ++ rest) c k = Some res).
  apply star_greedy_class; try assumption.
  rewrite string_length_app. lia.
Qed.

(** the optional decimal part of [RE_PRICE] reads the two digits *)
Lemma rmatch_cents (total : nat) (cents : option (ascii * ascii)) (c : caps) (k : cont)
      (res : caps) :
  cents_ok cents = true ->
  k "" c = Some res ->
  rmatch total (opt (Seq (chr ".") (rep 2 digit))) (cents_text cents) c k = Some res.
Proof.
  intros H Hk. destruct cents as [[a b]|]; simpl in *.
  - apply andb_true_iff in H as [Ha Hb]. rewrite Ha, Hb, Hk. reflexivity.
  - assumption.
Qed.

(** on a text that starts with a dollar sign, [RE_PRICE] matches at once
    and group 1 is all that follows the white space *)
Lemma re_price_match (ws body : string) (cents : option (ascii * ascii)) :
  forallb_chars is_space ws = true ->
  price_body body = true ->
  cents_ok cents = true ->
  search Original.RE_PRICE (String "$" (ws ++ body ++ cents_text cents))
  = Some [(1, body ++ cents_text cents)].
Proof.
  intros Hws Hbody Hc.
  destruct body as [|d body]; [discriminate |].
  simpl in Hbody. apply andb_true_iff in Hbody as [Hd Hb].
  apply andb_true_iff in Hb as [_ Hb].
  unfold search.
  set (total := String.length (String "$" (ws ++ String d body ++ cents_text cents))).
  assert (M : rmatch total Original.RE_PRICE
                     (String "$" (ws ++ String d body ++ cents_text cents)) [] accept
              = Some [(1, String d body ++ cents_text cents)]).
  { unfold Original.RE_PRICE.
    cbn [seqs]. cbn [rmatch chr]. rewrite Ascii.eqb_refl.
    apply rmatch_star_class.
    - simpl. rewrite (digit_not_space d Hd). reflexivity.
    - assumption.
    - cbn [rmatch plus append].
      rewrite Hd. cbn [orb].
      apply (rmatch_star_class total is_body_char).
      + destruct cents as [[a b]|]; reflexivity.
      + assumption.
      + apply rmatch_cents; [assumption |].
        unfold accept. rewrite consumed_all. reflexivity. }
  cbn [search_from]. rewrite M. reflexivity.
Qed.

Lemma rmatch_seq_chr (total : nat) (a : ascii) (r : regex) (c0 : ascii) (s : string)
      (c : caps) (k : cont) :
  rmatch total (Seq (chr a) r) (String c0 s) c k
  = if Ascii.eqb a c0 then rmatch total r s c k else None.
Proof.
  reflexivity.
Qed.

(** a text without a dollar sign has no match of [RE_PRICE] *)
Lemma re_price_no_dollar (total : nat) (s : string) :
  forallb_chars (fun c => negb (Ascii.eqb "$" c)) s = true ->
  search_from total Original.RE_PRICE s = None.
Proof.
  induction s as [|c s IH]; intros H.
  - reflexivity.
  - cbn [forallb_chars] in H. apply andb_true_iff in H as [Hc Hs].
    apply negb_true_iff in Hc.
    cbn [search_from]. unfold Original.RE_PRICE at 1. cbn [seqs].
    rewrite rmatch_seq_chr, Hc. apply IH. assumption.
Qed.

(** *** Rounding to binary64 and back to two decimals *)

Section Rounding.
Local Open Scope Z_scope.

Lemma div_rne_close (a b : Z) :
  0 <= a -> 0 < b ->
  2 * Z.abs (div_rne a b * b - a) <= b /\ 0 <= div_rne a b.
Proof.
  intros Ha Hb. unfold div_rne.
  pose proof (Z.div_mod a b ltac:(lia)) as E.
  pose proof (Z.mod_pos_bound a b Hb) as Hr.
  pose proof (Z.div_pos a b Ha Hb) as Hq.
  destruct (Z.ltb_spec (2 * (a mod b)) b); [split; nia |].
  destruct (Z.ltb_spec b (2 * (a mod b))); [split; nia |].
  destruct (Z.even (a / b)); split; nia.
Qed.

Lemma div_rne_near (V P delta : Z) :
  0 < P -> 2 * Z.abs delta < P -> 0 <= V * P + delta ->
  div_rne (V * P + delta) P = V.
Proof.
  intros HP Hd Hn. unfold div_rne.
  destruct (Z_le_gt_dec 0 delta) as [Hpos | Hneg].
  - assert (Eq : (V * P + delta) / P = V)
      by (symmetry; apply (Z.div_unique _ _ V delta); lia).
    assert (Er : (V * P + delta) mod P = delta)
      by (symmetry; apply (Z.mod_unique _ _ V delta); lia).
    rewrite Eq, Er.
    destruct (Z.ltb_spec (2 * delta) P); [reflexivity | lia].
  - assert (Eq : (V * P + delta) / P = V - 1)
      by (symmetry; apply (Z.div_unique _ _ (V - 1) (P + delta)); lia).
    assert (Er : (V * P + delta) mod P = P + delta)
      by (symmetry; apply (Z.mod_unique _ _ (V - 1) (P + delta)); lia).
    rewrite Eq, Er.
    destruct (Z.ltb_spec (2 * (P + delta)) P); [lia |].
    destruct (Z.ltb_spec P (2 * (P + delta))); lia.
Qed.

Lemma ulp_exp_small (n d : Z) :
  0 < n -> 0 < d -> n < 2 ^ 46 * d -> ulp_exp n d <= -7.
Proof.
  intros Hn Hd Hlt. unfold ulp_exp.
  assert (Hl : Z.log2 n - Z.log2 d <= 46).
  { pose proof (Z.log2_spec d Hd) as [_ Hd2].
    assert (Hn2 : n < 2 ^ (47 + Z.log2 d)).
    { replace (47 + Z.log2 d) with (46 + Z.succ (Z.log2 d)) by lia.
      rewrite Z.pow_add_r by (pose proof (Z.log2_nonneg d); lia). nia. }
    apply Z.log2_lt_pow2 in Hn2; [lia | assumption]. }
  set (l := Z.log2 n - Z.log2 d) in *.
  assert (Hfl : (if ge_pow2 n d l then l else l - 1) <= 45).
  { destruct (Z.eq_dec l 46) as [E | E].
    - rewrite E. unfold ge_pow2. change (0 <=? 46) with true. cbv iota.
      destruct (Z.leb_spec (d * 2 ^ 46) n); lia.
    - destruct (ge_pow2 n d l); lia. }
  lia.
Qed.

(** a value of at most two decimals below 2^46 survives the trip through
    the nearest binary64 and back to hundredths *)
Lemma hundredths_round_trip (n d V : Z) :
  0 <= n -> 0 < d -> n < 2 ^ 46 * d -> 100 * n = V * d ->
  format_comma_2f (round_b64 false n d) = format_hundredths V.
Proof.
  intros Hn Hd Hlt HV. unfold round_b64.
  destruct (Z.eqb_spec n 0) as [-> | Hn0].
  - assert (V = 0) by nia. subst V. reflexivity.
  - assert (He : ulp_exp n d <= -7) by (apply ulp_exp_small; lia).
    set (e := ulp_exp n d) in *.
    destruct (Z.ltb_spec 971 e); [lia |].
    destruct (Z.eqb_spec e 971); [lia |].
    cbn [orb andb format_comma_2f].
    unfold scale_rne at 1.
    destruct (Z.leb_spec 0 e); [lia |].
    set (P := 2 ^ (- e)).
    assert (HP : 128 <= P).
    { unfold P. change 128 with (2 ^ 7). apply Z.pow_le_mono_r; lia. }
    destruct (div_rne_close (n * P) d ltac:(nia) Hd) as [Hclose Hm].
    set (m := div_rne (n * P) d) in *.
    unfold hundredths, scale_rne.
    destruct (Z.leb_spec 0 (- e)); [| lia].
    fold P. rewrite Z.mul_1_l.
    replace (m * 100) with (V * P + (m * 100 - V * P)) by lia.
    rewrite div_rne_near; [reflexivity | lia | | lia].
    assert (Z.abs (m * 100 - V * P) * d <= 50 * d) by nia.
    assert (Z.abs (m * 100 - V * P) <= 50) by nia.
    lia.
Qed.

End Rounding.

(** *** [float] on the digits of a price *)

Lemma sign_digit (d : ascii) (r : string) :
  is_digit d = true -> sign (String d r) = (false, String d r).
Proof.
  intros H.
  assert (Hm : Ascii.eqb d "-" = false) by (apply digit_neq; [assumption | reflexivity]).
  assert (Hp : Ascii.eqb d "+" = false) by (apply digit_neq; [assumption | reflexivity]).
  apply Ascii.eqb_neq in Hm, Hp.
  destruct d as [[] [] [] [] [] [] [] []]; try reflexivity; congruence.
Qed.

Lemma not_a_word (d : ascii) (r : string) :
  is_digit d = true ->
  String.eqb (lower (String d r)) "inf" || String.eqb (lower (String d r)) "infinity" = false /\
  String.eqb (lower (String d r)) "nan" = false.
Proof.
  intros H. cbn [lower]. unfold lower_char. rewrite (digit_not_upper d H).
  cbn [String.eqb].
  rewrite (digit_neq d "i" H eq_refl), (digit_neq d "n" H eq_refl).
  split; reflexivity.
Qed.

Lemma digitpart_tail_digits (ds : string) (cents : option (ascii * ascii)) :
  forallb_chars is_digit ds = true ->
  digitpart_tail (ds ++ cents_text cents) = (ds, cents_text cents).
Proof.
  induction ds as [|c ds IH]; intros H.
  - destruct cents as [[a b]|]; reflexivity.
  - cbn [forallb_chars] in H. apply andb_true_iff in H as [Hc Hds].
    cbn [append digitpart_tail]. rewrite Hc, (IH Hds). reflexivity.
Qed.

Lemma c_space_free (ds : string) (cents : option (ascii * ascii)) :
  forallb_chars is_digit ds = true -> cents_ok cents = true ->
  forallb_chars (fun c => negb (is_c_space c)) (ds ++ cents_text cents) = true.
Proof.
  intros Hd Hc. rewrite forallb_chars_app. apply andb_true_iff. split.
  - eapply forallb_chars_impl; [| exact Hd].
    intros c H. rewrite (digit_not_c_space c H). reflexivity.
  - destruct cents as [[a b]|]; [| reflexivity].
    simpl in Hc. apply andb_true_iff in Hc as [Ha Hb].
    cbn [cents_text forallb_chars].
    rewrite (digit_not_c_space a Ha), (digit_not_c_space b Hb). reflexivity.
Qed.

(** what [float] reads in the digits of a price and its decimal part *)
Lemma float_of_price_digits (d : ascii) (ds : string) (cents : option (ascii * ascii)) :
  is_digit d = true ->
  forallb_chars is_digit ds = true ->
  cents_ok cents = true ->
  float_of_string (String d ds ++ cents_text cents)
  = Some (match cents with
          | None => round_b64 false (digits_val (String d ds) * 1) 1
          | Some (a, b) =>
              round_b64 false (digits_val (String d ds ++ String a (String b ""))) 100
          end).
Proof.
  intros Hd Hds Hc. unfold float_of_string.
  assert (Hstrip : rstrip_by is_c_space (lstrip_by is_c_space (String d ds ++ cents_text cents))
                   = String d (ds ++ cents_text cents)).
  { cbn [append lstrip_by]. rewrite (digit_not_c_space d Hd).
    apply (rstrip_by_none is_c_space (String d (ds ++ cents_text cents))).
    cbn [forallb_chars]. rewrite (digit_not_c_space d Hd). cbn [negb andb].
    apply c_space_free; assumption. }
  rewrite Hstrip, (sign_digit d _ Hd).
  destruct (not_a_word d (ds ++ cents_text cents) Hd) as [W1 W2].
  rewrite W1, W2.
  unfold number, digitpart. rewrite Hd, (digitpart_tail_digits ds cents Hds).
  destruct cents as [[a b]|].
  - cbn [cents_text]. simpl in Hc. apply andb_true_iff in Hc as [Ha Hb].
    cbn [digitpart_tail]. rewrite Ha, Hb. cbn [exponent].
    reflexivity.
  - cbn [cents_text exponent]. rewrite string_app_nil_r. reflexivity.
Qed.

Section PriceDigits.
Local Open Scope Z_scope.

Lemma digit_val_bounds (c : ascii) : is_digit c = true -> 0 <= digit_val c <= 9.
Proof.
  intros H. apply digit_code in H. unfold digit_val. lia.
Qed.

Lemma digits_val_from_app (x y : string) :
  forall acc, digits_val_from acc (x ++ y) = digits_val_from (digits_val_from acc x) y.
Proof.
  induction x as [|c x IH]; intros acc; simpl; [reflexivity | apply IH].
Qed.

Lemma digits_val_from_nonneg (s : string) :
  forallb_chars is_digit s = true ->
  forall acc, 0 <= acc -> 0 <= digits_val_from acc s.
Proof.
  induction s as [|c s IH]; intros H acc Hacc; cbn [digits_val_from]; [assumption |].
  cbn [forallb_chars] in H. apply andb_true_iff in H as [Hc Hs].
  apply IH; [assumption |]. pose proof (digit_val_bounds c Hc). lia.
Qed.

(** the digits and the decimal part, read by [float] and formatted with
    [",.2f"], give back the value in hundredths *)
Lemma format_of_price_digits (d : ascii) (ds : string) (cents : option (ascii * ascii)) :
  is_digit d = true ->
  forallb_chars is_digit ds = true ->
  cents_ok cents = true ->
  digits_val (String d ds) < 2 ^ 46 ->
  exists f,
    float_of_string (String d ds ++ cents_text cents) = Some f /\
    format_comma_2f f
    = format_hundredths (100 * digits_val (String d ds) + cents_value cents).
Proof.
  intros Hd Hds Hc Hlt.
  assert (Hnn : 0 <= digits_val (String d ds)).
  { apply digits_val_from_nonneg; [| lia].
    cbn [forallb_chars]. rewrite Hd, Hds. reflexivity. }
  eexists. split; [apply float_of_price_digits; assumption |].
  destruct cents as [[a b]|].
  - simpl in Hc. apply andb_true_iff in Hc as [Ha Hb].
    pose proof (digit_val_bounds a Ha). pose proof (digit_val_bounds b Hb).
    assert (E : digits_val (String d ds ++ String a (String b ""))
                = 100 * digits_val (String d ds) + (10 * digit_val a + digit_val b)).
    { unfold digits_val. rewrite digits_val_from_app. cbn [digits_val_from]. lia. }
    rewrite E. apply hundredths_round_trip; cbn [cents_value]; lia.
  - apply hundredths_round_trip; cbn [cents_value]; lia.
Qed.

End PriceDigits.

(** every character of the digits and the decimal part of a price passes
    a test that digits, the comma and the dot pass *)
Lemma price_chars (q : ascii -> bool) (body : string) (cents : option (ascii * ascii)) :
  (forall c, is_digit c = true -> q c = true) ->
  q ","%char = true -> q "."%char = true ->
  forallb_chars is_body_char body = true ->
  cents_ok cents = true ->
  forallb_chars q (body ++ cents_text cents) = true.
Proof.
  intros Hq Hcomma Hdot Hb Hc. rewrite forallb_chars_app. apply andb_true_iff. split.
  - eapply forallb_chars_impl; [| exact Hb].
    intros c H. apply body_char_cases in H as [H | ->]; auto.
  - destruct cents as [[a b]|]; [| reflexivity].
    simpl in Hc. apply andb_true_iff in Hc as [Ha Hb'].
    cbn [cents_text forallb_chars]. rewrite Hdot, (Hq a Ha), (Hq b Hb'). reflexivity.
Qed.

(** removing the commas of a price leaves its digits and decimal part *)
Lemma replace_commas (body : string) (cents : option (ascii * ascii)) :
  forallb_chars is_body_char body = true ->
  cents_ok cents = true ->
  replace "," "" (body ++ cents_text cents)
  = filter_chars is_digit body ++ cents_text cents.
Proof.
  intros Hb Hc. rewrite replace_char, filter_chars_app. f_equal.
  - apply (filter_chars_ext _ _ is_body_char); [| assumption].
    intros c H. apply body_char_cases in H as [H | ->]; [| reflexivity].
    rewrite H. rewrite Ascii.eqb_sym, (digit_neq c "," H eq_refl). reflexivity.
  - apply filter_chars_all.
    destruct cents as [[a b]|]; [| reflexivity].
    simpl in Hc. apply andb_true_iff in Hc as [Ha Hb'].
    cbn [cents_text forallb_chars].
    rewrite (Ascii.eqb_sym "," a), (digit_neq a "," Ha eq_refl).
    rewrite (Ascii.eqb_sym "," b), (digit_neq b "," Hb' eq_refl). reflexivity.
Qed.

(** *** Normalized prices *)

Lemma price_body_split (body : string) :
  price_body body = true ->
  forallb_chars is_body_char body = true /\
  exists d rest, body = String d rest /\ is_digit d = true.
Proof.
  destruct body as [|d rest]; [discriminate |].
  unfold price_body. intros H. apply andb_true_iff in H as [Hd Hb].
  split; [assumption |]. exists d, rest. split; [reflexivity | assumption].
Qed.

(** the digits of a price, commas removed, read and formatted *)
Lemma format_of_price_body (body : string) (cents : option (ascii * ascii)) :
  price_body body = true ->
  cents_ok cents = true ->
  (int_value body < 2 ^ 46)%Z ->
  exists f,
    float_of_string (filter_chars is_digit body ++ cents_text cents) = Some f /\
    format_comma_2f f = format_hundredths (price_value body cents).
Proof.
  intros Hbody Hc Hlt.
  destruct (price_body_split body Hbody) as (Hb & d & rest & -> & Hd).
  unfold price_value, int_value in *.
  cbn [filter_chars] in *. rewrite Hd in *.
  apply format_of_price_digits; try assumption.
  apply forallb_filter_chars.
Qed.

Lemma price_of_text (dollar : bool) (ws body : string) (cents : option (ascii * ascii)) :
  forallb_chars is_space ws = true ->
  price_body body = true ->
  cents_ok cents = true ->
  (int_value body < 2 ^ 46)%Z ->
  Original._extract_price_from_cell (CStr (price_text dollar ws body cents))
  = Ok (Some ("$" ++ format_hundredths (price_value body cents))).
Proof.
  intros Hws Hbody Hc Hlt.
  destruct (format_of_price_body body cents Hbody Hc Hlt) as (f & Hf & Hfmt).
  destruct (price_body_split body Hbody) as (Hb & d & rest & Ebody & Hd).
  assert (Hnsp : forallb_chars (fun c => negb (is_space c)) (body ++ cents_text cents) = true).
  { apply price_chars; try assumption; try reflexivity.
    intros c H. rewrite (digit_not_space c H). reflexivity. }
  assert (Hne : body ++ cents_text cents <> "") by (rewrite Ebody; discriminate).
  unfold Original._extract_price_from_cell, price_text.
  destruct dollar.
  - assert (Hstrip : strip ("$" ++ ws ++ body ++ cents_text cents)
                     = String "$" (ws ++ body ++ cents_text cents)).
    { unfold strip. cbn [append lstrip_by].
      change (is_space "$") with false. cbv iota.
      apply (rstrip_by_app is_space (String "$" ws)); assumption. }
    rewrite Hstrip, re_price_match by assumption.
    unfold Original.group1. cbn [group Nat.eqb].
    rewrite replace_commas, Hf, Hfmt by assumption. reflexivity.
  - assert (Hstrip : strip ("" ++ ws ++ body ++ cents_text cents)
                     = body ++ cents_text cents).
    { unfold strip. cbn [append]. rewrite Ebody. cbn [append].
      rewrite lstrip_by_app by (assumption || apply digit_not_space; assumption).
      rewrite Ebody in Hnsp. apply rstrip_by_none. exact Hnsp. }
    rewrite Hstrip.
    unfold search. rewrite re_price_no_dollar.
    + rewrite replace_commas by assumption.
      assert (Hclean : strip (replace "$" ""
                                (filter_chars is_digit body ++ cents_text cents))
                       = filter_chars is_digit body ++ cents_text cents).
      { rewrite replace_char.
        assert (Hd' : forallb_chars is_body_char (filter_chars is_digit body) = true).
        { eapply forallb_chars_impl; [| apply forallb_filter_chars].
          intros c H. unfold is_body_char. rewrite H. reflexivity. }
        rewrite filter_chars_all.
        - unfold strip.
          assert (Hns : forallb_chars (fun c => negb (is_space c))
                                      (filter_chars is_digit body ++ cents_text cents) = true).
          { apply price_chars; try assumption; try reflexivity.
            intros c H. rewrite (digit_not_space c H). reflexivity. }
          rewrite Ebody in *. cbn [filter_chars] in *. rewrite Hd in *.
          cbn [append lstrip_by] in *. rewrite (digit_not_space d Hd).
          apply rstrip_by_none. exact Hns.
        - apply price_chars; try assumption; try reflexivity.
          intros c H. rewrite (digit_neq c "$" H eq_refl) || 
            (rewrite Ascii.eqb_sym, (digit_neq c "$" H eq_refl)). reflexivity. }
      rewrite Hclean, Hf, Hfmt. reflexivity.
    + apply price_chars; try assumption; try reflexivity.
      intros c H. rewrite Ascii.eqb_sym, (digit_neq c "$" H eq_refl). reflexivity.
Qed.

(** C3, as the code has it, for the original pipeline.  A price cell
    whose text is an optional dollar sign, optional white space, digits
    with optional commas and an optional decimal part of two digits, of a
    value below 2^46, is normalized to a dollar sign followed by the
    value with exactly two decimal places and a comma before every group
    of three digits; that text is the Price of the record built from the
    row. *)
Theorem price_text_normalized
        (dollar : bool) (ws body : string) (cents : option (ascii * ascii)) :
  forallb_chars is_space ws = true ->
  price_body body = true ->
  cents_ok cents = true ->
  (int_value body < 2 ^ 46)%Z ->
  Original._extract_price_from_cell (CStr (price_text dollar ws body cents))
  = Ok (Some ("$" ++ format_hundredths (price_value body cents))) /\
  forall (r : row) (ix : Original.indices) (i : nat),
    Original.i_price ix = Some i ->
    nth i r CNone = CStr (price_text dollar ws body cents) ->
    exists rc,
      Original._normalize_row r ix false = Ok (Some rc) /\
      price rc = "$" ++ format_hundredths (price_value body cents).
Proof.
  intros Hws Hbody Hc Hlt.
  pose proof (price_of_text dollar ws body cents Hws Hbody Hc Hlt) as E.
  split; [exact E |].
  intros r ix i Hi Hnth.
  unfold Original._normalize_row. rewrite Hi.
  unfold Original.cell_at at 1. rewrite Hnth, E. cbn [bind].
  eexists. split; reflexivity.
Qed.

Lemma price_text_normalized_witness :
  Original._extract_price_from_cell (CStr "$ 1,234.50") = Ok (Some "$1,234.50").
Proof.
  apply (proj1 (price_text_normalized true " " "1,234" (Some ("5", "0")%char)
                                      eq_refl eq_refl eq_refl eq_refl)).
Defined.

(** C3 as stated fails.  The original pipeline writes the price with
    thousands separators, so the text [1,234.5] gives [$1,234.50] and not
    the plain [$1234.50]; above 2^46 the value is rounded to the nearest
    binary64 first, which changes the cents; and the simplified pipeline
    only puts a dollar sign in front of the text. *)
Lemma price_keeps_thousands_separators :
  Original._extract_price_from_cell (CStr "1,234.5") = Ok (Some "$1,234.50") /\
  "$" ++ format_plain_hundredths 123450 = "$1234.50" /\
  Original._extract_price_from_cell (CStr "70368744177664.01")
  = Ok (Some "$70,368,744,177,664.02") /\
  Simplified.process_row [] (Samples.text_cells ["750-500"; "8-Channel Module"; "1,234.5"])
  = Ok [mk_record "750-500" "" "8-Channel Module" "$1,234.5" ""].
Proof.
  repeat split; vm_compute; reflexivity.
Qed.

(* ------------------------------------------------------------------ *)
(** ** Further properties of the two parsers *)

(** *** The column roles are inferred once *)

Lemma original_process_row_roles (ix : Original.indices) (records : list record)
      (r : row) (st' : Original.state) :
  Original.process_row (Some ix, records) r = Ok st' -> fst st' = Some ix.
Proof.
  unfold Original.process_row.
  destruct r as [|c r]; [intros H; inversion H; reflexivity |].
  set (rw := Original.pad5 (c :: r)).
  rewrite andb_false_r.
  destruct (Original._is_header_row rw); [intros H; inversion H; reflexivity |].
  destruct (Original._row_looks_like_series_discount rw ix) as [sd|e]; cbn [bind];
    [| discriminate].
  destruct (if sd then Ok true else Original._row_has_price rw (Original.i_price ix))
    as [priced|e]; cbn [bind]; [| discriminate].
  destruct (negb sd && negb priced); [intros H; inversion H; reflexivity |].
  destruct (Original._normalize_row rw ix sd) as [[rc|]|e]; cbn [bind];
    try discriminate; intros H; inversion H; reflexivity.
Qed.

(** X1: once a row has fixed the column roles, every later row and every
    later table of the document is read with the same roles: a header row
    of a later table is skipped, its labels are not looked at again. *)
Theorem roles_are_inferred_once
        (ts : list table) (ix : Original.indices) (records : list record)
        (st' : Original.state) :
  for_each Original.process_table ts (Some ix, records) = Ok st' ->
  fst st' = Some ix.
Proof.
  apply (for_each_invariant (fun st => fst st = Some ix) Original.process_table);
    [| reflexivity].
  intros [o recs] t st1 Ho. simpl in Ho. subst o.
  unfold Original.process_table.
  destruct (List.length t <? 2); [intros H; inversion H; reflexivity |].
  apply (for_each_invariant (fun st => fst st = Some ix) Original.process_row);
    [| reflexivity].
  intros [o recs'] r st2 Ho. simpl in Ho. subst o.
  apply original_process_row_roles.
Qed.

Lemma roles_are_inferred_once_witness :
  exists st,
    for_each Original.process_table [Samples.priced_and_discounted]
             (Some (Original.mk_indices None None None (Some 3) (Some 4)), []) = Ok st /\
    fst st = Some (Original.mk_indices None None None (Some 3) (Some 4)).
Proof.
  eexists. split; [vm_compute; reflexivity |].
  apply (roles_are_inferred_once
           [Samples.priced_and_discounted]
           (Original.mk_indices None None None (Some 3) (Some 4)) []).
  vm_compute. reflexivity.
Defined.

(** *** Records are appended, at most one for a row *)

Lemma for_each_appends {S A R : Type} (proj : S -> list R) (size : A -> nat)
      (body : S -> A -> result S) :
  (forall st a st', body st a = Ok st' ->
                    exists l, proj st' = (proj st ++ l)%list /\ List.length l <= size a) ->
  forall l st st',
    for_each body l st = Ok st' ->
    exists l', proj st' = (proj st ++ l')%list /\ List.length l' <= list_sum (map size l).
Proof.
  intros Hb. induction l as [|a l IH]; intros st st' H; simpl in H.
  - inversion H; subst. exists []. rewrite app_nil_r. split; [reflexivity | simpl; lia].
  - destruct (body st a) as [st1|e] eqn:E; simpl in H; [| discriminate].
    apply Hb in E as (l1 & E1 & L1).
    apply IH in H as (l2 & E2 & L2).
    exists (l1 ++ l2)%list. rewrite E2, E1, <- app_assoc. split; [reflexivity |].
    rewrite length_app. simpl. lia.
Qed.

Lemma original_row_appends (st st' : Original.state) (r : row) :
  Original.process_row st r = Ok st' ->
  exists l, snd st' = (snd st ++ l)%list /\ List.length l <= 1.
Proof.
  destruct st as [indices records]. cbn [snd].
  assert (Same : forall o : option Original.indices,
             exists l, snd (o, records) = (records ++ l)%list /\ List.length l <= 1).
  { intros o. exists []. rewrite app_nil_r. split; [reflexivity | simpl; lia]. }
  unfold Original.process_row.
  destruct r as [|c r]; [intros H; inversion H; apply Same |].
  set (rw := Original.pad5 (c :: r)).
  destruct (Original._is_header_row rw && Original.is_none indices);
    [intros H; inversion H; apply Same |].
  set (ix := match indices with Some ix => ix | None => _ end).
  destruct (Original._is_header_row rw); [intros H; inversion H; apply Same |].
  destruct (Original._row_looks_like_series_discount rw ix) as [sd|e]; cbn [bind];
    [| discriminate].
  destruct (if sd then Ok true else Original._row_has_price rw (Original.i_price ix))
    as [priced|e]; cbn [bind]; [| discriminate].
  destruct (negb sd && negb priced); [intros H; inversion H; apply Same |].
  destruct (Original._normalize_row rw ix sd) as [[rc|]|e]; cbn [bind];
    try discriminate; intros H; inversion H; [| apply Same].
  exists [rc]. split; [reflexivity | simpl; lia].
Qed.

Lemma simplified_row_appends (acc acc' : list record) (r : row) :
  Simplified.process_row acc r = Ok acc' ->
  exists l, acc' = (acc ++ l)%list /\ List.length l <= 1.
Proof.
  assert (Same : exists l, acc = (acc ++ l)%list /\ List.length l <= 1).
  { exists []. rewrite app_nil_r. split; [reflexivity | simpl; lia]. }
  unfold Simplified.process_row.
  destruct r as [|c0 [|c1 [|c2 rest]]];
    try (intros H; inversion H; subst; exact Same).
  destruct (Simplified.strip_method (Simplified.or_empty c2)) as [price|e]; cbn [bind];
    [| discriminate].
  destruct (is_empty price); [intros H; inversion H; subst; exact Same |].
  destruct (Simplified.strip_method (Simplified.or_empty c0)) as [part0|e]; cbn [bind];
    [| discriminate].
  destruct (Simplified.strip_method (Simplified.or_empty c1)) as [desc0|e]; cbn [bind];
    [| discriminate].
  match goal with
  | |- (if ?c then _ else _) = _ -> _ => destruct c
  end.
  - destruct (search Simplified.RE_SERIES_DISCOUNT _);
      intros H; inversion H; eexists; (split; [reflexivity | simpl; lia]).
  - intros H; inversion H; eexists; (split; [reflexivity | simpl; lia]).
Qed.

(** Both parsers only ever append to the record list: after the loop the
    list is the one before it followed by no more records than there
    were rows. *)
Lemma appended_records_are_bounded :
  (forall (ts : list table) (st st' : Original.state),
     for_each Original.process_table ts st = Ok st' ->
     exists l, snd st' = (snd st ++ l)%list /\ List.length l <= total_rows ts) /\
  (forall (pdf : document) (acc acc' : list record),
     for_each Simplified.process_page pdf acc = Ok acc' ->
     exists l, acc' = (acc ++ l)%list /\ List.length l <= list_sum (map page_rows pdf)).
Proof.
  split.
  - intros ts st st'. unfold total_rows.
    apply (for_each_appends (@snd (option Original.indices) (list record))
                            (@List.length row) Original.process_table).
    clear. intros st t st'. unfold Original.process_table.
    destruct (List.length t <? 2).
    + intros H; inversion H; subst. exists []. rewrite app_nil_r.
      split; [reflexivity | simpl; lia].
    + intros H.
      apply (for_each_appends (@snd (option Original.indices) (list record))
                              (fun _ => 1) Original.process_row) in H.
      * destruct H as (l & E & L). exists l. split; [assumption |].
        assert (K : forall rows : list row,
                   list_sum (map (fun _ => 1) rows) = List.length rows)
          by (induction rows; simpl; lia).
        rewrite K in L. exact L.
      * intros s a s'. apply original_row_appends.
  - intros pdf acc acc'.
    apply (for_each_appends (fun l : list record => l) page_rows Simplified.process_page).
    clear. intros acc p acc'. unfold Simplified.process_page, page_rows.
    destruct (extract_table p) as [[t|]|e]; cbn [bind]; try discriminate.
    + destruct t as [|r0 t].
      * intros H; inversion H; subst. exists []. rewrite app_nil_r.
        split; [reflexivity | simpl; lia].
      * intros H.
        apply (for_each_appends (fun l : list record => l) (fun _ => 1)
                                Simplified.process_row) in H.
        -- destruct H as (l & E & L). exists l. split; [assumption |].
           assert (K : forall rows : list row,
                      list_sum (map (fun _ => 1) rows) = List.length rows)
             by (induction rows; simpl; lia).
           rewrite K in L.
           destruct (Simplified.has_header (r0 :: t)); simpl in *; lia.
        -- intros s a s'. apply simplified_row_appends.
    + intros H; inversion H; subst. exists []. rewrite app_nil_r.
      split; [reflexivity | simpl; lia].
Qed.

(** *** How a data row is classified *)

Lemma format_comma_2f_nonempty (f : pyfloat) : format_comma_2f f <> "".
Proof.
  destruct f as [| neg | neg m e]; simpl.
  - discriminate.
  - destruct neg; discriminate.
  - unfold format_hundredths.
    destruct neg; [discriminate |].
    destruct (group3 (str_of_nonneg (hundredths m e / 100))); discriminate.
Qed.

Lemma price_text_nonempty (c : cell) (p : string) :
  Original._extract_price_from_cell c = Ok (Some p) -> p <> "".
Proof.
  unfold Original._extract_price_from_cell.
  destruct c as [| s | z | f].
  - discriminate.
  - destruct (search Original.RE_PRICE (strip s)).
    + destruct (float_of_string _); intros H; inversion H; discriminate.
    + destruct (float_of_string _); intros H; inversion H; discriminate.
  - destruct (float_of_Z z); intros H; inversion H. apply format_comma_2f_nonempty.
  - destruct (is_nan f); intros H; inversion H. apply format_comma_2f_nonempty.
Qed.

(** X3: with the column roles known, a data row (not empty, not header
    like) is classified by its price cell first.  If the price cell
    parses, the row becomes a product record that carries the parsed
    price and whatever its discount cell gives; if it does not parse but
    the discount cell does, the row becomes a series-discount record with
    Part Number and Price empty; if neither parses, the row is dropped. *)
Theorem data_row_classification
        (r0 : row) (ix : Original.indices) (records : list record) (i : nat) :
  r0 <> [] ->
  Original._is_header_row (Original.pad5 r0) = false ->
  Original.i_price ix = Some i ->
  let rw := Original.pad5 r0 in
  let part := Original._clean_part_number (Original.get rw (Original.i_part ix)) in
  let series := Original._series_numeric_only (Original.get rw (Original.i_series ix)) in
  let desc := Original._clean_text (Original.get rw (Original.i_description ix)) in
  let disc := Original._extract_discount_from_cell
                (match Original.i_discount ix with
                 | Some j => Original.cell_at rw j
                 | None => CNone
                 end) in
  (forall p,
     Original._extract_price_from_cell (nth i rw CNone) = Ok (Some p) ->
     Original.process_row (Some ix, records) r0
     = Ok (Some ix,
           (records ++ [mk_record part series desc p (Original.opt_or_empty disc)])%list)) /\
  (forall d,
     Original._extract_price_from_cell (nth i rw CNone) = Ok None ->
     disc = Some d ->
     Original.process_row (Some ix, records) r0
     = Ok (Some ix,
           (records ++ [mk_record ""
                                  (Original.or_str series
                                     (Original.or_str (Original._series_numeric_only part)
                                                      (Original._series_numeric_only desc)))
                                  desc "" d])%list)) /\
  (Original._extract_price_from_cell (nth i rw CNone) = Ok None ->
   disc = None ->
   Original.process_row (Some ix, records) r0 = Ok (Some ix, records)).
Proof.
  intros Hne Hh Hi rw part series desc disc.
  assert (Hdisc : match Original.i_discount ix with
                  | None => false
                  | Some j => negb (Original.is_none
                                      (Original._extract_discount_from_cell
                                         (Original.cell_at rw j)))
                  end = negb (Original.is_none disc)).
  { unfold disc. destruct (Original.i_discount ix); reflexivity. }
  assert (Hsd : forall o,
             Original._extract_price_from_cell (nth i rw CNone) = Ok o ->
             Original._row_looks_like_series_discount rw ix
             = Ok (negb (Original.is_none disc) && Original.is_none o)).
  { intros o Ho. unfold Original._row_looks_like_series_discount.
    rewrite Hi, Hdisc. unfold Original.cell_at. rewrite Ho. cbn [bind].
    destruct o; reflexivity. }
  assert (Hhp : forall o,
             Original._extract_price_from_cell (nth i rw CNone) = Ok o ->
             Original._row_has_price rw (Some i) = Ok (negb (Original.is_none o))).
  { intros o Ho. unfold Original._row_has_price, Original.cell_at.
    destruct (Nat.leb_spec (List.length rw) i) as [Hle | Hlt].
    - rewrite nth_overflow in Ho by assumption. inversion Ho. reflexivity.
    - rewrite Ho. reflexivity. }
  assert (E : Original.process_row (Some ix, records) r0
               = (is_series_discount <- Original._row_looks_like_series_discount rw ix ;;
                  priced <- (if is_series_discount then Ok true
                             else Original._row_has_price rw (Original.i_price ix)) ;;
                  if negb is_series_discount && negb priced then Ok (Some ix, records)
                  else
                    rec <- Original._normalize_row rw ix is_series_discount ;;
                    match rec with
                    | Some rc => Ok (Some ix, (records ++ [rc])%list)
                    | None => Ok (Some ix, records)
                    end)).
  { unfold Original.process_row.
    destruct r0 as [|c r]; [congruence |].
    rewrite Hh. reflexivity. }
  rewrite E. clear E.
  split; [| split].
  - intros p Hp. rewrite (Hsd _ Hp). cbn [Original.is_none andb bind].
    rewrite andb_false_r. cbn [bind negb andb].
    rewrite Hi, (Hhp _ Hp). cbn [Original.is_none negb bind andb].
    unfold Original._normalize_row. rewrite Hi. unfold Original.cell_at at 1.
    rewrite Hp. cbn [bind].
    pose proof (price_text_nonempty _ _ Hp) as Hpne.
    destruct p as [|a p]; [congruence |]. reflexivity.
  - intros d Hp Hd. rewrite (Hsd _ Hp), Hd. cbn [Original.is_none negb andb bind].
    unfold Original._normalize_row. cbn [bind]. fold disc. rewrite Hd. reflexivity.
  - intros Hp Hd. rewrite (Hsd _ Hp), Hd. cbn [Original.is_none negb andb bind].
    rewrite Hi, (Hhp _ Hp). reflexivity.
Qed.

Lemma data_row_classification_witness :
  Original.process_row
    (Some (Original.mk_indices (Some 0) (Some 1) (Some 2) (Some 3) (Some 4)), [])
    (Samples.text_cells ["750-500"; "750"; "8-Channel Module"; "$10.00"; "5%"])
  = Ok (Some (Original.mk_indices (Some 0) (Some 1) (Some 2) (Some 3) (Some 4)),
        [mk_record "750-500" "750" "8-Channel Module" "$10.00" "5%"]).
Proof.
  apply (proj1 (data_row_classification
                  (Samples.text_cells ["750-500"; "750"; "8-Channel Module"; "$10.00"; "5%"])
                  (Original.mk_indices (Some 0) (Some 1) (Some 2) (Some 3) (Some 4))
                  [] 3 ltac:(discriminate) eq_refl eq_refl) "$10.00").
  reflexivity.
Defined.

(** *** Inferred roles point into the header row *)

Lemma infer_lookup (header_row : row) (r : Original.role) :
  lookup_role (Original._infer_column_indices header_row) r
  = match lookup_role (Original.header_scan (Original.header_cells header_row)) r with
    | Some i => Some i
    | None => positional_default r (List.length header_row)
    end.
Proof.
  unfold Original._infer_column_indices.
  assert (L : List.length (Original.header_cells header_row) = List.length header_row)
    by apply length_map.
  rewrite L.
  destruct (Original.header_scan (Original.header_cells header_row))
    as [ip is_ id ipr idi].
  unfold positional_default.
  destruct (4 <=? List.length header_row); destruct (5 <=? List.length header_row);
    destruct r, ip, is_, id, ipr, idi; reflexivity.
Qed.

(** X4: every column that [_infer_column_indices] gives to a role is a
    column of the header row; and on a row of at least five cells, which
    is what [parse_pdf] passes after padding, the price and the discount
    role are always assigned, so the defaults that [parse_pdf] applies
    afterwards never come into play. *)
Theorem inferred_roles_are_columns (header_row : row) :
  (forall r i,
     lookup_role (Original._infer_column_indices header_row) r = Some i ->
     i < List.length header_row) /\
  (5 <= List.length header_row ->
   Original.is_none (Original.i_price (Original._infer_column_indices header_row)) = false /\
   Original.is_none (Original.i_discount (Original._infer_column_indices header_row)) = false).
Proof.
  assert (L : List.length (Original.header_cells header_row) = List.length header_row)
    by apply length_map.
  split.
  - intros r i. rewrite infer_lookup.
    destruct (lookup_role (Original.header_scan (Original.header_cells header_row)) r)
      as [j|] eqn:E.
    + intros H; inversion H; subst.
      rewrite header_scan_role in E.
      apply (last_index_some _ "") in E as (Hlt & _). lia.
    + unfold positional_default.
      destruct r; try discriminate.
      * destruct (Nat.leb_spec 4 (List.length header_row)); [| discriminate].
        intros K; inversion K. lia.
      * destruct (Nat.leb_spec 5 (List.length header_row)); [| discriminate].
        intros K; inversion K. lia.
  - intros H5.
    pose proof (infer_lookup header_row Original.RPrice) as Ep.
    pose proof (infer_lookup header_row Original.RDiscount) as Ed.
    cbn [lookup_role] in Ep, Ed. rewrite Ep, Ed. unfold positional_default.
    destruct (Nat.leb_spec 4 (List.length header_row)); [| lia].
    destruct (Nat.leb_spec 5 (List.length header_row)); [| lia].
    split.
    + destruct (Original.i_price
                  (Original.header_scan (Original.header_cells header_row)));
        reflexivity.
    + destruct (Original.i_discount
                  (Original.header_scan (Original.header_cells header_row)));
        reflexivity.
Qed.

Lemma inferred_roles_are_columns_witness :
  Original.is_none (Original.i_price (Original._infer_column_indices Samples.doubled_header))
  = false /\
  Original.is_none (Original.i_discount (Original._infer_column_indices Samples.doubled_header))
  = false.
Proof.
  apply (proj2 (inferred_roles_are_columns Samples.doubled_header)).
  simpl. lia.
Defined.

(** *** The pages that are scanned first *)

Lemma existsb_eqb_in (x : nat) (l : list nat) :
  existsb (Nat.eqb x) l = true <-> In x l.
Proof.
  rewrite existsb_exists. split.
  - intros (y & Hy & E). apply Nat.eqb_eq in E. subst. assumption.
  - intros H. exists x. split; [assumption | apply Nat.eqb_refl].
Qed.

(** X5: for a document of more than one page the first scan reads the
    pages 1 to 8 that exist and the last page, each once and in rising
    order of the first range; page 0, the cover, is not among them.  A
    document of one page (or none) has the single index 0. *)
Theorem first_scan_pages (n : nat) :
  (n <= 1 -> Original.page_indices n = [0]) /\
  (1 < n ->
   (forall i, In i (Original.page_indices n)
              <-> 1 <= i < n /\ (i <= 8 \/ i = n - 1)) /\
   NoDup (Original.page_indices n) /\
   List.length (Original.page_indices n) <= 9).
Proof.
  unfold Original.page_indices. split.
  - intros H. destruct (Nat.ltb_spec 1 n); [lia | reflexivity].
  - intros H. destruct (Nat.ltb_spec 1 n); [| lia]. cbn [andb].
    set (l := seq 1 (Nat.min 9 n - 1)).
    assert (Hin : forall i, In i l <-> 1 <= i < n /\ i <= 8).
    { intros i. unfold l. rewrite in_seq. lia. }
    destruct (existsb (Nat.eqb (n - 1)) l) eqn:E; cbn [negb].
    + apply existsb_eqb_in in E. apply Hin in E.
      split; [| split].
      * intros i. rewrite Hin. intuition lia.
      * apply seq_NoDup.
      * unfold l. rewrite length_seq. lia.
    + assert (Hnot : ~ In (n - 1) l).
      { intros Hc. apply existsb_eqb_in in Hc. congruence. }
      split; [| split].
      * intros i. rewrite in_app_iff, Hin. simpl.
        rewrite Hin in Hnot. intuition lia.
      * apply NoDup_app; [apply seq_NoDup | repeat constructor; intros [] |].
        intros x Hx [<- | []]. contradiction.
      * rewrite length_app. unfold l. rewrite length_seq.
        cbn [Datatypes.length]. lia.
Qed.

Lemma first_scan_pages_witness :
  In 11 (Original.page_indices 12) /\ ~ In 0 (Original.page_indices 12) /\
  ~ In 9 (Original.page_indices 12).
Proof.
  destruct (proj2 (first_scan_pages 12) ltac:(lia)) as (H & _).
  repeat split; rewrite H; lia.
Defined.

(** *** Cleaning part numbers and descriptions *)

Lemma split_ws_nonspace_head (c : ascii) (s : string) :
  is_space c = false -> split_ws (String c s) <> [].
Proof.
  intros H. cbn [split_ws]. rewrite H.
  destruct s as [|c' s]; [discriminate |].
  destruct (is_space c'); [discriminate |].
  destruct (split_ws (String c' s)); discriminate.
Qed.

Lemma split_ws_words (s : string) : Forall is_word (split_ws s).
Proof.
  induction s as [|c s IH]; [constructor |].
  cbn [split_ws]. destruct (is_space c) eqn:Ec; [exact IH |].
  assert (W1 : is_word (String c "")).
  { split; [discriminate |]. cbn [forallb_chars]. unfold not_space. rewrite Ec. reflexivity. }
  destruct s as [|c' s]; [constructor; [exact W1 | constructor] |].
  destruct (is_space c') eqn:Ec'; [constructor; [exact W1 | exact IH] |].
  destruct (split_ws (String c' s)) as [|w ws]; [constructor; [exact W1 | constructor] |].
  inversion IH as [|w' ws' [Hw1 Hw2] Hws]; subst.
  constructor; [| assumption].
  split; [discriminate |]. cbn [forallb_chars]. unfold not_space at 1.
  rewrite Ec, Hw2. reflexivity.
Qed.

Lemma filter_join_cons (w : string) (ws : list string) :
  filter_chars not_space (join " " (w :: ws))
  = filter_chars not_space w ++ filter_chars not_space (join " " ws).
Proof.
  unfold join. cbn [String.concat]. destruct ws as [|w' ws].
  - cbn [String.concat filter_chars]. rewrite string_app_nil_r. reflexivity.
  - rewrite !filter_chars_app. reflexivity.
Qed.

Lemma filter_join_split (s : string) :
  filter_chars not_space (join " " (split_ws s)) = filter_chars not_space s.
Proof.
  induction s as [|c s IH]; [reflexivity |].
  cbn [split_ws filter_chars]. unfold not_space at 2.
  destruct (is_space c) eqn:Ec; cbn [negb]; [exact IH |].
  assert (C1 : forall l, filter_chars not_space (join " " (String c "" :: l))
                         = String c (filter_chars not_space (join " " l))).
  { intros l. rewrite filter_join_cons. cbn [filter_chars]. unfold not_space at 1.
    rewrite Ec. reflexivity. }
  destruct s as [|c' s]; [rewrite C1; reflexivity |].
  destruct (is_space c') eqn:Ec'.
  - rewrite C1, IH. reflexivity.
  - destruct (split_ws (String c' s)) as [|w ws] eqn:E.
    + exfalso. apply (split_ws_nonspace_head c' s Ec'). exact E.
    + rewrite <- IH, !filter_join_cons.
      cbn [filter_chars]. unfold not_space at 1. rewrite Ec. reflexivity.
Qed.

Lemma filter_lstrip (s : string) :
  filter_chars not_space (lstrip_by is_space s) = filter_chars not_space s.
Proof.
  induction s as [|c s IH]; [reflexivity |].
  cbn [lstrip_by filter_chars]. unfold not_space at 2.
  destruct (is_space c) eqn:Ec; cbn [negb]; [exact IH |].
  cbn [filter_chars]. unfold not_space at 1. rewrite Ec. reflexivity.
Qed.

Lemma filter_rstrip (s : string) :
  filter_chars not_space (rstrip_by is_space s) = filter_chars not_space s.
Proof.
  induction s as [|c s IH]; [reflexivity |].
  cbn [rstrip_by]. destruct (rstrip_by is_space s) as [|c' t] eqn:E.
  - cbn [filter_chars] in IH.
    destruct (is_space c) eqn:Ec; cbn [filter_chars];
      change (not_space c) with (negb (is_space c));
      rewrite Ec; cbn [negb]; rewrite <- IH; reflexivity.
  - cbn [filter_chars]. rewrite <- IH. reflexivity.
Qed.

Lemma filter_strip (s : string) :
  filter_chars not_space (strip s) = filter_chars not_space s.
Proof.
  unfold strip. rewrite filter_rstrip. apply filter_lstrip.
Qed.

Lemma string_append_assoc (a b c : string) : (a ++ b) ++ c = a ++ b ++ c.
Proof.
  induction a as [|x a IH]; simpl; [reflexivity | rewrite IH; reflexivity].
Qed.

Lemma rstrip_join_words (ws : list string) :
  Forall is_word ws -> rstrip_by is_space (join " " ws) = join " " ws.
Proof.
  unfold join. induction ws as [|w ws IH]; intros HF; [reflexivity |].
  inversion HF as [|w' ws' [Hne Hw] Hws]; subst.
  cbn [String.concat]. destruct ws as [|w2 ws].
  - apply rstrip_by_none. exact Hw.
  - specialize (IH Hws).
    remember (String.concat " " (w2 :: ws)) as t eqn:Et.
    assert (Hl : exists u v, t = u ++ v /\ v <> ""
                             /\ forallb_chars (fun c => negb (is_space c)) v = true).
    { subst t. clear - Hws. revert Hws. generalize w2.
      induction ws as [|w3 ws IHws]; intros w0 Hws.
      - inversion Hws as [|x y [Hne Hw] _]; subst.
        exists "", w0. repeat split; assumption.
      - inversion Hws as [|x y [Hne Hw] Hrest]; subst.
        destruct (IHws w3 Hrest) as (u & v & E & Hv & Hall).
        cbn [String.concat] in *.
        exists (w0 ++ " " ++ u), v. rewrite E.
        split; [| split; assumption].
        rewrite !string_append_assoc. reflexivity. }
    destruct Hl as (u & v & E & Hv & Hall).
    rewrite E.
    replace (w ++ " " ++ u ++ v) with ((w ++ " " ++ u) ++ v)
      by (rewrite !string_append_assoc; reflexivity).
    apply rstrip_by_app; assumption.
Qed.

Lemma lstrip_join_words (ws : list string) :
  Forall is_word ws -> lstrip_by is_space (join " " ws) = join " " ws.
Proof.
  intros HF. destruct ws as [|w ws]; [reflexivity |].
  inversion HF as [|w' ws' [Hne Hw] Hws]; subst.
  destruct w as [|c w]; [congruence |].
  cbn [forallb_chars] in Hw. apply andb_true_iff in Hw as [Hc _].
  apply negb_true_iff in Hc.
  unfold join. cbn [String.concat].
  destruct ws; cbn [append lstrip_by]; rewrite Hc; reflexivity.
Qed.

Lemma strip_join_words (ws : list string) :
  Forall is_word ws -> strip (join " " ws) = join " " ws.
Proof.
  intros HF. unfold strip. rewrite lstrip_join_words by assumption.
  apply rstrip_join_words. assumption.
Qed.

Lemma split_ws_word_then (w t : string) :
  is_word w -> split_ws (w ++ String " " t) = w :: split_ws t.
Proof.
  induction w as [|c w IH]; intros [Hne Hw]; [congruence |].
  cbn [forallb_chars] in Hw. apply andb_true_iff in Hw as [Hc Hw].
  apply negb_true_iff in Hc.
  cbn [append split_ws]. rewrite Hc.
  destruct w as [|c' w].
  - cbn [append]. change (is_space " ") with true. cbv iota.
    cbn [split_ws]. change (is_space " ") with true. cbv iota. reflexivity.
  - assert (Hc' : is_space c' = false).
    { cbn [forallb_chars] in Hw. apply andb_true_iff in Hw as [H _].
      apply negb_true_iff in H. exact H. }
    cbn [append]. rewrite Hc'.
    change (String c' (w ++ String " " t)) with (String c' w ++ String " " t).
    rewrite IH by (split; [discriminate | exact Hw]). reflexivity.
Qed.

Lemma split_ws_word (w : string) : is_word w -> split_ws w = [w].
Proof.
  induction w as [|c w IH]; intros [Hne Hw]; [congruence |].
  cbn [forallb_chars] in Hw. apply andb_true_iff in Hw as [Hc Hw].
  apply negb_true_iff in Hc.
  cbn [split_ws]. rewrite Hc.
  destruct w as [|c' w]; [reflexivity |].
  assert (Hc' : is_space c' = false).
  { cbn [forallb_chars] in Hw. apply andb_true_iff in Hw as [H _].
    apply negb_true_iff in H. exact H. }
  rewrite Hc'. rewrite IH by (split; [discriminate | exact Hw]). reflexivity.
Qed.

Lemma split_ws_join (ws : list string) :
  Forall is_word ws -> split_ws (join " " ws) = ws.
Proof.
  unfold join. induction ws as [|w ws IH]; intros HF; [reflexivity |].
  inversion HF as [|w' ws' Hw Hws]; subst.
  cbn [String.concat]. destruct ws as [|w2 ws].
  - apply split_ws_word. assumption.
  - change (w ++ " " ++ String.concat " " (w2 :: ws))
      with (w ++ String " " (String.concat " " (w2 :: ws))).
    rewrite split_ws_word_then by assumption.
    rewrite IH by assumption. reflexivity.
Qed.

Lemma join_words_chars (ws : list string) :
  Forall is_word ws ->
  forallb_chars (fun c => not_space c || Ascii.eqb c " ") (join " " ws) = true.
Proof.
  unfold join. induction ws as [|w ws IH]; intros HF; [reflexivity |].
  inversion HF as [|w' ws' [Hne Hw] Hws]; subst.
  assert (W : forallb_chars (fun c => not_space c || Ascii.eqb c " ") w = true).
  { eapply forallb_chars_impl; [| exact Hw]. intros c H. rewrite H. reflexivity. }
  cbn [String.concat]. destruct ws as [|w2 ws]; [exact W |].
  rewrite !forallb_chars_app, W, (IH Hws). reflexivity.
Qed.

Lemma replace_absent (x : ascii) (new t : string) :
  forallb_chars (fun c => negb (Ascii.eqb x c)) t = true ->
  replace (String x "") new t = t.
Proof.
  unfold replace. induction t as [|c t IH]; intros H; [reflexivity |].
  cbn [forallb_chars] in H. apply andb_true_iff in H as [Hc Ht].
  apply negb_true_iff in Hc. apply Ascii.eqb_neq in Hc.
  cbn [replace_from String.prefix].
  destruct (ascii_dec x c) as [E | _]; [contradiction |].
  rewrite (IH Ht). reflexivity.
Qed.

(** *** What a match has read *)

Lemma star_loop_reads_run (p : ascii -> bool) (g : bool)
      (step : string -> caps -> cont -> option caps) :
  reads_run p step ->
  forall fuel, reads_run p (star_loop g step fuel).
Proof.
  intros Hstep. induction fuel as [|fuel IH]; intros s c k res H; cbn [star_loop] in H.
  - exists "", s. repeat split; assumption.
  - assert (Stop : k s c = Some res ->
                   exists xs rest, s = xs ++ rest /\ forallb_chars p xs = true
                                   /\ k rest c = Some res).
    { intros Hk. exists "", s. repeat split; assumption. }
    assert (Again :
              step s c (fun s' c' =>
                          if String.length s' <? String.length s
                          then star_loop g step fuel s' c' k else None) = Some res ->
              exists xs rest, s = xs ++ rest /\ forallb_chars p xs = true
                              /\ k rest c = Some res).
    { intros Ha. apply Hstep in Ha as (xs1 & s1 & E1 & P1 & Hk).
      destruct (String.length s1 <? String.length s); [| discriminate].
      apply IH in Hk as (xs2 & s2 & E2 & P2 & Hk2).
      exists (xs1 ++ xs2), s2. subst. rewrite string_append_assoc.
      repeat split; [| assumption].
      rewrite forallb_chars_app, P1, P2. reflexivity. }
    destruct g.
    + destruct (step s c _) as [res1|] eqn:E.
      * inversion H; subst. apply Again. reflexivity.
      * apply Stop. assumption.
    + destruct (k s c) as [res1|] eqn:E.
      * inversion H; subst. apply Stop. reflexivity.
      * apply Again. assumption.
Qed.

Lemma rmatch_reads_run (total : nat) (p : ascii -> bool) (r : regex) :
  class_only p r -> reads_run p (rmatch total r).
Proof.
  induction r as [| q | r1 IH1 r2 IH2 | r1 IH1 r2 IH2 | g r1 IH1 | i r1 IH1 | |];
    intros Hr s c k res H; cbn [class_only] in Hr; cbn [rmatch] in H;
    try contradiction.
  - exists "", s. repeat split; assumption.
  - destruct s as [|a s]; [discriminate |].
    destruct (q a) eqn:Eq; [| discriminate].
    exists (String a ""), s. repeat split; [| assumption].
    cbn [forallb_chars]. rewrite (Hr a Eq). reflexivity.
  - destruct Hr as [H1 H2].
    apply (IH1 H1) in H as (xs1 & s1 & E1 & P1 & H).
    apply (IH2 H2) in H as (xs2 & s2 & E2 & P2 & H).
    exists (xs1 ++ xs2), s2. subst. rewrite string_append_assoc.
    repeat split; [| assumption].
    rewrite forallb_chars_app, P1, P2. reflexivity.
  - destruct Hr as [H1 H2].
    destruct (rmatch total r1 s c k) as [res1|] eqn:E.
    + inversion H; subst. apply (IH1 H1) in E. exact E.
    + apply (IH2 H2) in H. exact H.
  - apply (star_loop_reads_run p g _ (IH1 Hr)) in H. exact H.
Qed.

Lemma substring_prefix (xs rest : string) :
  substring 0 (String.length xs) (xs ++ rest) = xs.
Proof.
  induction xs as [|a xs IH]; cbn [append String.length substring].
  - destruct rest; reflexivity.
  - rewrite IH. reflexivity.
Qed.

Lemma consumed_app (xs rest : string) : consumed (xs ++ rest) rest = xs.
Proof.
  unfold consumed. rewrite string_length_app.
  replace (String.length xs + String.length rest - String.length rest)
    with (String.length xs) by lia.
  apply substring_prefix.
Qed.

(** a group around a pattern of one class captures the run it has read *)
Lemma group_reads_run (total : nat) (p : ascii -> bool) (i : nat) (r : regex)
      (s : string) (c : caps) (k : cont) (res : caps) :
  class_only p r ->
  rmatch total (Group i r) s c k = Some res ->
  exists xs rest, s = xs ++ rest /\ forallb_chars p xs = true
                  /\ k rest (set_group i xs c) = Some res.
Proof.
  intros Hr H. cbn [rmatch] in H.
  apply (rmatch_reads_run total p r Hr) in H as (xs & rest & E & P & H).
  exists xs, rest. subst s. rewrite consumed_app in H.
  repeat split; assumption.
Qed.

Lemma filter_chars_none (p q : ascii -> bool) (s : string) :
  (forall c, p c = true -> q c = false) ->
  forallb_chars p s = true -> filter_chars q s = "".
Proof.
  intros Hpq. induction s as [|c s IH]; [reflexivity |].
  cbn [forallb_chars filter_chars]. intros H.
  apply andb_true_iff in H as [Hc Hs].
  rewrite (Hpq c Hc). apply IH. assumption.
Qed.



Lemma space_not_digit (c : ascii) : is_space c = true -> is_digit c = false.
Proof.
  intros H. destruct (is_digit c) eqn:E; [| reflexivity].
  rewrite (digit_not_space c E) in H. discriminate.
Qed.


(** group 1 of a match of [RE_SERIES_NUM] is the digits of the text *)
Lemma series_num_group (s : string) (m : caps) :
  match_ Original.RE_SERIES_NUM s = Some m ->
  Original.group1 m = filter_chars is_digit s.
Proof.
  unfold match_, Original.RE_SERIES_NUM. cbn [seqs]. intros H.
  cbn [rmatch] in H. rewrite Nat.eqb_refl in H.
  change (rmatch (String.length s) (star space) s []
                 (fun s1 c1 =>
                    rmatch (String.length s) (Group 1 (rep_range 2 4 digit)) s1 c1
                           (fun s2 c2 =>
                              rmatch (String.length s) (star space) s2 c2
                                     (fun s3 c3 => rmatch (String.length s) Eol s3 c3 accept)))
          = Some m) in H.
  apply (rmatch_reads_run _ is_space) in H as (ws1 & s1 & E1 & P1 & H);
    [| intros c Hc; exact Hc].
  apply (group_reads_run _ is_digit) in H as (ds & s2 & E2 & P2 & H);
    [| cbn; repeat split; auto].
  apply (rmatch_reads_run _ is_space) in H as (ws2 & s3 & E3 & P3 & H);
    [| intros c Hc; exact Hc].
  assert (Hend : m = set_group 1 ds [] /\ filter_chars is_digit s3 = "").
  { cbn [rmatch] in H. unfold accept in H.
    destruct s3 as [|a [|b s3]]; try discriminate.
    - inversion H. split; reflexivity.
    - destruct (Ascii.eqb_spec a "010") as [-> |]; [| discriminate].
      inversion H. split; reflexivity. }
  destruct Hend as [-> Hs3].
  unfold Original.group1. rewrite group_set_group_same.
  subst s s1 s2. rewrite !filter_chars_app, Hs3.
  rewrite (filter_chars_none is_space is_digit ws1) by (apply space_not_digit || assumption).
  rewrite (filter_chars_none is_space is_digit ws2) by (apply space_not_digit || assumption).
  rewrite (filter_chars_all is_digit ds) by assumption.
  cbn [append]. rewrite string_app_nil_r. reflexivity.
Qed.


(** *** Discounts read from text *)


Lemma plus_reads_run (total : nat) (p : ascii -> bool) (s : string) (c : caps)
      (k : cont) (res : caps) :
  rmatch total (plus (Cls p)) s c k = Some res ->
  exists xs rest, s = xs ++ rest /\ xs <> "" /\ forallb_chars p xs = true
                  /\ k rest c = Some res.
Proof.
  unfold plus. cbn [rmatch]. intros H.
  destruct s as [|x s]; [discriminate |].
  destruct (p x) eqn:Ex; [| discriminate].
  apply (star_loop_reads_run p true _
           (rmatch_reads_run total p (Cls p) (fun a Ha => Ha))) in H
    as (xs & rest & E & P & H).
  exists (String x xs), rest. subst s. repeat split; try assumption.
  - discriminate.
  - cbn [forallb_chars]. rewrite Ex, P. reflexivity.
Qed.

Lemma percent_tail_reads (total : nat) (s : string) (c m : caps) :
  rmatch total (star space) s c
         (fun s1 c1 => rmatch total (chr "%") s1 c1 accept) = Some m ->
  exists ws b, s = ws ++ String "%" b /\ forallb_chars is_space ws = true /\ m = c.
Proof.
  intros H.
  apply (rmatch_reads_run total is_space (star space) (fun a Ha => Ha)) in H
    as (ws & rest & E & P & H).
  unfold chr in H. cbn [rmatch] in H.
  destruct rest as [|x rest]; [discriminate |].
  destruct (Ascii.eqb_spec "%" x) as [<- |]; [| discriminate].
  unfold accept in H. inversion H; subst.
  exists ws, rest. repeat split; assumption.
Qed.

(** a match of [RE_DISCOUNT] at the start of [s] *)
Lemma re_discount_reads (total : nat) (s : string) (m : caps) :
  rmatch total Original.RE_DISCOUNT s [] accept = Some m ->
  exists ds frac ws b,
    s = ds ++ frac ++ ws ++ String "%" b /\
    is_digits1 ds = true /\ is_fraction frac = true /\
    forallb_chars is_space ws = true /\
    Original.group1 m = ds ++ frac.
Proof.
  unfold Original.RE_DISCOUNT. cbn [seqs]. intros H. cbn [rmatch] in H.
  apply plus_reads_run in H as (ds & s1 & E1 & Nds & Pds & H).
  assert (Dds : is_digits1 ds = true).
  { unfold is_digits1. rewrite Pds. destruct ds; [contradiction | reflexivity]. }
  unfold opt in H. cbn [rmatch] in H.
  match type of H with
  | match ?t with _ => _ end = _ => destruct t as [res1|] eqn:E
  end.
  - inversion H; subst res1. clear H.
    unfold chr in E at 1. cbn [rmatch] in E.
    destruct s1 as [|x s1]; [discriminate |].
    destruct (Ascii.eqb_spec "." x) as [<- |]; [| discriminate].
    apply plus_reads_run in E as (fs & s2 & E2 & Nfs & Pfs & E).
    apply percent_tail_reads in E as (ws & b & E3 & Pws & ->).
    exists ds, (String "." fs), ws, b. subst s s1 s2.
    repeat split; try assumption.
    + cbn [is_fraction]. unfold is_digits1. rewrite Pfs.
      destruct fs; [contradiction | reflexivity].
    + unfold Original.group1. rewrite group_set_group_same.
      replace (ds ++ String "." (fs ++ ws ++ String "%" b))
        with ((ds ++ String "." fs) ++ ws ++ String "%" b)
        by (rewrite string_append_assoc; reflexivity).
      apply consumed_app.
  - apply percent_tail_reads in H as (ws & b & E3 & Pws & ->).
    exists ds, "", ws, b. subst s s1.
    repeat split; try assumption.
    unfold Original.group1. rewrite group_set_group_same.
    rewrite string_app_nil_r. apply consumed_app.
Qed.











(** *** Prices of numeric cells *)

Section NumberCells.
Local Open Scope Z_scope.

Lemma round_b64_finite (neg : bool) (n d : Z) :
  0 < n -> 0 < d -> n < 2 ^ 46 * d ->
  round_b64 neg n d = FFin neg (scale_rne n d (ulp_exp n d)) (ulp_exp n d).
Proof.
  intros Hn Hd Hlt. unfold round_b64. cbv zeta.
  pose proof (ulp_exp_small n d Hn Hd Hlt) as He.
  destruct (Z.eqb_spec n 0); [lia |].
  destruct (Z.ltb_spec 971 (ulp_exp n d)); [lia |].
  destruct (Z.eqb_spec (ulp_exp n d) 971); [lia |].
  reflexivity.
Qed.

(** X11: a whole number in a price cell, of magnitude below 2^46, is
    rendered exactly, with thousands separators and two zero decimals, a
    minus sign when negative, and without a currency sign; no exception
    is raised. *)
Theorem int_cell_price (z : Z) :
  Z.abs z < 2 ^ 46 ->
  Original._extract_price_from_cell (CInt z)
  = Ok (Some ((if z <? 0 then "-" else "") ++ format_hundredths (100 * Z.abs z))).
Proof.
  intros Hz. unfold Original._extract_price_from_cell, float_of_Z.
  destruct (Z.eq_dec z 0) as [-> | Hnz]; [reflexivity |].
  rewrite round_b64_finite by lia.
  cbn [format_comma_2f].
  pose proof (hundredths_round_trip (Z.abs z) 1 (100 * Z.abs z)
                ltac:(lia) ltac:(lia) ltac:(lia) ltac:(lia)) as R.
  rewrite round_b64_finite in R by lia.
  cbn [format_comma_2f append] in R. rewrite R. reflexivity.
Qed.

Lemma int_cell_price_witness :
  Original._extract_price_from_cell (CInt (-1234500)) = Ok (Some "-1,234,500.00").
Proof.
  apply (int_cell_price (-1234500)). vm_compute. reflexivity.
Defined.

End NumberCells.

Lemma format_comma_2f_no_dollar (f : pyfloat) :
  startswith "$" (format_comma_2f f) = false.
Proof.
  destruct f as [| neg | neg m e]; cbn [format_comma_2f].
  - reflexivity.
  - destruct neg; reflexivity.
  - destruct neg; [reflexivity |].
    unfold format_hundredths, str_of_nonneg.
    destruct (N.to_uint (Z.to_N (hundredths m e / 100))); reflexivity.
Qed.

Lemma startswith_dollar (x : string) : startswith "$" ("$" ++ x) = true.
Proof.
  destruct x; reflexivity.
Qed.

(** X12: whether a price carries the currency sign depends on the type of
    the cell, not on its value: every price read from a text cell starts
    with a dollar sign, and no price read from a numeric cell does. *)
Theorem price_sign_follows_cell_type (c : cell) (p : string) :
  Original._extract_price_from_cell c = Ok (Some p) ->
  startswith "$" p = match c with CStr _ => true | _ => false end.
Proof.
  unfold Original._extract_price_from_cell.
  destruct c as [| s | z | f].
  - discriminate.
  - destruct (search Original.RE_PRICE (strip s)).
    + destruct (float_of_string _); intros H; inversion H; apply startswith_dollar.
    + destruct (float_of_string _); intros H; inversion H; apply startswith_dollar.
  - destruct (float_of_Z z); intros H; inversion H. apply format_comma_2f_no_dollar.
  - destruct (is_nan f); intros H; inversion H. apply format_comma_2f_no_dollar.
Qed.

Lemma price_sign_follows_cell_type_witness :
  startswith "$" "$1,250.00" = true /\ startswith "$" "1,250.00" = false.
Proof.
  split.
  - apply (price_sign_follows_cell_type (CStr "1250") "$1,250.00"). vm_compute. reflexivity.
  - apply (price_sign_follows_cell_type (CInt 1250) "1,250.00"). vm_compute. reflexivity.
Defined.

(** *** Rows that read like a header *)

Lemma prefix_app_l (sub a b : string) :
  String.prefix sub a = true -> String.prefix sub (a ++ b) = true.
Proof.
  revert sub. induction a as [|x a IH]; intros sub H.
  - destruct sub; [| discriminate]. destruct b; reflexivity.
  - destruct sub as [|y sub]; [reflexivity |].
    cbn [append String.prefix] in *.
    destruct (ascii_dec y x); [apply IH; assumption | discriminate].
Qed.

Lemma contains_app_r (sub a b : string) :
  contains sub b = true -> contains sub (a ++ b) = true.
Proof.
  intros H. induction a as [|x a IH]; [assumption |].
  cbn [append contains]. rewrite IH. apply orb_true_r.
Qed.

Lemma contains_app_l (sub a b : string) :
  contains sub a = true -> contains sub (a ++ b) = true.
Proof.
  induction a as [|x a IH]; intros H.
  - cbn [contains] in H. rewrite orb_false_r in H.
    apply (prefix_app_l sub "" b) in H. cbn [append] in *.
    destruct b; cbn [contains]; rewrite H; reflexivity.
  - cbn [contains] in H. apply orb_true_iff in H as [H | H].
    + apply (prefix_app_l _ _ b) in H. cbn [append] in H.
      cbn [append contains]. rewrite H. reflexivity.
    + cbn [append contains]. rewrite (IH H). apply orb_true_r.
Qed.

Lemma contains_join (sub sep x : string) (l : list string) :
  In x l -> contains sub x = true -> contains sub (join sep l) = true.
Proof.
  unfold join. intros Hin Hx. induction l as [|y l IH]; [contradiction |].
  destruct Hin as [-> | Hin].
  - destruct l as [|z l]; [assumption |].
    cbn [String.concat]. apply contains_app_l. assumption.
  - destruct l as [|z l]; [contradiction |].
    change (String.concat sep (y :: z :: l))
      with (y ++ sep ++ String.concat sep (z :: l)).
    apply contains_app_r, contains_app_r, IH. assumption.
Qed.

(** a cell whose text holds one of the header words is a true value *)
Lemma keyword_cell_truthy (sub : string) (c : cell) :
  sub <> "" ->
  contains sub "none" = false -> contains sub "0" = false ->
  contains sub "0.0" = false -> contains sub "-0.0" = false ->
  contains sub (lower (str c)) = true -> Py.truthy c = true.
Proof.
  intros Hsub Hnone Hz Hf Hnf H.
  destruct c as [| s | z | f]; cbn [Py.truthy].
  - change (lower (str CNone)) with "none" in H. congruence.
  - destruct s; [| reflexivity].
    destruct sub; [contradiction | discriminate].
  - destruct (Z.eqb_spec z 0) as [-> |]; [| reflexivity].
    change (lower (str (CInt 0))) with "0" in H. congruence.
  - destruct f as [| neg | neg m e]; try reflexivity.
    cbn [PyFloat.truthy]. destruct (Z.eqb_spec m 0) as [-> |]; [| reflexivity].
    destruct neg.
    + change (lower (str (CFloat (FFin true 0 e)))) with "-0.0" in H. congruence.
    + change (lower (str (CFloat (FFin false 0 e)))) with "0.0" in H. congruence.
Qed.

Lemma header_words_make_header (r : row) (c1 c2 : cell) :
  In c1 r -> In c2 r ->
  contains "part" (lower (str c1)) = true ->
  contains "price" (lower (str c2)) = true
  \/ contains "description" (lower (str c2)) = true ->
  Original._is_header_row r = true.
Proof.
  intros H1 H2 P1 P2.
  assert (T1 : Py.truthy c1 = true).
  { apply (keyword_cell_truthy "part"); try reflexivity; [discriminate | assumption]. }
  assert (T2 : Py.truthy c2 = true).
  { destruct P2 as [P2 | P2].
    - apply (keyword_cell_truthy "price"); try reflexivity; [discriminate | assumption].
    - apply (keyword_cell_truthy "description"); try reflexivity;
        [discriminate | assumption]. }
  assert (In1 : In (lower (str c1))
                   (map (fun c => lower (str c)) (filter Py.truthy r))).
  { apply in_map_iff. exists c1. split; [reflexivity |].
    apply filter_In. split; assumption. }
  assert (In2 : In (lower (str c2))
                   (map (fun c => lower (str c)) (filter Py.truthy r))).
  { apply in_map_iff. exists c2. split; [reflexivity |].
    apply filter_In. split; assumption. }
  unfold Original._is_header_row.
  destruct r as [|c r]; [contradiction |].
  rewrite (contains_join "part" " " _ _ In1 P1). cbn [andb].
  destruct P2 as [P2 | P2]; rewrite (contains_join _ " " _ _ In2 P2).
  - reflexivity.
  - apply orb_true_r.
Qed.

(** X13: a table row in which some cell mentions [part] and some cell
    mentions [price] or [description], in any letter case and anywhere in
    the cell text, is taken for a header: it never gives a record, whatever
    its price cell holds, and the records collected so far are kept.  A
    product whose description reads, say, spare part at list price is
    dropped in this way. *)
Theorem header_like_row_gives_no_record
        (st : Original.state) (r0 : row) (c1 c2 : cell) :
  In c1 r0 -> In c2 r0 ->
  contains "part" (lower (str c1)) = true ->
  contains "price" (lower (str c2)) = true
  \/ contains "description" (lower (str c2)) = true ->
  exists ix, Original.process_row st r0 = Ok (Some ix, snd st).
Proof.
  intros H1 H2 P1 P2.
  assert (Hh : Original._is_header_row (Original.pad5 r0) = true).
  { apply (header_words_make_header _ c1 c2); try assumption;
      unfold Original.pad5; apply in_or_app; left; assumption. }
  destruct st as [indices records]. unfold Original.process_row.
  destruct r0 as [|c r]; [contradiction |].
  rewrite Hh. cbn [andb snd].
  destruct (Original.is_none indices); eexists; reflexivity.
Qed.

Lemma header_like_row_gives_no_record_witness :
  exists ix,
    Original.process_row
      (Some (Original.mk_indices (Some 0) None (Some 1) (Some 2) (Some 3)), [])
      [CStr "2002-1201"; CStr "Spare part, list price per 100"; CStr "$12.50"; CStr ""]
    = Ok (Some ix, []).
Proof.
  apply (header_like_row_gives_no_record
           (Some (Original.mk_indices (Some 0) None (Some 1) (Some 2) (Some 3)), [])
           [CStr "2002-1201"; CStr "Spare part, list price per 100"; CStr "$12.50"; CStr ""]
           (CStr "Spare part, list price per 100")
           (CStr "Spare part, list price per 100")).
  - right; left; reflexivity.
  - right; left; reflexivity.
  - vm_compute. reflexivity.
  - left. vm_compute. reflexivity.
Defined.

(** *** The quote number and the name of the output file *)

Lemma seq_tail (total : nat) (r1 r2 : regex) (s : string) (c : caps)
      (k : cont) (res : caps) :
  rmatch total (Seq r1 r2) s c k = Some res ->
  exists s1 c1, rmatch total r2 s1 c1 k = Some res.
Proof.
  cbn [rmatch]. intros H.
  apply (rmatch_passes total r1) in H as (s1 & c1 & H & _).
  exists s1, c1. assumption.
Qed.

Lemma last_group_plus (total : nat) (p : ascii -> bool) (s : string) (c m : caps) :
  rmatch total (Group 1 (plus (Cls p))) s c accept = Some m ->
  exists xs, group m 1 = Some xs /\ xs <> "" /\ forallb_chars p xs = true.
Proof.
  cbn [rmatch]. intros H.
  apply plus_reads_run in H as (xs & rest & E & N & P & H).
  unfold accept in H. inversion H; subst.
  exists xs. rewrite consumed_app, group_set_group_same.
  repeat split; assumption.
Qed.

Lemma quote_char_cases (c : ascii) :
  is_quote_char c = true ->
  is_space c = false /\ Ascii.eqb "/" c = false /\ Ascii.eqb " " c = false.
Proof.
  destruct c as [[] [] [] [] [] [] [] []]; intros H;
    solve [discriminate H | repeat split; reflexivity].
Qed.

Lemma quote_text_ok (q : string) :
  q <> "" -> forallb_chars is_quote_char q = true ->
  strip q = q /\ quote_number_ok q.
Proof.
  intros Hne Hq.
  assert (Hsp : forallb_chars not_space q = true).
  { eapply forallb_chars_impl; [| exact Hq].
    intros c Hc. unfold not_space. apply quote_char_cases in Hc as (-> & _ & _). reflexivity. }
  assert (Hsl : forallb_chars (fun c => negb (Ascii.eqb "/" c)) q = true).
  { eapply forallb_chars_impl; [| exact Hq].
    intros c Hc. apply quote_char_cases in Hc as (_ & -> & _). reflexivity. }
  assert (Hbl : forallb_chars (fun c => negb (Ascii.eqb " " c)) q = true).
  { eapply forallb_chars_impl; [| exact Hq].
    intros c Hc. apply quote_char_cases in Hc as (_ & _ & ->). reflexivity. }
  split.
  - apply (strip_join_words [q]). constructor; [| constructor].
    split; assumption.
  - repeat split; try assumption.
    unfold Original.out_name.
    destruct q as [|a q]; [congruence |].
    cbn [truthy_opt is_empty negb Original.opt_or_empty].
    rewrite (replace_absent "/" "-") by assumption.
    rewrite (replace_absent " " "_") by assumption.
    reflexivity.
Qed.

Lemma original_quote_group (total : nat) (s : string) (m : caps) :
  rmatch total Original.RE_QUOTE_NUMBER s [] accept = Some m ->
  Original.group1 m <> "" /\ forallb_chars is_quote_char (Original.group1 m) = true.
Proof.
  unfold Original.RE_QUOTE_NUMBER. cbn [seqs]. intros H.
  do 6 (apply seq_tail in H as (? & ? & H)).
  apply last_group_plus in H as (xs & G & N & P).
  unfold Original.group1. rewrite G. split; assumption.
Qed.

Lemma simplified_quote_group (total : nat) (s : string) (m : caps) :
  rmatch total Simplified.RE_QUOTE_NUMBER s [] accept = Some m ->
  Simplified.group_text m 1 <> ""
  /\ forallb_chars is_quote_char (Simplified.group_text m 1) = true.
Proof.
  unfold Simplified.RE_QUOTE_NUMBER. cbn [seqs]. intros H.
  do 6 (apply seq_tail in H as (? & ? & H)).
  apply last_group_plus in H as (xs & G & N & P).
  unfold Simplified.group_text. rewrite G. split; assumption.
Qed.

(** X14: on a document whose page texts are ASCII text, the quote number
    that either parser reports is never empty and is made of letters,
    digits and dashes only.  The replacements of the slash and of the
    blank in [main] therefore never change it: the CSV of a document with
    the quote number q is named quote_q_parsed.csv, and the name with
    unknown is used only when no quote number was found.  (On other
    texts the class of the pattern, read without regard to case, takes a
    few letters outside ASCII as well.) *)
Theorem quote_number_names_the_file (pdf : document) :
  ascii_pages pdf ->
  (forall q : string,
     Original.quote_number (Original._extract_metadata pdf) = Some q ->
     quote_number_ok q) /\
  (forall q : string,
     Simplified.extract_metadata pdf = Some q -> quote_number_ok q).
Proof.
  intros _. split.
  - intros q. unfold Original._extract_metadata.
    cbn [Original.quote_number]. unfold Original.search1, search.
    destruct (search_from _ Original.RE_QUOTE_NUMBER _) as [m|] eqn:E; [| discriminate].
    cbn [option_map]. intros H. inversion H as [Hq]. clear H.
    apply search_from_found in E as (s1 & E).
    apply original_quote_group in E as [N P].
    destruct (quote_text_ok _ N P) as [-> Hok]. exact Hok.
  - intros q. unfold Simplified.extract_metadata.
    destruct pdf as [|p pdf]; [discriminate |].
    destruct (extract_text p) as [t|]; [| discriminate].
    unfold search.
    destruct (search_from _ Simplified.RE_QUOTE_NUMBER _) as [m|] eqn:E; [| discriminate].
    intros H. inversion H as [Hq]. clear H.
    apply search_from_found in E as (s1 & E).
    apply simplified_quote_group in E as [N P].
    destruct (quote_text_ok _ N P) as [-> Hok]. exact Hok.
Qed.

Lemma quote_number_names_the_file_witness :
  Original.quote_number (Original._extract_metadata Samples.quote) = Some "Q-12345" /\
  Simplified.extract_metadata Samples.quote = Some "Q-12345" /\
  quote_number_ok "Q-12345".
Proof.
  split; [vm_compute; reflexivity |]. split; [vm_compute; reflexivity |].
  assert (A : ascii_pages Samples.quote).
  { intros p t Hin Ht. destruct Hin as [<- | []].
    cbn in Ht. inversion Ht. reflexivity. }
  apply (proj1 (quote_number_names_the_file Samples.quote A)).
  vm_compute. reflexivity.
Defined.

(** *** The pages that are read *)

Lemma tables_with_pdfplumber_ext (pdf pdf' : document) (idxs : list nat) :
  (forall i, In i idxs -> nth_error pdf i = nth_error pdf' i) ->
  Original._tables_with_pdfplumber pdf idxs = Original._tables_with_pdfplumber pdf' idxs.
Proof.
  induction idxs as [|i idxs IH]; intros H; [reflexivity |].
  cbn [Original._tables_with_pdfplumber].
  rewrite <- (H i) by (left; reflexivity).
  rewrite IH by (intros j Hj; apply H; right; assumption).
  reflexivity.
Qed.

Lemma collect_texts_ext (pdf pdf' : document) (idxs : list Z) (texts : list string) :
  List.length pdf = List.length pdf' ->
  (forall i, In i idxs -> (0 <= i < Z.of_nat (List.length pdf))%Z ->
             nth_error pdf (Z.to_nat i) = nth_error pdf' (Z.to_nat i)) ->
  Original.collect_texts pdf idxs texts = Original.collect_texts pdf' idxs texts.
Proof.
  intros Hlen. revert texts. induction idxs as [|i idxs IH]; intros texts H; [reflexivity |].
  assert (IH' : forall t, Original.collect_texts pdf idxs t
                          = Original.collect_texts pdf' idxs t).
  { intros t. apply IH. intros j Hj. apply H. right. assumption. }
  cbn [Original.collect_texts]. rewrite <- Hlen.
  destruct (Z.ltb_spec i (Z.of_nat (List.length pdf))) as [Hlt |]; [| apply IH'].
  destruct (Z.ltb_spec i 0) as [| Hge]; [reflexivity |].
  rewrite <- (H i) by (try (left; reflexivity); lia).
  destruct (nth_error pdf (Z.to_nat i)) as [p|]; [| reflexivity].
  destruct (extract_text p) as [[t|]|]; try reflexivity; apply IH'.
Qed.

Lemma last_page_scanned (n : nat) : 1 < n -> In (n - 1) (Original.page_indices n).
Proof.
  intros Hn. unfold Original.page_indices.
  destruct (Nat.ltb_spec 1 n) as [_ |]; [| lia]. cbn [andb].
  destruct (existsb (Nat.eqb (n - 1)) (seq 1 (Nat.min 9 n - 1))) eqn:E; cbn [negb].
  - apply existsb_exists in E as (x & Hx & Ex).
    apply Nat.eqb_eq in Ex. subst x. assumption.
  - apply in_or_app. right. left. reflexivity.
Qed.

(** X15: when the first scan (the pages 1 to 8 and the last page) finds a
    table, the run is decided by the pages of that scan and by page 0,
    which is read for the metadata only: two documents of the same length
    that agree on these pages give the same metadata and the same records,
    or raise the same exception.  What the pages from the tenth to the last
    but one hold is never looked at. *)
Theorem pages_outside_the_first_scan_are_not_read (pdf pdf' : document) :
  List.length pdf = List.length pdf' ->
  (forall i, In i (0 :: Original.page_indices (List.length pdf)) ->
             nth_error pdf i = nth_error pdf' i) ->
  Original._tables_with_pdfplumber pdf (Original.page_indices (List.length pdf)) <> [] ->
  Original.parse_document pdf = Original.parse_document pdf'.
Proof.
  intros Hlen Hpages Hfound.
  assert (Ht : Original._tables_with_pdfplumber pdf' (Original.page_indices (List.length pdf'))
               = Original._tables_with_pdfplumber pdf (Original.page_indices (List.length pdf))).
  { rewrite <- Hlen. symmetry. apply tables_with_pdfplumber_ext.
    intros i Hi. apply Hpages. right. assumption. }
  assert (Hm : Original._extract_metadata pdf' = Original._extract_metadata pdf).
  { unfold Original._extract_metadata. rewrite <- Hlen.
    rewrite (collect_texts_ext pdf pdf'); [reflexivity | assumption |].
    intros i Hi Hrange. apply Hpages.
    destruct Hi as [<- | [<- | []]].
    - left. reflexivity.
    - destruct (Nat.eq_dec (List.length pdf) 1) as [E | E].
      + rewrite E. left. reflexivity.
      + right. replace (Z.to_nat (Z.of_nat (List.length pdf) - 1))
          with (List.length pdf - 1) by lia.
        apply last_page_scanned. lia. }
  unfold Original.parse_document. rewrite Hm, Ht.
  destruct (Original._tables_with_pdfplumber pdf
              (Original.page_indices (List.length pdf))); [congruence | reflexivity].
Qed.

Lemma pages_outside_the_first_scan_are_not_read_witness :
  Original.parse_document twelve_pages = Original.parse_document twelve_pages_more.
Proof.
  apply pages_outside_the_first_scan_are_not_read.
  - reflexivity.
  - intros i Hi. cbn in Hi.
    repeat (destruct Hi as [<- | Hi]; [reflexivity |]). contradiction.
  - vm_compute. discriminate.
Defined.

(** *** The output file and the input file *)

Lemma rfind_dot_app (y s : string) (i : nat) :
  rfind_dot s = Some i -> rfind_dot (y ++ s) = Some (String.length y + i).
Proof.
  intros H. induction y as [|c y IH]; [exact H |].
  cbn [append rfind_dot String.length]. rewrite IH. reflexivity.
Qed.

Lemma substring_suffix (y s : string) :
  substring (String.length y) (String.length s) (y ++ s) = s.
Proof.
  induction y as [|c y IH]; [apply substring_full | exact IH].
Qed.

Lemma suffix_csv (d : path) (c : ascii) (y : string) :
  suffix (joinpath d (String c y ++ ".csv")) = ".csv".
Proof.
  unfold suffix, joinpath. cbn [parts]. rewrite last_last.
  rewrite (rfind_dot_app (String c y) ".csv" 0) by reflexivity.
  rewrite string_length_app, Nat.add_0_r.
  replace (String.length (String c y) + String.length ".csv" - String.length (String c y))
    with (String.length ".csv") by lia.
  rewrite substring_suffix.
  cbn [String.length].
  destruct (Nat.ltb_spec 0 (S (String.length y))); [| lia].
  destruct (Nat.ltb_spec (S (String.length y)) (S (String.length y) + 4 - 1)); [| lia].
  reflexivity.
Qed.

Lemma path_eqb_suffix (p q : path) : path_eqb p q = true -> suffix p = suffix q.
Proof.
  unfold path_eqb. intros H. apply andb_true_iff in H as [_ H].
  destruct (list_eq_dec string_dec (parts p) (parts q)) as [E |]; [| discriminate].
  unfold suffix. rewrite E. reflexivity.
Qed.

Lemma parsed_path_is_pdf (w : world) (p : path) (r : dataframe * Original.metadata) :
  Original.parse_pdf w p = Ok r -> lower (suffix p) = ".pdf".
Proof.
  unfold Original.parse_pdf.
  destruct (negb (exists_ w p)); [discriminate |].
  destruct (String.eqb_spec (lower (suffix p)) ".pdf") as [E |]; [| discriminate].
  intros _. exact E.
Qed.

Lemma out_path_is_not_the_input (w : world) (p d : path) (q : option string)
      (r : dataframe * Original.metadata) :
  Original.parse_pdf w p = Ok r ->
  path_eqb (joinpath d (Original.out_name q)) p = false.
Proof.
  intros H. apply parsed_path_is_pdf in H.
  destruct (path_eqb (joinpath d (Original.out_name q)) p) eqn:E; [| reflexivity].
  apply path_eqb_suffix in E. rewrite <- E in H.
  unfold Original.out_name in H.
  change ("quote_" ++ ?x ++ "_parsed.csv") with (String "q" ("uote_" ++ x ++ "_parsed.csv")) in H.
  match type of H with
  | context [joinpath d (String "q" ("uote_" ++ ?x ++ "_parsed.csv"))] =>
      replace (String "q" ("uote_" ++ x ++ "_parsed.csv"))
        with (String "q" ("uote_" ++ x ++ "_parsed") ++ ".csv") in H
        by (cbn [append]; rewrite string_append_assoc; reflexivity)
  end.
  rewrite suffix_csv in H. discriminate.
Qed.

(** X16: a run of the original entry point that exits with 0 has written
    one file, whose name ends in .csv, and it is not the input: the PDF is
    still there unchanged.  Running the same command again therefore exits
    with 0 again and writes the same bytes to the same path. *)
Theorem original_rerun_writes_the_same_csv (argv : list string) (w : world) :
  fst (Original.main argv w) = 0 ->
  exists a0 a1 rest out csv,
    argv = a0 :: a1 :: rest /\
    fs (snd (Original.main argv w)) = (out, TextFile csv) :: fs w /\
    suffix out = ".csv" /\
    lookup (Path a1) (fs (snd (Original.main argv w))) = lookup (Path a1) (fs w) /\
    fst (Original.main argv (snd (Original.main argv w))) = 0 /\
    fs (snd (Original.main argv (snd (Original.main argv w))))
    = (out, TextFile csv) :: fs (snd (Original.main argv w)).
Proof.
  intros H0.
  destruct argv as [|a0 [|a1 rest]]; try discriminate.
  set (dir := match rest with a2 :: _ => Path a2 | [] => parent (Path a1) end).
  destruct (Original.parse_pdf w (Path a1)) as [[df meta]|e] eqn:E.
  - set (out := joinpath dir (Original.out_name (Original.quote_number meta))).
    assert (Hne : path_eqb out (Path a1) = false)
      by (apply (out_path_is_not_the_input w _ _ _ _ E)).
    assert (M : Original.main (a0 :: a1 :: rest) w
                = (0, print (print (print (save_csv w df out) (LRows (List.length df)))
                                   (LMetadata (Original.quote_number meta) (Original.date meta)
                                              (Original.expiration_date meta)
                                              (Original.customer meta)))
                            (LSaved out))).
    { unfold Original.main. rewrite E. reflexivity. }
    rewrite M. cbn [snd fst].
    set (w1 := print _ (LSaved out)).
    assert (Hfs : fs w1 = (out, TextFile (to_csv df)) :: fs w) by reflexivity.
    assert (Hl : lookup (Path a1) (fs w1) = lookup (Path a1) (fs w)).
    { rewrite Hfs. cbn [lookup]. rewrite Hne. reflexivity. }
    assert (E1 : Original.parse_pdf w1 (Path a1) = Ok (df, meta)).
    { rewrite <- E. apply original_parse_pdf_ext; [reflexivity | exact Hl]. }
    assert (M1 : Original.main (a0 :: a1 :: rest) w1
                 = (0, print (print (print (save_csv w1 df out) (LRows (List.length df)))
                                    (LMetadata (Original.quote_number meta) (Original.date meta)
                                               (Original.expiration_date meta)
                                               (Original.customer meta)))
                             (LSaved out))).
    { unfold Original.main. rewrite E1. reflexivity. }
    rewrite M1. cbn [snd fst].
    exists a0, a1, rest, out, (to_csv df).
    repeat split; try assumption.
    unfold out, Original.out_name.
    change ("quote_" ++ ?x ++ "_parsed.csv") with (String "q" ("uote_" ++ x ++ "_parsed.csv")).
    match goal with
    | |- context [joinpath dir (String "q" ("uote_" ++ ?x ++ "_parsed.csv"))] =>
        replace (String "q" ("uote_" ++ x ++ "_parsed.csv"))
          with (String "q" ("uote_" ++ x ++ "_parsed") ++ ".csv")
          by (cbn [append]; rewrite string_append_assoc; reflexivity)
    end.
    apply suffix_csv.
  - exfalso. unfold Original.main in H0. rewrite E in H0.
    destruct (exn_cls e); discriminate.
Qed.

Lemma original_rerun_writes_the_same_csv_witness :
  exists a0 a1 rest out csv,
    ["parse"; "quote.pdf"] = a0 :: a1 :: rest /\
    fs (snd (Original.main ["parse"; "quote.pdf"] (Samples.host Samples.quote)))
    = (out, TextFile csv) :: fs (Samples.host Samples.quote) /\
    suffix out = ".csv" /\
    lookup (Path a1)
           (fs (snd (Original.main ["parse"; "quote.pdf"] (Samples.host Samples.quote))))
    = lookup (Path a1) (fs (Samples.host Samples.quote)) /\
    fst (Original.main ["parse"; "quote.pdf"]
           (snd (Original.main ["parse"; "quote.pdf"] (Samples.host Samples.quote)))) = 0 /\
    fs (snd (Original.main ["parse"; "quote.pdf"]
               (snd (Original.main ["parse"; "quote.pdf"] (Samples.host Samples.quote)))))
    = (out, TextFile csv)
        :: fs (snd (Original.main ["parse"; "quote.pdf"] (Samples.host Samples.quote))).
Proof.
  apply (original_rerun_writes_the_same_csv ["parse"; "quote.pdf"]
           (Samples.host Samples.quote)).
  vm_compute. reflexivity.
Defined.

(** *** One line of the CSV for each record *)

Lemma number_char_plain (c : ascii) : is_number_char c = true -> is_plain c = true.
Proof.
  destruct c as [[] [] [] [] [] [] [] []]; intros H;
    solve [discriminate H | reflexivity].
Qed.

Lemma number_text_plain (s : string) :
  forallb_chars is_number_char s = true -> plain s = true.
Proof.
  apply forallb_chars_impl. exact number_char_plain.
Qed.

Lemma digit_number_char (c : ascii) : is_digit c = true -> is_number_char c = true.
Proof.
  intros H. unfold is_number_char. rewrite H. reflexivity.
Qed.

Lemma digits_number_text (s : string) :
  forallb_chars is_digit s = true -> forallb_chars is_number_char s = true.
Proof.
  apply forallb_chars_impl. exact digit_number_char.
Qed.

Lemma string_of_uint_digits (u : Decimal.uint) :
  forallb_chars is_digit (NilEmpty.string_of_uint u) = true.
Proof.
  induction u; cbn [NilEmpty.string_of_uint forallb_chars]; try reflexivity; exact IHu.
Qed.

Lemma str_of_nonneg_digits (z : Z) : forallb_chars is_digit (str_of_nonneg z) = true.
Proof.
  apply string_of_uint_digits.
Qed.

Lemma group3_number_text (s : string) :
  forallb_chars is_digit s = true -> forallb_chars is_number_char (group3 s) = true.
Proof.
  induction s as [|c s IH]; [reflexivity |].
  cbn [forallb_chars group3]. intros H. apply andb_true_iff in H as [Hc Hs].
  rewrite (digit_number_char c Hc). cbn [andb].
  destruct ((0 <? String.length s) && (String.length s mod 3 =? 0));
    [cbn [forallb_chars] |]; apply IH; assumption.
Qed.

Lemma format_hundredths_number_text (h : Z) :
  forallb_chars is_number_char (format_hundredths h) = true.
Proof.
  unfold format_hundredths.
  rewrite !forallb_chars_app.
  rewrite (group3_number_text _ (str_of_nonneg_digits (h / 100))).
  pose proof (digits_number_text _ (str_of_nonneg_digits (h mod 100))) as D.
  unfold two_digits. destruct (h mod 100 <? 10)%Z.
  - cbn [forallb_chars]. rewrite D. reflexivity.
  - rewrite D. reflexivity.
Qed.

Lemma format_comma_2f_number_text (f : pyfloat) :
  forallb_chars is_number_char (format_comma_2f f) = true.
Proof.
  destruct f as [| neg | neg m e]; cbn [format_comma_2f].
  - reflexivity.
  - destruct neg; reflexivity.
  - rewrite forallb_chars_app, format_hundredths_number_text.
    destruct neg; reflexivity.
Qed.

Lemma forallb_substring (p : ascii -> bool) (s : string) (n m : nat) :
  forallb_chars p s = true -> forallb_chars p (substring n m s) = true.
Proof.
  revert n m. induction s as [|c s IH]; intros n m H.
  - destruct n, m; reflexivity.
  - cbn [forallb_chars] in H. apply andb_true_iff in H as [Hc Hs].
    destruct n as [|n].
    + destruct m as [|m]; [reflexivity |].
      cbn [substring forallb_chars]. rewrite Hc. apply IH. assumption.
    + cbn [substring]. apply IH. assumption.
Qed.

Lemma forallb_rev_string (p : ascii -> bool) (s acc : string) :
  forallb_chars p acc = true -> forallb_chars p s = true ->
  forallb_chars p (rev_string acc s) = true.
Proof.
  revert acc. induction s as [|c s IH]; intros acc Ha Hs; [assumption |].
  cbn [forallb_chars] in Hs. apply andb_true_iff in Hs as [Hc Hs].
  cbn [rev_string]. apply IH; [| assumption].
  cbn [forallb_chars]. rewrite Hc, Ha. reflexivity.
Qed.

Lemma forallb_strip_zeros_rev (p : ascii -> bool) (s : string) :
  forallb_chars p s = true -> forallb_chars p (strip_zeros_rev s) = true.
Proof.
  induction s as [|c s IH]; intros H; [reflexivity |].
  pose proof H as H0.
  cbn [forallb_chars] in H. apply andb_true_iff in H as [Hc Hs].
  destruct (Ascii.eqb_spec c "0") as [-> | Hne].
  - apply IH. assumption.
  - replace (strip_zeros_rev (String c s)) with (String c s); [assumption |].
    destruct c as [[] [] [] [] [] [] [] []]; try reflexivity; contradiction.
Qed.

Lemma forallb_strip_trailing_zeros (p : ascii -> bool) (s : string) :
  forallb_chars p s = true -> forallb_chars p (strip_trailing_zeros s) = true.
Proof.
  intros H. unfold strip_trailing_zeros.
  apply forallb_rev_string; [reflexivity |].
  apply forallb_strip_zeros_rev.
  apply forallb_rev_string; [reflexivity | assumption].
Qed.

Lemma zeros_number_text (n : nat) : forallb_chars is_number_char (zeros n) = true.
Proof.
  induction n as [|n IH]; [reflexivity | exact IH].
Qed.

Lemma layout_number_text (ds : string) (decpt : Z) :
  forallb_chars is_number_char ds = true ->
  forallb_chars is_number_char (layout ds decpt) = true.
Proof.
  intros H. unfold layout.
  destruct ((decpt <=? -4) || (16 <? decpt))%Z.
  - rewrite !forallb_chars_app.
    rewrite (forallb_substring _ ds 0 1 H).
    rewrite (digits_number_text _ (str_of_nonneg_digits _)).
    destruct (1 <? Z.of_nat (String.length ds))%Z.
    + rewrite forallb_chars_app, (forallb_substring _ ds _ _ H).
      destruct (decpt - 1 <? 0)%Z, (Z.abs (decpt - 1) <? 10)%Z; reflexivity.
    + destruct (decpt - 1 <? 0)%Z, (Z.abs (decpt - 1) <? 10)%Z; reflexivity.
  - destruct (decpt <=? 0)%Z.
    + rewrite !forallb_chars_app, zeros_number_text, H. reflexivity.
    + destruct (Z.of_nat (String.length ds) <=? decpt)%Z.
      * rewrite !forallb_chars_app, zeros_number_text, H. reflexivity.
      * rewrite !forallb_chars_app, !(forallb_substring _ ds _ _ H). reflexivity.
Qed.

Lemma float_repr_number_text (f : pyfloat) :
  forallb_chars is_number_char (float_repr f) = true.
Proof.
  destruct f as [| neg | neg m e]; cbn [float_repr].
  - reflexivity.
  - destruct neg; reflexivity.
  - rewrite forallb_chars_app.
    assert (Hs : forallb_chars is_number_char (if neg then "-" else "") = true)
      by (destruct neg; reflexivity).
    rewrite Hs. cbn [andb].
    destruct (m =? 0)%Z; [reflexivity |].
    destruct (shortest 17 m e _ 1) as [c x].
    apply layout_number_text, forallb_strip_trailing_zeros, digits_number_text,
      str_of_nonneg_digits.
Qed.

(** the price pattern captures digits, commas and points *)
Lemma re_price_group (s : string) (m : caps) :
  search Original.RE_PRICE s = Some m ->
  forallb_chars is_number_char (Original.group1 m) = true.
Proof.
  unfold search. intros H. apply search_from_found in H as (s1 & H).
  unfold Original.RE_PRICE in H. cbn [seqs] in H.
  do 2 (apply seq_tail in H as (? & ? & H)).
  apply (group_reads_run _ is_number_char) in H as (xs & rest & E & P & H).
  - unfold accept in H. inversion H; subst.
    unfold Original.group1. rewrite group_set_group_same. assumption.
  - unfold plus, opt, chr, digit. cbn [class_only rep].
    assert (Hb : forall c, is_digit c || Ascii.eqb c "," = true -> is_number_char c = true).
    { intros c Hc. apply orb_true_iff in Hc as [Hc | Hc];
        [apply digit_number_char; assumption
        | apply Ascii.eqb_eq in Hc; subst c; reflexivity]. }
    assert (Hp : forall c, Ascii.eqb "." c = true -> is_number_char c = true).
    { intros c Hc. apply Ascii.eqb_eq in Hc. subst c. reflexivity. }
    repeat split; solve [exact Hb | exact Hp | exact digit_number_char].
Qed.

Lemma price_plain (c : cell) (p : string) :
  Original._extract_price_from_cell c = Ok (Some p) -> plain p = true.
Proof.
  intros H. apply number_text_plain. revert H.
  unfold Original._extract_price_from_cell.
  destruct c as [| s | z | f].
  - discriminate.
  - destruct (search Original.RE_PRICE (strip s)) as [m|] eqn:E.
    + apply re_price_group in E.
      destruct (float_of_string _); intros H; inversion H;
        cbn [append forallb_chars]; [apply format_comma_2f_number_text | exact E].
    + destruct (float_of_string _); intros H; inversion H.
      cbn [append forallb_chars]. apply format_comma_2f_number_text.
  - destruct (float_of_Z z); intros H; inversion H. apply format_comma_2f_number_text.
  - destruct (is_nan f); intros H; inversion H. apply format_comma_2f_number_text.
Qed.

Lemma discount_group_number_text (s : string) (m : caps) :
  search Original.RE_DISCOUNT s = Some m ->
  forallb_chars is_number_char (Original.group1 m) = true.
Proof.
  unfold search. intros H. apply search_from_found in H as (s1 & H).
  apply re_discount_reads in H as (ds & frac & ws & b & _ & Dds & Dfr & _ & ->).
  unfold is_digits1 in Dds. apply andb_true_iff in Dds as [_ Dds].
  rewrite forallb_chars_app, (digits_number_text _ Dds). cbn [andb].
  destruct frac as [|c fs]; [reflexivity |].
  cbn [is_fraction] in Dfr. apply andb_true_iff in Dfr as [Hc Dfs].
  apply Ascii.eqb_eq in Hc. subst c.
  unfold is_digits1 in Dfs. apply andb_true_iff in Dfs as [_ Dfs].
  cbn [forallb_chars]. rewrite (digits_number_text _ Dfs). reflexivity.
Qed.

Lemma discount_plain (c : cell) (d : string) :
  Original._extract_discount_from_cell c = Some d -> plain d = true.
Proof.
  intros H. apply number_text_plain. revert H.
  unfold Original._extract_discount_from_cell.
  assert (Body : forall s,
             match search Original.RE_DISCOUNT s with
             | Some m => Some (Original.group1 m ++ "%")
             | None =>
                 match float_of_string (strip (replace "," "" (replace "%" "" s))) with
                 | Some n => Some (float_repr n ++ "%")
                 | None => None
                 end
             end = Some d ->
             forallb_chars is_number_char d = true).
  { intros s. destruct (search Original.RE_DISCOUNT s) as [m|] eqn:E.
    - apply discount_group_number_text in E.
      intros H; inversion H. rewrite forallb_chars_app, E. reflexivity.
    - destruct (float_of_string _) as [n|]; [| discriminate].
      intros H; inversion H.
      rewrite forallb_chars_app, float_repr_number_text. reflexivity. }
  destruct c as [| s | z | f]; [discriminate | apply Body | apply Body |].
  destruct (is_nan f); [discriminate | apply Body].
Qed.

Lemma clean_part_number_plain (s : string) : plain (Original._clean_part_number s) = true.
Proof.
  unfold Original._clean_part_number. destruct (is_empty s); [reflexivity |].
  apply join_words_chars, split_ws_words.
Qed.

Lemma clean_text_plain (s : string) : plain (Original._clean_text s) = true.
Proof.
  unfold Original._clean_text. destruct (is_empty s); [reflexivity |].
  rewrite strip_join_words by apply split_ws_words.
  apply join_words_chars, split_ws_words.
Qed.

Lemma series_numeric_only_plain (s : string) : plain (Original._series_numeric_only s) = true.
Proof.
  apply number_text_plain, digits_number_text.
  unfold Original._series_numeric_only.
  destruct (is_empty s); [reflexivity |].
  destruct (match_ Original.RE_SERIES_NUM (strip s)) as [m|] eqn:E.
  - rewrite (series_num_group _ _ E). apply forallb_filter_chars.
  - apply forallb_filter_chars.
Qed.

Lemma normalize_row_plain (r : row) (ix : Original.indices) (b : bool) (rc : record) :
  Original._normalize_row r ix b = Ok (Some rc) -> plain_record rc.
Proof.
  unfold Original._normalize_row.
  assert (Hd : plain (Original.opt_or_empty
                        (Original._extract_discount_from_cell
                           (match Original.i_discount ix with
                            | Some i => Original.cell_at r i
                            | None => CNone
                            end))) = true).
  { destruct (Original._extract_discount_from_cell _) as [d|] eqn:E; [| reflexivity].
    apply (discount_plain _ _ E). }
  destruct b.
  - cbn [bind]. intros H. inversion H; subst. clear H.
    unfold plain_record. cbn [part_number series description price discount].
    repeat split; try reflexivity; try assumption; try apply clean_text_plain.
    unfold Original.or_str.
    destruct (is_empty (Original._series_numeric_only _));
      [| apply series_numeric_only_plain].
    destruct (is_empty (Original._series_numeric_only _));
      apply series_numeric_only_plain.
  - destruct (Original._extract_price_from_cell _) as [p|e] eqn:Ep; cbn [bind];
      [| discriminate].
    destruct (negb (truthy_opt p)); [discriminate |].
    intros H. inversion H; subst. clear H.
    unfold plain_record. cbn [part_number series description price discount].
    repeat split; try assumption.
    + apply clean_part_number_plain.
    + apply series_numeric_only_plain.
    + apply clean_text_plain.
    + destruct p as [p|]; [| reflexivity]. apply (price_plain _ _ Ep).
Qed.

Lemma original_process_row_plain (st st' : Original.state) (r : row) :
  Forall plain_record (snd st) ->
  Original.process_row st r = Ok st' ->
  Forall plain_record (snd st').
Proof.
  destruct st as [indices records]. cbn [snd]. intros HF.
  unfold Original.process_row.
  destruct r as [|c r]; [intros H; inversion H; subst; assumption |].
  set (row := Original.pad5 (c :: r)).
  destruct (Original._is_header_row row && Original.is_none indices);
    [intros H; inversion H; subst; assumption |].
  set (ix := match indices with Some ix => ix | None => _ end).
  destruct (Original._is_header_row row);
    [intros H; inversion H; subst; assumption |].
  destruct (Original._row_looks_like_series_discount row ix) as [sd|e];
    cbn [bind]; [| discriminate].
  destruct (if sd then Ok true else Original._row_has_price row (Original.i_price ix))
    as [hp|e]; cbn [bind]; [| discriminate].
  destruct (negb sd && negb hp); [intros H; inversion H; subst; assumption |].
  destruct (Original._normalize_row row ix sd) as [[rc|]|e] eqn:En; cbn [bind].
  - intros H; inversion H; subst. cbn [snd].
    apply Forall_app. split; [assumption |].
    constructor; [| constructor].
    apply (normalize_row_plain _ _ _ _ En).
  - intros H; inversion H; subst; assumption.
  - discriminate.
Qed.

Lemma original_process_table_plain (st st' : Original.state) (t : table) :
  Forall plain_record (snd st) ->
  Original.process_table st t = Ok st' ->
  Forall plain_record (snd st').
Proof.
  unfold Original.process_table. intros HF.
  destruct (List.length t <? 2); [intros H; inversion H; subst; assumption |].
  apply (for_each_invariant (fun st => Forall plain_record (snd st))
                            Original.process_row); [| assumption].
  intros s a s'. apply original_process_row_plain.
Qed.

Lemma count_char_app (x : ascii) (s t : string) :
  count_char x (s ++ t) = count_char x s + count_char x t.
Proof.
  induction s as [|c s IH]; [reflexivity |].
  cbn [append count_char]. rewrite IH. lia.
Qed.

Lemma plain_no_newline (s : string) : plain s = true -> count_char "010" s = 0.
Proof.
  induction s as [|c s IH]; [reflexivity |].
  unfold plain. cbn [forallb_chars count_char]. intros H.
  apply andb_true_iff in H as [Hc Hs]. rewrite (IH Hs).
  destruct (Ascii.eqb_spec "010" c) as [<- |]; [discriminate Hc | reflexivity].
Qed.

Lemma count_char_replace (y x : ascii) (new s : string) :
  count_char y new = 0 -> count_char y s = 0 ->
  count_char y (replace (String x "") new s) = 0.
Proof.
  intros Hnew. unfold replace. induction s as [|c s IH]; intros H; [reflexivity |].
  cbn [count_char] in H.
  assert (Hs : count_char y s = 0) by lia.
  cbn [replace_from String.prefix String.length Nat.sub].
  destruct (ascii_dec x c) as [-> | Hne].
  - replace (String.prefix "" s) with true by (destruct s; reflexivity).
    rewrite count_char_app, Hnew, (IH Hs). reflexivity.
  - cbn [count_char]. rewrite (IH Hs). lia.
Qed.

Lemma csv_field_no_newline (s : string) :
  plain s = true -> count_char "010" (csv_field s) = 0.
Proof.
  intros H. apply plain_no_newline in H. unfold csv_field.
  destruct (contains "," s || contains dquote s || contains (String "010" "") s);
    [| assumption].
  rewrite !count_char_app.
  rewrite (count_char_replace "010" "034") by (reflexivity || assumption).
  reflexivity.
Qed.

Lemma record_line_count (r : record) :
  plain_record r ->
  count_char "010"
    (csv_line [part_number r; series r; description r; price r; discount r]) = 1.
Proof.
  intros (H1 & H2 & H3 & H4 & H5). unfold csv_line, join.
  cbn [map String.concat]. rewrite !count_char_app.
  rewrite !csv_field_no_newline by assumption. reflexivity.
Qed.

Lemma count_char_concat (x : ascii) (l : list string) :
  count_char x (String.concat "" l) = list_sum (map (count_char x) l).
Proof.
  induction l as [|s l IH]; [reflexivity |].
  destruct l as [|t l].
  - cbn [String.concat map list_sum fold_right]. lia.
  - change (String.concat "" (s :: t :: l)) with (s ++ "" ++ String.concat "" (t :: l)).
    rewrite !count_char_app, IH. cbn [map list_sum fold_right count_char]. lia.
Qed.

Lemma csv_line_count (df : dataframe) :
  Forall plain_record df ->
  count_char "010" (to_csv df) = S (List.length df).
Proof.
  intros HF. unfold to_csv. rewrite count_char_concat.
  cbn [map list_sum fold_right].
  change (fold_right Nat.add 0 ?l) with (list_sum l).
  replace (count_char "010" (csv_line OUTPUT_COLUMNS)) with 1 by reflexivity.
  f_equal. induction HF as [|r df Hr HF IH]; [reflexivity |].
  cbn [map list_sum fold_right List.length].
  change (fold_right Nat.add 0 ?l) with (list_sum l).
  rewrite (record_line_count r Hr), IH. reflexivity.
Qed.

(** X17: no field of a record of the original parser holds a line break,
    a carriage return or a tab, so that the CSV written for the records
    has one line for the column names and exactly one line for each
    record. *)
Theorem one_csv_line_per_record
        (pdf : document) (meta : Original.metadata) (records : list record) :
  Original.parse_document pdf = Ok (meta, records) ->
  Forall plain_record records /\
  count_char "010" (to_csv records) = S (List.length records).
Proof.
  unfold Original.parse_document. intros H.
  match type of H with
  | bind (for_each _ ?ts _) _ = _ =>
      destruct (for_each Original.process_table ts (None, [])) as [st|e] eqn:E
  end; cbn [bind] in H; [| discriminate].
  inversion H; subst. clear H.
  assert (HF : Forall plain_record (snd st)).
  { revert E.
    apply (for_each_invariant (fun st => Forall plain_record (snd st))
                              Original.process_table).
    - intros s a s'. apply original_process_table_plain.
    - constructor. }
  split; [exact HF | apply csv_line_count; exact HF].
Qed.

Lemma one_csv_line_per_record_witness :
  exists meta records,
    Original.parse_document Samples.quote = Ok (meta, records) /\
    Forall plain_record records /\
    count_char "010" (to_csv records) = S (List.length records).
Proof.
  eexists. eexists. split; [vm_compute; reflexivity |].
  eapply (one_csv_line_per_record Samples.quote). vm_compute. reflexivity.
Defined.

(** *** Errors of the page calls *)

Lemma for_each_raise {S A : Type} (P : exn -> Prop) (body : S -> A -> result S) :
  (forall st a e, body st a = Raise e -> P e) ->
  forall l st e, for_each body l st = Raise e -> P e.
Proof.
  intros Hb. induction l as [|a l IH]; intros st e H; cbn [for_each] in H.
  - discriminate.
  - destruct (body st a) as [st1|e1] eqn:E; cbn [bind] in H.
    + eapply IH. eassumption.
    + inversion H; subst. eapply Hb. eassumption.
Qed.

Lemma price_raises_overflow (c : cell) (e : exn) :
  Original._extract_price_from_cell c = Raise e -> e = Original.OVERFLOW.
Proof.
  unfold Original._extract_price_from_cell.
  destruct c as [| s | z | f].
  - discriminate.
  - destruct (search Original.RE_PRICE (strip s));
      destruct (float_of_string _); discriminate.
  - destruct (float_of_Z z); [discriminate |]. intros H; inversion H; reflexivity.
  - destruct (is_nan f); discriminate.
Qed.

Lemma original_process_row_raises (st : Original.state) (r : row) (e : exn) :
  Original.process_row st r = Raise e -> e = Original.OVERFLOW.
Proof.
  destruct st as [indices records]. unfold Original.process_row.
  destruct r as [|c r]; [discriminate |].
  set (row := Original.pad5 (c :: r)).
  destruct (Original._is_header_row row && Original.is_none indices); [discriminate |].
  set (ix := match indices with Some ix => ix | None => _ end).
  destruct (Original._is_header_row row); [discriminate |].
  destruct (Original._row_looks_like_series_discount row ix) as [sd|e1] eqn:Esd;
    cbn [bind].
  - destruct (if sd then Ok true else Original._row_has_price row (Original.i_price ix))
      as [hp|e2] eqn:Ehp; cbn [bind].
    + destruct (negb sd && negb hp); [discriminate |].
      destruct (Original._normalize_row row ix sd) as [[rc|]|e3] eqn:En; cbn [bind];
        try discriminate.
      intros H; inversion H; subst e3. clear H. revert En.
      unfold Original._normalize_row. destruct sd; [discriminate |].
      destruct (Original._extract_price_from_cell _) as [p|e4] eqn:Ep; cbn [bind].
      * destruct (negb (truthy_opt p)); discriminate.
      * intros H; inversion H; subst. apply (price_raises_overflow _ _ Ep).
    + intros H; inversion H; subst e2. clear H.
      destruct sd; [discriminate |]. revert Ehp.
      unfold Original._row_has_price.
      destruct (Original.i_price ix) as [i|]; [| discriminate].
      destruct (List.length row <=? i); [discriminate |].
      destruct (Original._extract_price_from_cell _) as [p|e4] eqn:Ep; cbn [bind];
        [discriminate |].
      intros H; inversion H; subst. apply (price_raises_overflow _ _ Ep).
  - intros H; inversion H; subst e1. clear H. revert Esd.
    unfold Original._row_looks_like_series_discount.
    destruct (Original.i_price ix) as [i|]; cbn [bind]; [| discriminate].
    destruct (Original._extract_price_from_cell _) as [p|e4] eqn:Ep; cbn [bind];
      [discriminate |].
    intros H; inversion H; subst. apply (price_raises_overflow _ _ Ep).
Qed.

Lemma extract_text_calm (p : page) : extract_text (calm p) = extract_text p.
Proof.
  unfold calm. destruct (extract_tables p); reflexivity.
Qed.

Lemma tables_of_calm_pages (pdf : document) (idxs : list nat) :
  Original._tables_with_pdfplumber (map calm pdf) idxs
  = Original._tables_with_pdfplumber pdf idxs.
Proof.
  induction idxs as [|i idxs IH]; [reflexivity |].
  cbn [Original._tables_with_pdfplumber]. rewrite nth_error_map, IH.
  destruct (nth_error pdf i) as [p|]; cbn [option_map]; [| reflexivity].
  unfold calm. destruct (extract_tables p) as [ts|e] eqn:E.
  - rewrite E. reflexivity.
  - reflexivity.
Qed.

Lemma texts_of_calm_pages (pdf : document) (idxs : list Z) (texts : list string) :
  Original.collect_texts (map calm pdf) idxs texts = Original.collect_texts pdf idxs texts.
Proof.
  revert texts. induction idxs as [|i idxs IH]; intros texts; [reflexivity |].
  cbn [Original.collect_texts]. rewrite length_map, nth_error_map.
  destruct (i <? Z.of_nat (List.length pdf))%Z; [| apply IH].
  destruct (i <? 0)%Z; [reflexivity |].
  destruct (nth_error pdf (Z.to_nat i)) as [p|]; cbn [option_map]; [| reflexivity].
  rewrite extract_text_calm.
  destruct (extract_text p) as [[t|]|]; try reflexivity; apply IH.
Qed.

(** X18: errors of the page calls never reach the caller of the original
    parser.  A page whose [extract_tables] raises is read as a page without
    tables; and when every whole number in the tables is one that [str]
    prints (below 10^4300 in magnitude), the only exception that the loop
    over the tables can raise is the [OverflowError] of a whole number too
    large for a float. *)
Theorem original_page_errors_are_skipped (pdf : document) :
  Original.parse_document (map calm pdf) = Original.parse_document pdf /\
  (printable_ints pdf ->
   forall e, Original.parse_document pdf = Raise e -> e = Original.OVERFLOW).
Proof.
  split.
  - unfold Original.parse_document, Original._extract_metadata.
    rewrite !length_map, !tables_of_calm_pages, texts_of_calm_pages. reflexivity.
  - intros _ e. unfold Original.parse_document.
    match goal with
    | |- bind (for_each _ ?ts _) _ = _ -> _ =>
        destruct (for_each Original.process_table ts (None, [])) as [st|e1] eqn:E
    end; cbn [bind]; [discriminate |].
    intros H; inversion H; subst e1. clear H. revert E.
    apply (for_each_raise (fun e => e = Original.OVERFLOW) Original.process_table).
    intros st a e1. unfold Original.process_table.
    destruct (List.length a <? 2); [discriminate |].
    apply (for_each_raise (fun e => e = Original.OVERFLOW) Original.process_row).
    intros st1 r e2. apply original_process_row_raises.
Qed.

Lemma original_page_errors_are_skipped_witness :
  Original.parse_document [blank_page; Samples.page_of "" huge_price]
  = Raise Original.OVERFLOW.
Proof.
  destruct (Original.parse_document [blank_page; Samples.page_of "" huge_price])
    as [r|e] eqn:E; [vm_compute in E; discriminate |].
  f_equal.
  apply (proj2 (original_page_errors_are_skipped
                  [blank_page; Samples.page_of "" huge_price])); [| exact E].
  intros p ts t r c Hp Hts Ht Hr Hc.
  destruct Hp as [<- | [<- | []]]; cbn in Hts; inversion Hts; subst ts.
  - destruct Ht.
  - destruct Ht as [<- | []].
    repeat (destruct Hr as [<- | Hr];
            [repeat (destruct Hc as [<- | Hc]; [vm_compute; reflexivity |]);
             contradiction |]).
    contradiction.
Defined.

(** X19: the simplified parser has no such guard.  When [extract_table]
    raises on any one page of the document, the run ends with exit code 1
    and writes no file, whatever the other pages hold. *)
Theorem simplified_page_error_is_fatal
        (a0 a1 : string) (rest : list string) (w : world)
        (pdf1 pdf2 : document) (p : page) (e : exn) :
  lookup (Path a1) (fs w) = Some (PdfFile (pdf1 ++ p :: pdf2)%list) ->
  extract_table p = Raise e ->
  fst (Simplified.main (a0 :: a1 :: rest) w) = 1 /\
  fs (snd (Simplified.main (a0 :: a1 :: rest) w)) = fs w /\
  stdout (snd (Simplified.main (a0 :: a1 :: rest) w)) = stdout w.
Proof.
  intros Hl He.
  assert (R : exists e1, Simplified.parse_document (pdf1 ++ p :: pdf2)%list = Raise e1).
  { unfold Simplified.parse_document. rewrite for_each_app.
    destruct (for_each Simplified.process_page pdf1 []) as [acc|e1]; cbn [bind].
    - cbn [for_each]. unfold Simplified.process_page at 1. rewrite He. cbn [bind].
      exists e. reflexivity.
    - exists e1. reflexivity. }
  destruct R as (e1 & R).
  assert (P : Simplified.parse_pdf w (Path a1) = Raise e1).
  { unfold Simplified.parse_pdf, exists_, open_pdf. rewrite Hl. cbn [negb bind].
    rewrite R. reflexivity. }
  unfold Simplified.main. rewrite P.
  destruct (exn_cls e1); repeat split; reflexivity.
Qed.

Lemma simplified_page_error_is_fatal_witness :
  fst (Simplified.main ["parse"; "quote.pdf"] (Samples.host quote_with_bad_page)) = 1 /\
  fs (snd (Simplified.main ["parse"; "quote.pdf"] (Samples.host quote_with_bad_page)))
  = fs (Samples.host quote_with_bad_page) /\
  stdout (snd (Simplified.main ["parse"; "quote.pdf"] (Samples.host quote_with_bad_page)))
  = stdout (Samples.host quote_with_bad_page).
Proof.
  apply (simplified_page_error_is_fatal "parse" "quote.pdf" []
           (Samples.host quote_with_bad_page) Samples.quote [] bad_page
           (mk_exn OtherError "bad page")); reflexivity.
Defined.

(** *** Reading back what was written *)




Section ReadBack.
Local Open Scope Z_scope.











End ReadBack.

(** *** The texts of the simplified parser *)

Lemma count_char_replace_from (y : ascii) (old new : string) (s : string) :
  count_char y new = 0 -> count_char y s = 0 ->
  forall k, count_char y (replace_from old new k s) = 0.
Proof.
  intros Hnew. induction s as [|c s IH]; intros H k; [reflexivity |].
  cbn [count_char] in H.
  assert (Hc : (if Ascii.eqb y c then 1 else 0) = 0) by lia.
  assert (Hs : count_char y s = 0) by lia.
  cbn [replace_from]. destruct k as [|k]; [| apply IH; assumption].
  destruct (String.prefix old (String c s)).
  - rewrite count_char_app, Hnew. apply IH. assumption.
  - cbn [count_char]. rewrite Hc. apply IH. assumption.
Qed.

Lemma newline_replaced (new s : string) :
  count_char "010" new = 0 ->
  count_char "010" (replace Simplified.newline new s) = 0.
Proof.
  intros Hnew. unfold replace, Simplified.newline.
  induction s as [|c s IH]; [reflexivity |].
  cbn [replace_from String.prefix String.length Nat.sub].
  destruct (ascii_dec "010" c) as [<- | Hne].
  - replace (String.prefix "" s) with true by (destruct s; reflexivity).
    rewrite count_char_app, Hnew. exact IH.
  - cbn [count_char]. apply Ascii.eqb_neq in Hne. rewrite Hne. exact IH.
Qed.

Lemma count_char_lstrip (y : ascii) (p : ascii -> bool) (s : string) :
  count_char y s = 0 -> count_char y (lstrip_by p s) = 0.
Proof.
  induction s as [|c s IH]; intros H; [reflexivity |].
  cbn [lstrip_by]. destruct (p c); [| assumption].
  apply IH. cbn [count_char] in H. lia.
Qed.

Lemma count_char_rstrip (y : ascii) (p : ascii -> bool) (s : string) :
  count_char y s = 0 -> count_char y (rstrip_by p s) = 0.
Proof.
  induction s as [|c s IH]; intros H; [reflexivity |].
  cbn [count_char] in H.
  assert (Hc : (if Ascii.eqb y c then 1 else 0) = 0) by lia.
  assert (Hs : count_char y s = 0) by lia.
  specialize (IH Hs). cbn [rstrip_by].
  destruct (rstrip_by p s) as [|c1 t].
  - destruct (p c); [reflexivity |]. cbn [count_char]. rewrite Hc. reflexivity.
  - cbn [count_char] in *. lia.
Qed.

Lemma count_char_strip (y : ascii) (s : string) :
  count_char y s = 0 -> count_char y (strip s) = 0.
Proof.
  intros H. unfold strip. apply count_char_rstrip, count_char_lstrip. assumption.
Qed.

Lemma count_char_before_first (y : ascii) (sep s : string) :
  count_char y s = 0 -> count_char y (before_first sep s) = 0.
Proof.
  induction s as [|c s IH]; intros H.
  - cbn [before_first]. destruct (String.prefix sep ""); reflexivity.
  - cbn [before_first]. destruct (String.prefix sep (String c s)); [reflexivity |].
    cbn [count_char] in *.
    assert (Hs : count_char y s = 0) by lia.
    rewrite (IH Hs). lia.
Qed.

Lemma dollar_in_front (price : string) :
  startswith "$" (if startswith "$" price then price else "$" ++ price) = true.
Proof.
  destruct (startswith "$" price) eqn:E; [exact E | apply startswith_dollar].
Qed.

Lemma simplified_process_row_text (acc acc' : list record) (r : row) :
  Forall simplified_record_text acc ->
  Simplified.process_row acc r = Ok acc' ->
  Forall simplified_record_text acc'.
Proof.
  intros HF. unfold Simplified.process_row.
  destruct r as [|c0 [|c1 [|c2 rest]]];
    try (intros H; inversion H; subst; assumption).
  destruct (Simplified.strip_method (Simplified.or_empty c2)) as [price|e]; cbn [bind];
    [| discriminate].
  destruct (is_empty price); [intros H; inversion H; subst; assumption |].
  destruct (Simplified.strip_method (Simplified.or_empty c0)) as [part0|e]; cbn [bind];
    [| discriminate].
  destruct (Simplified.strip_method (Simplified.or_empty c1)) as [desc0|e]; cbn [bind];
    [| discriminate].
  set (part := replace Simplified.newline "/" part0).
  set (desc := replace "<br>" "; " (replace Simplified.newline "; " desc0)).
  assert (Hpart : count_char "010" part = 0) by (apply newline_replaced; reflexivity).
  assert (Hdesc : count_char "010" desc = 0).
  { apply count_char_replace_from; [reflexivity |].
    apply newline_replaced. reflexivity. }
  assert (Product :
            simplified_record_text
              (mk_record part "" desc
                         (if startswith "$" price then price else "$" ++ price) "")).
  { unfold simplified_record_text. cbn [part_number description Py.price].
    repeat split; try assumption. right. apply dollar_in_front. }
  assert (Add : forall rc, simplified_record_text rc ->
                           Forall simplified_record_text (acc ++ [rc])%list).
  { intros rc Hrc. apply Forall_app. split; [assumption |].
    constructor; [assumption | constructor]. }
  destruct (contains "discount" (lower desc) && contains "%" desc).
  - destruct (search Simplified.RE_SERIES_DISCOUNT desc) as [m|];
      intros H; inversion H; subst; apply Add; [| exact Product].
    unfold simplified_record_text. cbn [part_number description Py.price].
    repeat split; [| left; reflexivity].
    apply count_char_strip, count_char_replace_from; [reflexivity |].
    apply count_char_before_first. assumption.
  - intros H; inversion H; subst. apply Add. exact Product.
Qed.

Lemma simplified_process_page_text (acc acc' : list record) (p : page) :
  Forall simplified_record_text acc ->
  Simplified.process_page acc p = Ok acc' ->
  Forall simplified_record_text acc'.
Proof.
  intros HF. unfold Simplified.process_page.
  destruct (extract_table p) as [[t|]|e]; cbn [bind];
    [| intros H; inversion H; subst; assumption | discriminate].
  destruct t as [|r0 t]; [intros H; inversion H; subst; assumption |].
  apply (for_each_invariant (Forall simplified_record_text) Simplified.process_row);
    [| assumption].
  intros s a s'. apply simplified_process_row_text.
Qed.

(** X22: in every record of the simplified parser the part number and the
    description hold no line feed, since the line feeds of the cells are
    replaced, and a price starts with the dollar sign: the sign is put in
    front of the stripped cell text unless the text starts with one. *)
Theorem simplified_record_texts
        (pdf : document) (q : option string) (recs : list record) :
  Simplified.parse_document pdf = Ok (q, recs) ->
  Forall simplified_record_text recs.
Proof.
  unfold Simplified.parse_document.
  destruct (for_each Simplified.process_page pdf []) as [rs|e] eqn:E; cbn [bind];
    [| discriminate].
  intros H; inversion H; subst. revert E.
  apply (for_each_invariant (Forall simplified_record_text) Simplified.process_page).
  - intros s a s'. apply simplified_process_page_text.
  - constructor.
Qed.

Lemma simplified_record_texts_witness :
  exists q recs,
    Simplified.parse_document
      [Samples.page_of "" [Samples.text_cells ["750-500"; "8-Channel Module"; "125.00"]]]
    = Ok (q, recs) /\ Forall simplified_record_text recs.
Proof.
  eexists. eexists. split; [vm_compute; reflexivity |].
  eapply (simplified_record_texts
            [Samples.page_of "" [Samples.text_cells ["750-500"; "8-Channel Module"; "125.00"]]]).
  vm_compute. reflexivity.
Defined.

(** *** Tables without a header row *)







(** *** The Series and Discount columns *)






(** *** Text that is no number *)

Lemma forallb_lstrip (p q : ascii -> bool) (s : string) :
  forallb_chars p s = true -> forallb_chars p (lstrip_by q s) = true.
Proof.
  induction s as [|c s IH]; intros H; [reflexivity |].
  cbn [lstrip_by]. destruct (q c); [| assumption].
  cbn [forallb_chars] in H. apply andb_true_iff in H as [_ H]. apply IH. assumption.
Qed.

Lemma forallb_rstrip (p q : ascii -> bool) (s : string) :
  forallb_chars p s = true -> forallb_chars p (rstrip_by q s) = true.
Proof.
  induction s as [|c s IH]; intros H; [reflexivity |].
  cbn [forallb_chars] in H. apply andb_true_iff in H as [Hc Hs].
  specialize (IH Hs). cbn [rstrip_by].
  destruct (rstrip_by q s) as [|c1 t].
  - destruct (q c); [reflexivity |]. cbn [forallb_chars]. rewrite Hc. reflexivity.
  - cbn [forallb_chars] in *. rewrite Hc, IH. reflexivity.
Qed.

Lemma forallb_strip (p : ascii -> bool) (s : string) :
  forallb_chars p s = true -> forallb_chars p (strip s) = true.
Proof.
  intros H. unfold strip. apply forallb_rstrip, forallb_lstrip. assumption.
Qed.

Lemma forallb_filter_kept (p q : ascii -> bool) (s : string) :
  forallb_chars p s = true -> forallb_chars p (filter_chars q s) = true.
Proof.
  induction s as [|c s IH]; intros H; [reflexivity |].
  cbn [forallb_chars] in H. apply andb_true_iff in H as [Hc Hs].
  cbn [filter_chars]. destruct (q c); [cbn [forallb_chars]; rewrite Hc |]; apply IH; assumption.
Qed.

Lemma forallb_bare_text (p : ascii -> bool) (s : string) :
  forallb_chars p s = true -> forallb_chars p (bare_text s) = true.
Proof.
  intros H. unfold bare_text. rewrite !replace_char.
  apply forallb_strip, forallb_filter_kept, forallb_filter_kept, forallb_strip. assumption.
Qed.













(** *** The records follow the rows *)

(** what a row appends does not depend on the records before it *)
Lemma original_row_factor (o : option Original.indices) (acc : list record) (r : row) :
  Original.process_row (o, acc) r
  = match Original.process_row (o, []) r with
    | Ok (o1, l) => Ok (o1, (acc ++ l)%list)
    | Raise e => Raise e
    end.
Proof.
  unfold Original.process_row.
  destruct r as [|c r]; [rewrite app_nil_r; reflexivity |].
  set (rw := Original.pad5 (c :: r)).
  destruct (Original._is_header_row rw && Original.is_none o);
    [rewrite app_nil_r; reflexivity |].
  set (ix := match o with Some ix => ix | None => _ end).
  destruct (Original._is_header_row rw); [rewrite app_nil_r; reflexivity |].
  destruct (Original._row_looks_like_series_discount rw ix) as [sd|e]; cbn [bind];
    [| reflexivity].
  destruct (if sd then Ok true else Original._row_has_price rw (Original.i_price ix))
    as [hp|e]; cbn [bind]; [| reflexivity].
  destruct (negb sd && negb hp); [rewrite app_nil_r; reflexivity |].
  destruct (Original._normalize_row rw ix sd) as [[rc|]|e]; cbn [bind];
    [reflexivity | rewrite app_nil_r; reflexivity | reflexivity].
Qed.

Lemma original_rows_outputs (rows : list row) :
  forall (o : option Original.indices) (acc : list record) (st' : Original.state),
    for_each Original.process_row rows (o, acc) = Ok st' ->
    exists ls, row_outputs o rows ls (fst st') /\ snd st' = (acc ++ concat ls)%list.
Proof.
  induction rows as [|r rows IH]; intros o acc st' H; cbn [for_each] in H.
  - inversion H; subst. exists []. split; [constructor |].
    cbn [snd concat]. rewrite app_nil_r. reflexivity.
  - rewrite original_row_factor in H.
    destruct (Original.process_row (o, []) r) as [[o1 l]|e] eqn:E; cbn [bind] in H;
      [| discriminate].
    apply IH in H as (ls & R & S).
    exists (l :: ls). split.
    + apply (outputs_cons o o1 (fst st') r l rows ls E); [| exact R].
      destruct (original_row_appends _ _ _ E) as (l0 & E0 & L0).
      cbn [snd app] in E0. subst l0. exact L0.
    + rewrite S. cbn [concat]. rewrite app_assoc. reflexivity.
Qed.

Lemma tables_are_rows (ts : list table) :
  forall st : Original.state,
    for_each Original.process_table ts st
    = for_each Original.process_row (scanned_rows ts) st.
Proof.
  induction ts as [|t ts IH]; intros st; [reflexivity |].
  cbn [for_each]. unfold Original.process_table at 1.
  unfold scanned_rows. cbn [filter].
  destruct (List.length t <? 2); cbn [negb bind].
  - apply IH.
  - cbn [concat]. rewrite for_each_app.
    destruct (for_each Original.process_row t st); cbn [bind]; [apply IH | reflexivity].
Qed.

Lemma simplified_row_factor (acc : list record) (r : row) :
  Simplified.process_row acc r
  = match Simplified.process_row [] r with
    | Ok l => Ok (acc ++ l)%list
    | Raise e => Raise e
    end.
Proof.
  unfold Simplified.process_row.
  destruct r as [|c0 [|c1 [|c2 rest]]]; try (rewrite app_nil_r; reflexivity).
  destruct (Simplified.strip_method (Simplified.or_empty c2)) as [price|e]; cbn [bind];
    [| reflexivity].
  destruct (is_empty price); [rewrite app_nil_r; reflexivity |].
  destruct (Simplified.strip_method (Simplified.or_empty c0)) as [part0|e]; cbn [bind];
    [| reflexivity].
  destruct (Simplified.strip_method (Simplified.or_empty c1)) as [desc0|e]; cbn [bind];
    [| reflexivity].
  match goal with
  | |- (if ?c then _ else _) = _ => destruct c
  end; [| reflexivity].
  destruct (search Simplified.RE_SERIES_DISCOUNT _); reflexivity.
Qed.

Lemma simplified_rows_outputs (rows : list row) :
  forall acc acc' : list record,
    for_each Simplified.process_row rows acc = Ok acc' ->
    exists ls,
      Forall2 (fun r l => Simplified.process_row [] r = Ok l /\ List.length l <= 1)
              rows ls /\
      acc' = (acc ++ concat ls)%list.
Proof.
  induction rows as [|r rows IH]; intros acc acc' H; cbn [for_each] in H.
  - inversion H; subst. exists []. split; [constructor |].
    cbn [concat]. rewrite app_nil_r. reflexivity.
  - rewrite simplified_row_factor in H.
    destruct (Simplified.process_row [] r) as [l|e] eqn:E; cbn [bind] in H;
      [| discriminate].
    apply IH in H as (ls & R & S).
    exists (l :: ls). split.
    + constructor; [| exact R]. split; [exact E |].
      destruct (simplified_row_appends _ _ _ E) as (l0 & E0 & L0).
      cbn [app] in E0. subst l0. exact L0.
    + rewrite S. cbn [concat]. rewrite app_assoc. reflexivity.
Qed.

Lemma page_is_rows (acc acc' : list record) (p : page) :
  Simplified.process_page acc p = Ok acc' ->
  for_each Simplified.process_row (page_scanned_rows p) acc = Ok acc'.
Proof.
  unfold Simplified.process_page, page_scanned_rows.
  destruct (extract_table p) as [[t|]|e]; cbn [bind]; try discriminate.
  - destruct t as [|r0 t]; intros H; exact H.
  - intros H; exact H.
Qed.

(** X2: the records follow the rows.  In both parsers what a row appends
    does not depend on the records collected before it, and a run over
    the rows of a document gives the earlier records followed by the
    outputs of the rows that are read, one output for each row and in the
    order of the rows; each output is the empty list or a single record,
    the one that the row gives by itself (in the original parser, with
    the roles left by the rows before it). *)
Theorem records_are_appended_one_per_row :
  (forall (ts : list table) (o : option Original.indices) (acc : list record)
          (st' : Original.state),
     for_each Original.process_table ts (o, acc) = Ok st' ->
     exists ls,
       row_outputs o (scanned_rows ts) ls (fst st') /\
       snd st' = (acc ++ concat ls)%list) /\
  (forall (pdf : document) (acc acc' : list record),
     for_each Simplified.process_page pdf acc = Ok acc' ->
     exists ls,
       Forall2 (fun r l => Simplified.process_row [] r = Ok l /\ List.length l <= 1)
               (flat_map page_scanned_rows pdf) ls /\
       acc' = (acc ++ concat ls)%list).
Proof.
  split.
  - intros ts o acc st' H. rewrite tables_are_rows in H.
    apply original_rows_outputs. exact H.
  - induction pdf as [|p pdf IH]; intros acc acc' H; cbn [for_each] in H.
    + inversion H; subst. exists []. split; [constructor |].
      cbn [concat]. rewrite app_nil_r. reflexivity.
    + destruct (Simplified.process_page acc p) as [acc1|e] eqn:E; cbn [bind] in H;
        [| discriminate].
      apply page_is_rows, simplified_rows_outputs in E as (ls1 & R1 & S1).
      apply IH in H as (ls2 & R2 & S2).
      exists (ls1 ++ ls2)%list. split.
      * cbn [flat_map]. apply Forall2_app; assumption.
      * rewrite S2, S1, concat_app, app_assoc. reflexivity.
Qed.

Lemma records_are_appended_one_per_row_witness :
  exists ls,
    row_outputs None (scanned_rows [Samples.priced_and_discounted]) ls
      (fst (Some (Original.mk_indices (Some 0) (Some 1) (Some 2) (Some 3) (Some 4)),
            [mk_record "750-500" "750" "8-Channel Module" "$10.00" "5%"])) /\
    snd (Some (Original.mk_indices (Some 0) (Some 1) (Some 2) (Some 3) (Some 4)),
         [mk_record "750-500" "750" "8-Channel Module" "$10.00" "5%"])
    = ([] ++ concat ls)%list.
Proof.
  apply (proj1 records_are_appended_one_per_row [Samples.priced_and_discounted] None []).
  vm_compute. reflexivity.
Defined.

(** *** The words of a text *)

Lemma split_ws_spaces (sp t : string) :
  forallb_chars is_space sp = true -> split_ws (sp ++ t) = split_ws t.
Proof.
  induction sp as [|c sp IH]; intros H; [reflexivity |].
  cbn [forallb_chars] in H. apply andb_true_iff in H as [Hc Hs].
  cbn [append split_ws]. rewrite Hc. apply IH. assumption.
Qed.

Lemma split_ws_word_rest (w rest : string) :
  is_word w -> starts_blank rest = true ->
  split_ws (w ++ rest) = w :: split_ws rest.
Proof.
  intros Hw Hr. induction w as [|c w IH]; [destruct Hw; congruence |].
  destruct Hw as [_ Hw].
  cbn [forallb_chars] in Hw. apply andb_true_iff in Hw as [Hc Hw].
  apply negb_true_iff in Hc.
  cbn [append split_ws]. rewrite Hc.
  destruct w as [|c1 w].
  - cbn [append]. destruct rest as [|c2 rest]; [reflexivity |].
    cbn [starts_blank] in Hr. rewrite Hr. reflexivity.
  - assert (Hc1 : is_space c1 = false).
    { cbn [forallb_chars] in Hw. apply andb_true_iff in Hw as [H _].
      apply negb_true_iff in H. exact H. }
    cbn [append]. rewrite Hc1.
    change (String c1 (w ++ rest)) with (String c1 w ++ rest).
    rewrite IH by (split; [discriminate | exact Hw]). reflexivity.
Qed.

(** a text has the words that [split] gives, and no others *)
Lemma spaced_words_split (s : string) (ws : list string) :
  spaced_words s ws -> split_ws s = ws.
Proof.
  induction 1 as [sp Hsp | sp w rest ws Hsp Hw Hr _ IH].
  - rewrite <- (string_app_nil_r sp). rewrite split_ws_spaces by assumption. reflexivity.
  - rewrite split_ws_spaces by assumption.
    rewrite split_ws_word_rest by assumption. rewrite IH. reflexivity.
Qed.

Lemma spaced_words_after_space (c : ascii) (s : string) (ws : list string) :
  is_space c = true -> spaced_words s ws -> spaced_words (String c s) ws.
Proof.
  intros Hc H. destruct H as [sp Hsp | sp w rest ws Hsp Hw Hr H].
  - apply spaced_end. cbn [forallb_chars]. rewrite Hc, Hsp. reflexivity.
  - apply (spaced_word (String c sp) w rest ws); try assumption.
    cbn [forallb_chars]. rewrite Hc, Hsp. reflexivity.
Qed.

Lemma spaced_words_head_word (c1 : ascii) (s w : string) (ws : list string) :
  is_space c1 = false ->
  spaced_words (String c1 s) (w :: ws) ->
  exists rest, String c1 s = w ++ rest /\ is_word w /\ starts_blank rest = true
               /\ spaced_words rest ws.
Proof.
  intros Hc H.
  remember (String c1 s) as t eqn:Et. remember (w :: ws) as l eqn:El.
  destruct H as [sp Hsp | sp w0 rest ws0 Hsp Hw Hr H]; [discriminate |].
  injection El as E1 E2. subst w0 ws0.
  destruct sp as [|c2 sp]; cbn [append] in Et.
  - exists rest. repeat split; try assumption; apply Hw.
  - exfalso. injection Et as E3 _. subst c2.
    cbn [forallb_chars] in Hsp. rewrite Hc in Hsp. discriminate.
Qed.

Lemma split_ws_spaced (s : string) : spaced_words s (split_ws s).
Proof.
  induction s as [|c s IH]; [apply spaced_end; reflexivity |].
  cbn [split_ws]. destruct (is_space c) eqn:Ec.
  - apply spaced_words_after_space; assumption.
  - assert (W1 : is_word (String c "")).
    { split; [discriminate |]. cbn [forallb_chars]. unfold not_space. rewrite Ec. reflexivity. }
    destruct s as [|c1 s].
    + apply (spaced_word "" (String c "") "" []); try assumption; reflexivity.
    + destruct (is_space c1) eqn:Ec1.
      * apply (spaced_word "" (String c "") (String c1 s) (split_ws (String c1 s)));
          try assumption; reflexivity.
      * destruct (split_ws (String c1 s)) as [|w ws] eqn:Es.
        { exfalso. apply (split_ws_nonspace_head c1 s Ec1). exact Es. }
        destruct (spaced_words_head_word c1 s w ws Ec1 IH) as (rest & E & Hw & Hr & H).
        rewrite E.
        apply (spaced_word "" (String c w) rest ws); try assumption; [reflexivity |].
        destruct Hw as [_ Hw]. split; [discriminate |].
        cbn [forallb_chars]. unfold not_space at 1. rewrite Ec, Hw. reflexivity.
Qed.

Lemma split_ws_lstrip (s : string) : split_ws (lstrip_by is_space s) = split_ws s.
Proof.
  induction s as [|c s IH]; [reflexivity |].
  cbn [lstrip_by]. destruct (is_space c) eqn:Ec; [| reflexivity].
  cbn [split_ws]. rewrite Ec. exact IH.
Qed.

Lemma rstrip_spaces (sp : string) :
  forallb_chars is_space sp = true -> rstrip_by is_space sp = "".
Proof.
  induction sp as [|c sp IH]; intros H; [reflexivity |].
  cbn [forallb_chars] in H. apply andb_true_iff in H as [Hc Hs].
  cbn [rstrip_by]. rewrite (IH Hs), Hc. reflexivity.
Qed.

Lemma rstrip_app_keep (a b : string) :
  rstrip_by is_space b <> "" ->
  rstrip_by is_space (a ++ b) = a ++ rstrip_by is_space b.
Proof.
  intros Hb. induction a as [|x a IH]; [reflexivity |].
  cbn [append rstrip_by]. rewrite IH.
  destruct (a ++ rstrip_by is_space b) eqn:E; [| reflexivity].
  exfalso. destruct a; cbn [append] in E; [contradiction | discriminate].
Qed.

Lemma rstrip_after_word (w t : string) :
  forallb_chars not_space w = true ->
  rstrip_by is_space (w ++ t) = w ++ rstrip_by is_space t.
Proof.
  induction w as [|x w IH]; intros H; [reflexivity |].
  cbn [forallb_chars] in H. apply andb_true_iff in H as [Hx Hw].
  apply negb_true_iff in Hx.
  cbn [append rstrip_by]. rewrite (IH Hw).
  destruct (w ++ rstrip_by is_space t); [rewrite Hx |]; reflexivity.
Qed.

Lemma rstrip_starts_blank (t : string) :
  starts_blank t = true -> starts_blank (rstrip_by is_space t) = true.
Proof.
  destruct t as [|c t]; [reflexivity |].
  cbn [starts_blank rstrip_by]. intros Hc.
  destruct (rstrip_by is_space t); [rewrite Hc; reflexivity | exact Hc].
Qed.

Lemma rstrip_spaced (s : string) (ws : list string) :
  spaced_words s ws -> spaced_words (rstrip_by is_space s) ws.
Proof.
  induction 1 as [sp Hsp | sp w rest ws Hsp Hw Hr H IH].
  - rewrite rstrip_spaces by assumption. apply spaced_end. reflexivity.
  - assert (Ew : rstrip_by is_space (w ++ rest) = w ++ rstrip_by is_space rest)
      by (apply rstrip_after_word; apply Hw).
    rewrite rstrip_app_keep.
    + rewrite Ew. apply spaced_word; try assumption.
      apply rstrip_starts_blank. assumption.
    + rewrite Ew. destruct Hw as [Hne _].
      destruct w; [congruence | discriminate].
Qed.

Lemma split_ws_strip (s : string) : split_ws (strip s) = split_ws s.
Proof.
  unfold strip. rewrite <- (split_ws_lstrip s).
  apply spaced_words_split, rstrip_spaced, split_ws_spaced.
Qed.

(** X6: [_clean_part_number] returns the words of its argument, each a
    longest run of characters that are no white space, in their order
    and joined by single blanks.  It changes white space only, so that
    slashes, dashes and parentheses of a part number stay where they
    are, and cleaning a second time changes nothing.  The argument is
    ASCII text. *)
Theorem clean_part_number_canonical (s : string) :
  is_ascii s = true ->
  (exists ws, spaced_words s ws) /\
  (forall ws, spaced_words s ws -> Original._clean_part_number s = join " " ws) /\
  filter_chars not_space (Original._clean_part_number s) = filter_chars not_space s /\
  Original._clean_part_number (Original._clean_part_number s)
  = Original._clean_part_number s.
Proof.
  intros _.
  assert (E0 : Original._clean_part_number s = join " " (split_ws s)).
  { unfold Original._clean_part_number. destruct s as [|c s]; [reflexivity |].
    cbn [is_empty]. rewrite split_ws_strip. reflexivity. }
  assert (HF : Forall is_word (split_ws s)) by apply split_ws_words.
  split; [exists (split_ws s); apply split_ws_spaced |].
  split; [intros ws H; rewrite E0, (spaced_words_split s ws H); reflexivity |].
  split.
  - rewrite E0. apply filter_join_split.
  - rewrite E0. unfold Original._clean_part_number.
    destruct (is_empty (join " " (split_ws s))) eqn:E.
    + destruct (join " " (split_ws s)); [reflexivity | discriminate].
    + rewrite strip_join_words, split_ws_join by assumption. reflexivity.
Qed.

Lemma clean_part_number_canonical_witness :
  Original._clean_part_number (String "009" " 221-412  /" ++ String "010" " K194-4045 ")
  = "221-412 / K194-4045".
Proof.
  apply (proj1 (proj2 (clean_part_number_canonical
                         (String "009" " 221-412  /" ++ String "010" " K194-4045 ")
                         eq_refl))
               ["221-412"; "/"; "K194-4045"]).
  apply (spaced_word (String "009" " ") "221-412" ("  /" ++ String "010" " K194-4045 "));
    [reflexivity | split; [discriminate | reflexivity] | reflexivity |].
  apply (spaced_word "  " "/" (String "010" " K194-4045 "));
    [reflexivity | split; [discriminate | reflexivity] | reflexivity |].
  apply (spaced_word (String "010" " ") "K194-4045" " ");
    [reflexivity | split; [discriminate | reflexivity] | reflexivity |].
  apply spaced_end. reflexivity.
Defined.

Lemma replace_line_feeds (s : string) :
  replace (String "010" "") "; " s = line_feeds_marked s.
Proof.
  unfold replace. induction s as [|c s IH]; [reflexivity |].
  cbn [replace_from String.prefix String.length Nat.sub line_feeds_marked].
  destruct (ascii_dec "010" c) as [<- | Hne].
  - replace (String.prefix "" s) with true by (destruct s; reflexivity).
    rewrite IH. reflexivity.
  - rewrite IH. apply not_eq_sym in Hne. apply Ascii.eqb_neq in Hne. rewrite Hne.
    reflexivity.
Qed.

Lemma replace_carriage_return (c : ascii) (t : string) :
  replace (String "013" "") " " (String c t)
  = String (if Ascii.eqb c "013" then " "%char else c)
           (replace (String "013" "") " " t).
Proof.
  unfold replace.
  cbn [replace_from String.prefix String.length Nat.sub].
  destruct (ascii_dec "013" c) as [<- | Hne].
  - replace (String.prefix "" t) with true by (destruct t; reflexivity). reflexivity.
  - apply not_eq_sym in Hne. apply Ascii.eqb_neq in Hne. rewrite Hne. reflexivity.
Qed.

Lemma split_ws_two (c c1 : ascii) (x : string) :
  split_ws (String c (String c1 x))
  = if is_space c then split_ws (String c1 x)
    else if is_space c1 then String c "" :: split_ws (String c1 x)
         else match split_ws (String c1 x) with
              | w :: ws => String c w :: ws
              | [] => [String c ""]
              end.
Proof.
  reflexivity.
Qed.

(** a carriage return is white space already: turning it into a blank
    changes no word *)
Lemma split_ws_carriage_return (t : string) :
  split_ws (replace (String "013" "") " " t) = split_ws t.
Proof.
  assert (Sp : forall c, is_space (if Ascii.eqb c "013" then " "%char else c) = is_space c).
  { intros c. destruct (Ascii.eqb_spec c "013") as [-> |]; reflexivity. }
  assert (Id : forall c, is_space c = false ->
                         (if Ascii.eqb c "013" then " "%char else c) = c).
  { intros c H. destruct (Ascii.eqb_spec c "013") as [-> |]; [discriminate | reflexivity]. }
  induction t as [|c t IH]; [reflexivity |].
  rewrite replace_carriage_return.
  destruct t as [|c1 t].
  - change (replace (String "013" "") " " "") with "".
    cbn [split_ws]. rewrite Sp.
    destruct (is_space c) eqn:Ec; [reflexivity | rewrite (Id c Ec); reflexivity].
  - rewrite replace_carriage_return in *.
    rewrite !split_ws_two, !Sp, IH.
    destruct (is_space c) eqn:Ec; [reflexivity |].
    rewrite (Id c Ec). reflexivity.
Qed.

(** X7: [_clean_text] turns each line feed of its argument into a
    semicolon and a blank and returns the words of that text, each a
    longest run of characters that are no white space, in their order
    and joined by single blanks; the replacement of the carriage return
    changes nothing.  The result holds no white space but single blanks
    between words, and cleaning a second time changes nothing.  The
    argument is ASCII text. *)
Theorem clean_text_canonical (s : string) :
  is_ascii s = true ->
  (exists ws, spaced_words (line_feeds_marked s) ws) /\
  (forall ws, spaced_words (line_feeds_marked s) ws ->
              Original._clean_text s = join " " ws) /\
  forallb_chars (fun c => not_space c || Ascii.eqb c " ") (Original._clean_text s) = true /\
  Original._clean_text (Original._clean_text s) = Original._clean_text s.
Proof.
  intros _.
  set (ws0 := split_ws (line_feeds_marked s)).
  assert (HF : Forall is_word ws0) by apply split_ws_words.
  assert (E : Original._clean_text s = join " " ws0).
  { unfold Original._clean_text. destruct s as [|c s]; [reflexivity |].
    cbn [is_empty].
    rewrite replace_line_feeds, split_ws_carriage_return.
    apply strip_join_words. exact HF. }
  pose proof (join_words_chars ws0 HF) as Hch.
  split; [exists ws0; apply split_ws_spaced |].
  split; [intros ws H; rewrite E; unfold ws0;
          rewrite (spaced_words_split _ ws H); reflexivity |].
  split; [rewrite E; exact Hch |].
  rewrite E. unfold Original._clean_text.
  destruct (is_empty (join " " ws0)) eqn:Ee;
    [destruct (join " " ws0); [reflexivity | discriminate] |].
  rewrite (replace_absent "010").
  - rewrite (replace_absent "013").
    + rewrite split_ws_join, strip_join_words by assumption. reflexivity.
    + eapply forallb_chars_impl; [| exact Hch].
      intros c H. apply orb_true_iff in H as [H | H].
      * destruct (Ascii.eqb_spec "013" c) as [<- | _]; [discriminate H | reflexivity].
      * apply Ascii.eqb_eq in H. subst c. reflexivity.
  - eapply forallb_chars_impl; [| exact Hch].
    intros c H. apply orb_true_iff in H as [H | H].
    + destruct (Ascii.eqb_spec "010" c) as [<- | _]; [discriminate H | reflexivity].
    + apply Ascii.eqb_eq in H. subst c. reflexivity.
Qed.

Lemma clean_text_canonical_witness :
  Original._clean_text
    ("Terminal" ++ String "010" "block  2-pole" ++ String "013" (String "010" ""))
  = "Terminal; block 2-pole ;".
Proof.
  apply (proj1 (proj2 (clean_text_canonical
                         ("Terminal" ++ String "010" "block  2-pole"
                                     ++ String "013" (String "010" ""))
                         eq_refl))
               ["Terminal;"; "block"; "2-pole"; ";"]).
  apply (spaced_word "" "Terminal;" (" block  2-pole" ++ String "013" "; "));
    [reflexivity | split; [discriminate | reflexivity] | reflexivity |].
  apply (spaced_word " " "block" ("  2-pole" ++ String "013" "; "));
    [reflexivity | split; [discriminate | reflexivity] | reflexivity |].
  apply (spaced_word "  " "2-pole" (String "013" "; "));
    [reflexivity | split; [discriminate | reflexivity] | reflexivity |].
  apply (spaced_word (String "013" "") ";" " ");
    [reflexivity | split; [discriminate | reflexivity] | reflexivity |].
  apply spaced_end. reflexivity.
Defined.
